(** * bthread context switching and brpc::SocketMessage

    A shallow embedding of
      - src/bthread/context.cpp : the assembly routines
        [bthread_jump_fcontext], [bthread_make_fcontext] and the [finish]
        trampoline, one copy per platform;
      - src/brpc/socket_message.h : [SocketMessage], its deleter and the
        [SocketMessagePtr] wrappers.

    Every assembly instruction is a function on machine states; a routine
    is the list of its instructions in program order, a forward
    conditional branch is a guarded sub-list. *)

From Stdlib Require Import ZArith List Bool Lia String.
Import ListNotations.
Local Open Scope Z_scope.

(** ** Byte-addressed memory of a machine with [bits]-bit addresses *)

Definition memory := Z -> Z.

Definition wrap (bits x : Z) : Z := x mod 2 ^ bits.

(** Little-endian store of the [n] low bytes of [v] at [a], [a+1], ... *)
Fixpoint store (bits : Z) (n : nat) (a v : Z) (m : memory) : memory :=
  match n with
  | O => m
  | S k => fun x =>
      if x =? wrap bits a then v mod 256
      else store bits k (a + 1) (v / 256) m x
  end.

(** Little-endian load of [n] bytes from [a], [a+1], ... *)
Fixpoint load (bits : Z) (n : nat) (a : Z) (m : memory) : Z :=
  match n with
  | O => 0
  | S k => m (wrap bits a) + 256 * load bits k (a + 1) m
  end.

(** The byte ranges [a, a+n) and [b, b+k), taken modulo the address
    space, share no address: [b] lies at least [n] bytes ahead of [a] and
    [a] at least [k] bytes ahead of [b]. *)
Definition disjoint (bits a n b k : Z) : bool :=
  (n <=? wrap bits (b - a)) && (k <=? wrap bits (a - b)).

(** [x] is one of the [n] addresses starting at [a]. *)
Definition within (bits a n x : Z) : Prop :=
  exists i, 0 <= i < n /\ x = wrap bits (a + i).

(** ** Machine states: a register file and a memory *)

#[projections(primitive)] Record state {reg : Type} :=
  mkState { rf : reg -> Z; mem : memory }.
Arguments state : clear implicits.
Arguments mkState {reg} _ _.

Definition instr {reg : Type} := state reg -> state reg.
Definition expr {reg : Type} := state reg -> Z.

Section Machine.
Context {reg : Type}.
Variable eqb : reg -> reg -> bool.
Variable bits : Z.

Definition setr (r : reg) (v : Z) (s : state reg) : state reg :=
  mkState (fun r' => if eqb r' r then v else rf s r') (mem s).

Definition write (n : nat) (a v : Z) (s : state reg) : state reg :=
  mkState (rf s) (store bits n a v (mem s)).

(** The two micro-operations every instruction is made of: a register
    receives the value of an expression, [n] bytes of memory receive
    one. *)
Definition assign (r : reg) (e : @expr reg) : @instr reg :=
  fun s => setr r (e s) s.
Definition poke (n : nat) (a v : @expr reg) : @instr reg :=
  fun s => write n (a s) (v s) s.
Definition peek (n : nat) (a : @expr reg) : @expr reg :=
  fun s => load bits n (a s) (mem s).

(** Instructions in program order. *)
Definition run (prog : list (@instr reg)) : @instr reg :=
  fun s => fold_left (fun s i => i s) prog s.

(** A forward branch over [body], taken when [cond] holds. *)
Definition branch_over (cond : state reg -> bool) (body : list (@instr reg))
  : @instr reg :=
  fun s => if cond s then s else run body s.
End Machine.

Arguments wrap : simpl never.
Arguments store : simpl never.
Arguments load : simpl never.

(** ** How a process can end *)

(** What a [call] names: an assembler symbol or a literal address. *)
Inductive call_target :=
| Symbol (name : string)
| Address (a : Z).

(** Where control is after a [call]: the C library ended the process
    ([_exit] at once, [exit] after running the atexit handlers and static
    destructors), or it sits in code this file does not contain. *)
Inductive outcome {reg : Type} :=
| Terminated (status : Z) (cleanup_ran : bool)
| Transferred (t : call_target) (s : state reg).
Arguments outcome : clear implicits.

(** The C function an assembler symbol stands for, on a platform whose
    C symbols carry [prefix]. *)
Definition c_function (prefix name : string) : option string :=
  if String.prefix prefix name
  then Some (substring (String.length prefix)
                       (String.length name - String.length prefix) name)
  else None.

Definition libc_call {reg} (prefix : string) (arg0 : state reg -> Z)
    (t : call_target) (s : state reg) : outcome reg :=
  match t with
  | Symbol name =>
      match c_function prefix name with
      | Some f =>
          if String.eqb f "_exit" then Terminated (arg0 s) false
          else if String.eqb f "exit" then Terminated (arg0 s) true
          else Transferred t s
      | None => Transferred t s
      end
  | Address _ => Transferred t s
  end.

(** ** x86-64 (AT&T operand order: source first, destination last) *)

Module X86_64.

Inductive reg :=
| rax | rbx | rcx | rdx | rsi | rdi | rbp | rsp
| r8 | r9 | r10 | r12 | r13 | r14 | r15
| rip | zf | mxcsr | fcw
| xmm6 | xmm7 | xmm8 | xmm9 | xmm10 | xmm11 | xmm12 | xmm13 | xmm14 | xmm15
| gs_base.

Definition reg_index (r : reg) : nat :=
  match r with
  | rax => 0 | rbx => 1 | rcx => 2 | rdx => 3 | rsi => 4 | rdi => 5
  | rbp => 6 | rsp => 7 | r8 => 8 | r9 => 9 | r10 => 10 | r12 => 12
  | r13 => 13 | r14 => 14 | r15 => 15 | rip => 16 | zf => 17
  | mxcsr => 18 | fcw => 19 | xmm6 => 26 | xmm7 => 27 | xmm8 => 28
  | xmm9 => 29 | xmm10 => 30 | xmm11 => 31 | xmm12 => 32 | xmm13 => 33
  | xmm14 => 34 | xmm15 => 35 | gs_base => 40
  end%nat.

Definition reg_eqb (a b : reg) : bool := Nat.eqb (reg_index a) (reg_index b).

Abbreviation st := (state reg).
Abbreviation ins := (@instr reg).
Abbreviation set := (assign reg_eqb).
Abbreviation put := (poke (reg:=reg) 64).
Abbreviation w64 := (wrap 64).

Definition zero_flag (s : st) : bool := rf s zf =? 1.

Definition pushq (r : reg) : ins := run
  [ put 8 (fun s => w64 (rf s rsp - 8)) (fun s => rf s r);
    set rsp (fun s => w64 (rf s rsp - 8)) ].
Definition push_imm (v : Z) : ins := run
  [ put 8 (fun s => w64 (rf s rsp - 8)) (fun _ => v);
    set rsp (fun s => w64 (rf s rsp - 8)) ].
Definition popq (r : reg) : ins := run
  [ set r (fun s => load 64 8 (rf s rsp) (mem s));
    set rsp (fun s => w64 (rf s rsp + 8)) ].
(** [leaq off(%base), %dst] *)
Definition leaq (off : Z) (base dst : reg) : ins :=
  set dst (fun s => w64 (rf s base + off)).
(** [lea (%base,%idx,1), %dst] *)
Definition leaq_idx (base idx dst : reg) : ins :=
  set dst (fun s => w64 (rf s base + rf s idx)).
(** [leaq label(%rip), %dst] *)
Definition leaq_label (label : Z) (dst : reg) : ins :=
  set dst (fun _ => w64 label).
Definition movq (src dst : reg) : ins := set dst (fun s => rf s src).
Definition movq_imm (imm : Z) (dst : reg) : ins := set dst (fun _ => w64 imm).
(** [movq %src, off(%base)] *)
Definition movq_st (src : reg) (off : Z) (base : reg) : ins :=
  put 8 (fun s => rf s base + off) (fun s => rf s src).
(** [movq off(%base), %dst]; [mov %gs:off, %dst] reads at [gs_base]. *)
Definition movq_ld (off : Z) (base dst : reg) : ins :=
  set dst (fun s => load 64 8 (rf s base + off) (mem s)).
Definition movq_gs (off : Z) (dst : reg) : ins := movq_ld off gs_base dst.
Definition cmpq_imm (imm : Z) (r : reg) : ins :=
  set zf (fun s => if w64 (rf s r - imm) =? 0 then 1 else 0).
Definition testq (a b : reg) : ins :=
  set zf (fun s => if Z.land (w64 (rf s a)) (w64 (rf s b)) =? 0 then 1 else 0).
Definition je (body : list ins) : ins := branch_over zero_flag body.
(** Arithmetic writes its destination and the zero flag. *)
Definition arith (f : st -> Z) (dst : reg) : ins := run
  [ set dst (fun s => w64 (f s));
    set zf (fun s => if rf s dst =? 0 then 1 else 0) ].
Definition andq_imm (imm : Z) (dst : reg) : ins :=
  arith (fun s => Z.land (w64 (rf s dst)) (w64 imm)) dst.
Definition andq (src dst : reg) : ins :=
  arith (fun s => Z.land (w64 (rf s dst)) (w64 (rf s src))) dst.
Definition subq_imm (imm : Z) (dst : reg) : ins :=
  arith (fun s => rf s dst - imm) dst.
Definition addq_imm (imm : Z) (dst : reg) : ins :=
  arith (fun s => rf s dst + imm) dst.
Definition negq (dst : reg) : ins := arith (fun s => - rf s dst) dst.
Definition xorq (src dst : reg) : ins :=
  arith (fun s => Z.lxor (w64 (rf s dst)) (w64 (rf s src))) dst.
Definition stmxcsr (off : Z) (base : reg) : ins :=
  put 4 (fun s => rf s base + off) (fun s => rf s mxcsr).
Definition fnstcw (off : Z) (base : reg) : ins :=
  put 2 (fun s => rf s base + off) (fun s => rf s fcw).
Definition ldmxcsr (off : Z) (base : reg) : ins :=
  set mxcsr (fun s => load 64 4 (rf s base + off) (mem s)).
Definition fldcw (off : Z) (base : reg) : ins :=
  set fcw (fun s => load 64 2 (rf s base + off) (mem s)).
(** [movaps %xmm, off(%base)] and [movaps off(%base), %xmm] *)
Definition movaps_st (x : reg) (off : Z) (base : reg) : ins :=
  put 16 (fun s => rf s base + off) (fun s => rf s x).
Definition movaps_ld (off : Z) (base x : reg) : ins :=
  set x (fun s => load 64 16 (rf s base + off) (mem s)).
Definition jmp_reg (r : reg) : ins := set rip (fun s => rf s r).
Definition ret : ins := run
  [ set rip (fun s => load 64 8 (rf s rsp) (mem s));
    set rsp (fun s => w64 (rf s rsp + 8)) ].
(** [call]: push the address of the next instruction, leave for the
    callee. *)
Definition call (prefix : string) (arg0 : st -> Z) (next : Z)
    (t : call_target) (s : st) : outcome reg :=
  libc_call prefix arg0 t (push_imm (w64 next) s).

(** [int status] travels in edi under the System V convention, in ecx
    under the Microsoft one. *)
Definition sysv_arg0 (s : st) : Z := wrap 32 (rf s rdi).
Definition ms_arg0 (s : st) : Z := wrap 32 (rf s rcx).

(** [bthread_jump_fcontext] of linux_x86_64 and of apple_x86_64 (the two
    blocks list the same instructions), in three stretches: the
    outgoing context is saved on its stack, its stack pointer is
    published in [*from_storage] and replaced by [to_context], the
    incoming context is reloaded. *)
Definition jump_save_sysv : list ins :=
  [ pushq rbp; pushq rbx; pushq r15; pushq r14; pushq r13; pushq r12;
    leaq (-0x8) rsp rsp;
    cmpq_imm 0 rcx;
    je [ stmxcsr 0 rsp; fnstcw 0x4 rsp ] ].
Definition jump_switch_sysv : list ins :=
  [ movq_st rsp 0 rdi;
    movq rsi rsp ].
Definition jump_restore_sysv : list ins :=
  [ cmpq_imm 0 rcx;
    je [ ldmxcsr 0 rsp; fldcw 0x4 rsp ];
    leaq 0x8 rsp rsp;
    popq r12; popq r13; popq r14; popq r15; popq rbx; popq rbp;
    popq r8;
    movq rdx rax;
    movq rdx rdi;
    jmp_reg r8 ].
Definition jump_sysv : ins :=
  run (jump_save_sysv ++ jump_switch_sysv ++ jump_restore_sysv).

End X86_64.

Module linux_x86_64.
Import X86_64.

Definition bthread_jump_fcontext : ins := jump_sysv.

Section Code.
(** Addresses of the [finish] label and of the [hlt] after its call. *)
Variables finish_addr hlt_addr : Z.

Definition bthread_make_fcontext : ins := run
  [ movq rdi rax;
    andq_imm (-16) rax;
    leaq (-0x48) rax rax;
    movq_st rdx 0x38 rax;
    stmxcsr 0 rax;
    fnstcw 0x4 rax;
    leaq_label finish_addr rcx;
    movq_st rcx 0x40 rax;
    ret ].

Definition finish (s : st) : outcome reg :=
  call "" sysv_arg0 hlt_addr (Symbol "_exit") (xorq rdi rdi s).
End Code.
End linux_x86_64.

Module apple_x86_64.
Import X86_64.

Definition bthread_jump_fcontext : ins := jump_sysv.

Section Code.
Variables finish_addr hlt_addr : Z.

Definition bthread_make_fcontext : ins := run
  [ movq rdi rax;
    movq_imm (-16) r8;
    andq r8 rax;
    leaq (-0x48) rax rax;
    movq_st rdx 0x38 rax;
    stmxcsr 0 rax;
    fnstcw 0x4 rax;
    leaq_label finish_addr rcx;
    movq_st rcx 0x40 rax;
    ret ].

Definition finish (s : st) : outcome reg :=
  call "_" sysv_arg0 hlt_addr (Symbol "__exit") (xorq rdi rdi s).
End Code.
End apple_x86_64.

Module windows_x86_64.
Import X86_64.

Definition jump_save : list ins :=
  [ pushq rbp; pushq rbx; pushq rsi; pushq rdi;
    pushq r15; pushq r14; pushq r13; pushq r12;
    movq_gs 0x30 r10;
    movq_ld 0x8 r10 rax; pushq rax;
    movq_ld 0x10 r10 rax; pushq rax;
    movq_ld 0x1478 r10 rax; pushq rax;
    movq_ld 0x18 r10 rax; pushq rax;
    leaq (-0xa8) rsp rsp;
    testq r9 r9;
    je [ stmxcsr 0xa0 rsp; fnstcw 0xa4 rsp;
         movaps_st xmm6 0 rsp; movaps_st xmm7 0x10 rsp;
         movaps_st xmm8 0x20 rsp; movaps_st xmm9 0x30 rsp;
         movaps_st xmm10 0x40 rsp; movaps_st xmm11 0x50 rsp;
         movaps_st xmm12 0x60 rsp; movaps_st xmm13 0x70 rsp;
         movaps_st xmm14 0x80 rsp; movaps_st xmm15 0x90 rsp ];
    xorq r10 r10;
    pushq r10 ].
Definition jump_switch : list ins :=
  [ movq_st rsp 0 rcx;
    movq rdx rsp ].
Definition jump_restore : list ins :=
  [ popq r10;
    testq r9 r9;
    je [ ldmxcsr 0xa0 rsp; fldcw 0xa4 rsp;
         movaps_ld 0 rsp xmm6; movaps_ld 0x10 rsp xmm7;
         movaps_ld 0x20 rsp xmm8; movaps_ld 0x30 rsp xmm9;
         movaps_ld 0x40 rsp xmm10; movaps_ld 0x50 rsp xmm11;
         movaps_ld 0x60 rsp xmm12; movaps_ld 0x70 rsp xmm13;
         movaps_ld 0x80 rsp xmm14; movaps_ld 0x90 rsp xmm15 ];
    movq_imm 0xa8 rcx;
    testq r10 r10;
    je [ addq_imm 0x8 rcx ];
    leaq_idx rsp rcx rsp;
    movq_gs 0x30 r10;
    popq rax; movq_st rax 0x18 r10;
    popq rax; movq_st rax 0x1478 r10;
    popq rax; movq_st rax 0x10 r10;
    popq rax; movq_st rax 0x8 r10;
    popq r12; popq r13; popq r14; popq r15;
    popq rdi; popq rsi; popq rbx; popq rbp;
    popq r10;
    movq r8 rax;
    movq r8 rcx;
    jmp_reg r10 ].
Definition bthread_jump_fcontext : ins :=
  run (jump_save ++ jump_switch ++ jump_restore).

Section Code.
Variables finish_addr hlt_addr : Z.

Definition bthread_make_fcontext : ins := run
  [ movq rcx rax;
    subq_imm 0x28 rax;
    andq_imm (-16) rax;
    subq_imm 0x128 rax;
    movq_st r8 0x118 rax;
    movq_st rcx 0xd0 rax;
    negq rdx;
    leaq_idx rcx rdx rcx;
    movq_st rcx 0xc8 rax;
    movq_st rcx 0xc0 rax;
    stmxcsr 0xa8 rax;
    fnstcw 0xac rax;
    leaq_label finish_addr rcx;
    movq_st rcx 0x120 rax;
    movq_imm 0x1 rcx;
    movq_st rcx 0 rax;
    ret ].

(** The call names the literal address 0x63, not a symbol. *)
Definition finish (s : st) : outcome reg :=
  call "" ms_arg0 hlt_addr (Address 0x63) (xorq rcx rcx s).
End Code.
End windows_x86_64.

(** ** i386 *)

Module I386.

Inductive reg :=
| eax | ebx | ecx | edx | esi | edi | ebp | esp
| eip | zf | mxcsr | fcw | fs_base.

Definition reg_index (r : reg) : nat :=
  match r with
  | eax => 0 | ebx => 1 | ecx => 2 | edx => 3 | esi => 4 | edi => 5
  | ebp => 6 | esp => 7 | eip => 8 | zf => 9 | mxcsr => 10 | fcw => 11
  | fs_base => 12
  end%nat.

Definition reg_eqb (a b : reg) : bool := Nat.eqb (reg_index a) (reg_index b).

Abbreviation st := (state reg).
Abbreviation ins := (@instr reg).
Abbreviation set := (assign reg_eqb).
Abbreviation put := (poke (reg:=reg) 32).
Abbreviation w32 := (wrap 32).

Definition zero_flag (s : st) : bool := rf s zf =? 1.

Definition pushl (r : reg) : ins := run
  [ put 4 (fun s => w32 (rf s esp - 4)) (fun s => rf s r);
    set esp (fun s => w32 (rf s esp - 4)) ].
Definition push_imm (v : Z) : ins := run
  [ put 4 (fun s => w32 (rf s esp - 4)) (fun _ => v);
    set esp (fun s => w32 (rf s esp - 4)) ].
Definition popl (r : reg) : ins := run
  [ set r (fun s => load 32 4 (rf s esp) (mem s));
    set esp (fun s => w32 (rf s esp + 4)) ].
(** [leal off(%base), %dst] *)
Definition leal (off : Z) (base dst : reg) : ins :=
  set dst (fun s => w32 (rf s base + off)).
(** [lea (%base,%idx,1), %dst] *)
Definition leal_idx (base idx dst : reg) : ins :=
  set dst (fun s => w32 (rf s base + rf s idx)).
Definition movl (src dst : reg) : ins := set dst (fun s => rf s src).
Definition movl_imm (imm : Z) (dst : reg) : ins := set dst (fun _ => w32 imm).
(** [movl %src, off(%base)] *)
Definition movl_st (src : reg) (off : Z) (base : reg) : ins :=
  put 4 (fun s => rf s base + off) (fun s => rf s src).
(** [movl off(%base), %dst]; [mov %fs:off, %dst] reads at [fs_base]. *)
Definition movl_ld (off : Z) (base dst : reg) : ins :=
  set dst (fun s => load 32 4 (rf s base + off) (mem s)).
Definition movl_fs (off : Z) (dst : reg) : ins := movl_ld off fs_base dst.
Definition testl (a b : reg) : ins :=
  set zf (fun s => if Z.land (w32 (rf s a)) (w32 (rf s b)) =? 0 then 1 else 0).
Definition je (body : list ins) : ins := branch_over zero_flag body.
(** Arithmetic writes its destination and the zero flag. *)
Definition arith (f : st -> Z) (dst : reg) : ins := run
  [ set dst (fun s => w32 (f s));
    set zf (fun s => if rf s dst =? 0 then 1 else 0) ].
Definition andl_imm (imm : Z) (dst : reg) : ins :=
  arith (fun s => Z.land (w32 (rf s dst)) (w32 imm)) dst.
Definition addl_imm (imm : Z) (dst : reg) : ins :=
  arith (fun s => rf s dst + imm) dst.
Definition negl (dst : reg) : ins := arith (fun s => - rf s dst) dst.
Definition incl (dst : reg) : ins := arith (fun s => rf s dst + 1) dst.
Definition decl (dst : reg) : ins := arith (fun s => rf s dst - 1) dst.
Definition xorl (src dst : reg) : ins :=
  arith (fun s => Z.lxor (w32 (rf s dst)) (w32 (rf s src))) dst.
Definition xchgl (a b : reg) : ins := fun s =>
  set a (fun _ => rf s b) (set b (fun _ => rf s a) s).
Definition stmxcsr (off : Z) (base : reg) : ins :=
  put 4 (fun s => rf s base + off) (fun s => rf s mxcsr).
Definition fnstcw (off : Z) (base : reg) : ins :=
  put 2 (fun s => rf s base + off) (fun s => rf s fcw).
Definition ldmxcsr (off : Z) (base : reg) : ins :=
  set mxcsr (fun s => load 32 4 (rf s base + off) (mem s)).
Definition fldcw (off : Z) (base : reg) : ins :=
  set fcw (fun s => load 32 2 (rf s base + off) (mem s)).
Definition jmp_reg (r : reg) : ins := set eip (fun s => rf s r).
Definition ret : ins := run
  [ set eip (fun s => load 32 4 (rf s esp) (mem s));
    set esp (fun s => w32 (rf s esp + 4)) ].
(** [call label] to the very next instruction: only the push remains. *)
Definition call_next (label : Z) : ins := push_imm (w32 label).
Definition call (prefix : string) (arg0 : st -> Z) (next : Z)
    (t : call_target) (s : st) : outcome reg :=
  libc_call prefix arg0 t (push_imm (w32 next) s).

(** cdecl: at the callee's first instruction the first argument lies
    just above the return address. *)
Definition cdecl_arg0 (s : st) : Z := load 32 4 (rf s esp + 4) (mem s).

(** [bthread_jump_fcontext] of linux_i386 and of apple_i386 (the two
    blocks list the same instructions), in the three stretches of
    [X86_64.jump_sysv]. *)
Definition jump_save_cdecl : list ins :=
  [ movl_ld 0x10 esp ecx;
    pushl ebp; pushl ebx; pushl esi; pushl edi;
    leal (-0x8) esp esp;
    testl ecx ecx;
    je [ stmxcsr 0 esp; fnstcw 0x4 esp ] ].
Definition jump_switch_cdecl : list ins :=
  [ movl_ld 0x1c esp eax;
    movl_st esp 0 eax;
    movl_ld 0x20 esp edx;
    movl_ld 0x24 esp eax;
    movl edx esp ].
Definition jump_restore_cdecl : list ins :=
  [ testl ecx ecx;
    je [ ldmxcsr 0 esp; fldcw 0x4 esp ];
    leal 0x8 esp esp;
    popl edi; popl esi; popl ebx; popl ebp;
    popl edx;
    movl_st eax 0x4 esp;
    jmp_reg edx ].
Definition jump_cdecl : ins :=
  run (jump_save_cdecl ++ jump_switch_cdecl ++ jump_restore_cdecl).

(** [bthread_make_fcontext] of linux_i386 and of apple_i386 up to its
    [ret]; [label1] is the local label [1:]. *)
Definition make_cdecl (label1 finish_addr : Z) : ins := run
  [ movl_ld 0x4 esp eax;
    leal (-0x8) eax eax;
    andl_imm (-16) eax;
    leal (-0x20) eax eax;
    movl_ld 0xc esp edx;
    movl_st edx 0x18 eax;
    stmxcsr 0 eax;
    fnstcw 0x4 eax;
    call_next label1;
    popl ecx;
    addl_imm (finish_addr - label1) ecx;
    movl_st ecx 0x1c eax;
    ret ].

End I386.

Module linux_i386.
Import I386.

Definition bthread_jump_fcontext : ins := jump_cdecl.

Section Code.
(** [label1], [label2]: the local labels [1:] and [2:]; [got_addr]:
    the global offset table. *)
Variables label1 finish_addr label2 got_addr hlt_addr : Z.

Definition bthread_make_fcontext : ins := make_cdecl label1 finish_addr.

Definition finish (s : st) : outcome reg :=
  call "" cdecl_arg0 hlt_addr (Symbol "_exit")
    (run [ call_next label2;
           popl ebx;
           addl_imm (got_addr - label2) ebx;
           xorl eax eax;
           movl_st eax 0 esp ] s).
End Code.
End linux_i386.

Module apple_i386.
Import I386.

Definition bthread_jump_fcontext : ins := jump_cdecl.

Section Code.
Variables label1 finish_addr hlt_addr : Z.

Definition bthread_make_fcontext : ins := make_cdecl label1 finish_addr.

Definition finish (s : st) : outcome reg :=
  call "_" cdecl_arg0 hlt_addr (Symbol "__exit")
    (run [ xorl eax eax; movl_st eax 0 esp ] s).
End Code.
End apple_i386.

Module windows_i386.
Import I386.

Definition jump_save : list ins :=
  [ movl_ld 0x10 esp ecx;
    pushl ebp; pushl ebx; pushl esi; pushl edi;
    movl_fs 0x18 edx;
    movl_ld 0 edx eax; pushl eax;
    movl_ld 0x4 edx eax; pushl eax;
    movl_ld 0x8 edx eax; pushl eax;
    movl_ld 0xe0c edx eax; pushl eax;
    movl_ld 0x10 edx eax; pushl eax;
    leal (-0x8) esp esp;
    testl ecx ecx;
    je [ stmxcsr 0 esp; fnstcw 0x4 esp ] ].
Definition jump_switch : list ins :=
  [ movl_ld 0x30 esp eax;
    movl_st esp 0 eax;
    movl_ld 0x34 esp edx;
    movl_ld 0x38 esp eax;
    movl edx esp ].
Definition jump_restore : list ins :=
  [ testl ecx ecx;
    je [ ldmxcsr 0 esp; fldcw 0x4 esp ];
    leal 0x8 esp esp;
    movl_fs 0x18 edx;
    popl ecx; movl_st ecx 0x10 edx;
    popl ecx; movl_st ecx 0xe0c edx;
    popl ecx; movl_st ecx 0x8 edx;
    popl ecx; movl_st ecx 0x4 edx;
    popl ecx; movl_st ecx 0 edx;
    popl edi; popl esi; popl ebx; popl ebp;
    popl edx;
    movl_st eax 0x4 esp;
    jmp_reg edx ].
Definition bthread_jump_fcontext : ins :=
  run (jump_save ++ jump_switch ++ jump_restore).

Section Code.
Variables finish_addr hlt_addr : Z.

(** The loop at [walk:] follows the exception-handler chain from
    [%fs:0] to the record whose link is 0xffffffff; [fuel] bounds the
    number of records visited. *)
Fixpoint walk (fuel : nat) (s : st) : option st :=
  match fuel with
  | O => None
  | S fuel' =>
      let s1 := run [ movl_ld 0 ecx edx; incl edx ] s in
      if zero_flag s1 then Some s1
      else walk fuel' (run [ decl edx; xchgl edx ecx ] s1)
  end.

Definition bthread_make_fcontext (fuel : nat) (s : st) : option st :=
  match
    walk fuel
      (run [ movl_ld 0x4 esp eax;
             leal (-0x8) eax eax;
             andl_imm 0xfffffff0 eax;
             leal (-0x3c) eax eax;
             movl_ld 0x4 esp ecx;
             movl_st ecx 0x14 eax;
             movl_ld 0x8 esp edx;
             negl edx;
             leal_idx ecx edx ecx;
             movl_st ecx 0x10 eax;
             movl_st ecx 0xc eax;
             movl_ld 0xc esp ecx;
             movl_st ecx 0x2c eax;
             stmxcsr 0 eax;
             fnstcw 0x4 eax;
             movl_imm finish_addr ecx;
             movl_st ecx 0x30 eax;
             movl_fs 0 ecx ] s)
  with
  | None => None
  | Some found =>
      Some (run [ movl_ld 0x4 ecx ecx;
                  movl_st ecx 0x3c eax;
                  movl_imm 0xffffffff ecx;
                  movl_st ecx 0x38 eax;
                  leal 0x38 eax ecx;
                  movl_st ecx 0x18 eax;
                  ret ] found)
  end.

(** The call names the symbol [_exit]; with this platform's leading
    underscore on C symbols that is the C function [exit]. *)
Definition finish (s : st) : outcome reg :=
  call "_" cdecl_arg0 hlt_addr (Symbol "_exit")
    (run [ xorl eax eax; movl_st eax 0 esp ] s).
End Code.
End windows_i386.

(** ** 32-bit ARM (AAPCS names: a1-a4 = r0-r3, v1-v8 = r4-r11) *)

Module ARM32.

Inductive reg :=
| a1 | a2 | a3 | a4
| v1 | v2 | v3 | v4 | v5 | v6 | v7 | v8
| sp | lr | pc | zf
| d8 | d9 | d10 | d11 | d12 | d13 | d14 | d15
| fpscr.

Definition reg_index (r : reg) : nat :=
  match r with
  | a1 => 0 | a2 => 1 | a3 => 2 | a4 => 3
  | v1 => 4 | v2 => 5 | v3 => 6 | v4 => 7 | v5 => 8 | v6 => 9 | v7 => 10
  | v8 => 11 | sp => 13 | lr => 14 | pc => 15 | zf => 16
  | d8 => 28 | d9 => 29 | d10 => 30 | d11 => 31 | d12 => 32 | d13 => 33
  | d14 => 34 | d15 => 35 | fpscr => 40
  end%nat.

Definition reg_eqb (a b : reg) : bool := Nat.eqb (reg_index a) (reg_index b).

Abbreviation st := (state reg).
Abbreviation ins := (@instr reg).
Abbreviation set := (assign reg_eqb).
Abbreviation put := (poke (reg:=reg) 32).
Abbreviation w32 := (wrap 32).

Definition zero_flag (s : st) : bool := rf s zf =? 1.

(** Stores of [regs], [size] bytes each, at [base + off], ascending. *)
Fixpoint stores (size : nat) (base : st -> Z) (off : Z) (regs : list reg)
  : list ins :=
  match regs with
  | [] => []
  | r :: rest =>
      put size (fun s => base s + off) (fun s => rf s r)
        :: stores size base (off + Z.of_nat size) rest
  end.

(** Loads of [regs], [size] bytes each, from [base + off], ascending. *)
Fixpoint loads (size : nat) (base : reg) (off : Z) (regs : list reg)
  : list ins :=
  match regs with
  | [] => []
  | r :: rest =>
      set r (fun s => load 32 size (rf s base + off) (mem s))
        :: loads size base (off + Z.of_nat size) rest
  end.

(** [push {regs}]: the stack pointer drops by four bytes per register,
    the lowest-numbered register lands at the lowest address. *)
Definition push (regs : list reg) : ins :=
  let n := 4 * Z.of_nat (List.length regs) in
  run (stores 4 (fun s => w32 (rf s sp - n)) 0 regs
       ++ [ set sp (fun s => w32 (rf s sp - n)) ]).
Definition pop (regs : list reg) : ins :=
  let n := 4 * Z.of_nat (List.length regs) in
  run (loads 4 sp 0 regs ++ [ set sp (fun s => w32 (rf s sp + n)) ]).
(** [vstmia base, {regs}] and [vldmia base, {regs}], no write-back. *)
Definition vstmia (base : reg) (regs : list reg) : ins :=
  run (stores 8 (fun s => rf s base) 0 regs).
Definition vldmia (base : reg) (regs : list reg) : ins :=
  run (loads 8 base 0 regs).
(** [sub dst, src, #imm] and [add dst, src, #imm] *)
Definition sub_imm (dst src : reg) (imm : Z) : ins :=
  set dst (fun s => w32 (rf s src - imm)).
Definition add_imm (dst src : reg) (imm : Z) : ins :=
  set dst (fun s => w32 (rf s src + imm)).
(** [bic dst, src, #imm] *)
Definition bic_imm (dst src : reg) (imm : Z) : ins :=
  set dst (fun s => Z.land (w32 (rf s src)) (w32 (Z.lnot imm))).
Definition mov (dst src : reg) : ins := set dst (fun s => rf s src).
Definition mov_imm (dst : reg) (imm : Z) : ins := set dst (fun _ => w32 imm).
Definition adr (dst : reg) (label : Z) : ins := set dst (fun _ => w32 label).
(** [str src, [base, #off]] *)
Definition str (src base : reg) (off : Z) : ins :=
  put 4 (fun s => rf s base + off) (fun s => rf s src).
Definition cmp_imm (r : reg) (imm : Z) : ins :=
  set zf (fun s => if w32 (rf s r - imm) =? 0 then 1 else 0).
Definition beq (body : list ins) : ins := branch_over zero_flag body.
Definition bx (r : reg) : ins := set pc (fun s => rf s r).
(** [bl]: the link register receives the address of the next
    instruction. *)
Definition bl (prefix : string) (arg0 : st -> Z) (next : Z)
    (t : call_target) (s : st) : outcome reg :=
  libc_call prefix arg0 t (set lr (fun _ => w32 next) s).

Definition aapcs_arg0 (s : st) : Z := w32 (rf s a1).

End ARM32.

Module linux_arm32.
Import ARM32.

Definition jump_save : list ins :=
  [ push [lr];
    push [v1; v2; v3; v4; v5; v6; v7; v8; lr];
    sub_imm sp sp 64;
    cmp_imm a4 0;
    beq [ vstmia sp [d8; d9; d10; d11; d12; d13; d14; d15] ] ].
Definition jump_switch : list ins :=
  [ str sp a1 0;
    mov sp a2 ].
Definition jump_restore : list ins :=
  [ cmp_imm a4 0;
    beq [ vldmia sp [d8; d9; d10; d11; d12; d13; d14; d15] ];
    add_imm sp sp 64;
    mov a1 a3;
    pop [v1; v2; v3; v4; v5; v6; v7; v8; lr];
    pop [pc] ].
Definition bthread_jump_fcontext : ins :=
  run (jump_save ++ jump_switch ++ jump_restore).

Section Code.
(** [next_addr]: the address after the [bl]. *)
Variables finish_addr next_addr : Z.

Definition bthread_make_fcontext : ins := run
  [ bic_imm a1 a1 15;
    sub_imm a1 a1 104;
    str a3 a1 100;
    adr a2 finish_addr;
    str a2 a1 96;
    bx lr ].

Definition finish (s : st) : outcome reg :=
  bl "" aapcs_arg0 next_addr (Symbol "_exit") (mov_imm a1 0 s).
End Code.
End linux_arm32.

(** ** 64-bit ARM *)

Module ARM64.

Inductive reg :=
| x0 | x1 | x2 | x3 | x4
| x19 | x20 | x21 | x22 | x23 | x24 | x25 | x26 | x27 | x28 | x29 | x30
| sp | pc
| d8 | d9 | d10 | d11 | d12 | d13 | d14 | d15
| fpcr.

Definition reg_index (r : reg) : nat :=
  match r with
  | x0 => 0 | x1 => 1 | x2 => 2 | x3 => 3 | x4 => 4
  | x19 => 19 | x20 => 20 | x21 => 21 | x22 => 22 | x23 => 23 | x24 => 24
  | x25 => 25 | x26 => 26 | x27 => 27 | x28 => 28 | x29 => 29 | x30 => 30
  | sp => 31 | pc => 32
  | d8 => 48 | d9 => 49 | d10 => 50 | d11 => 51 | d12 => 52 | d13 => 53
  | d14 => 54 | d15 => 55 | fpcr => 60
  end%nat.

Definition reg_eqb (a b : reg) : bool := Nat.eqb (reg_index a) (reg_index b).

Abbreviation st := (state reg).
Abbreviation ins := (@instr reg).
Abbreviation set := (assign reg_eqb).
Abbreviation put := (poke (reg:=reg) 64).
Abbreviation w64 := (wrap 64).

Definition sub_imm (dst src : reg) (imm : Z) : ins :=
  set dst (fun s => w64 (rf s src - imm)).
Definition add_imm (dst src : reg) (imm : Z) : ins :=
  set dst (fun s => w64 (rf s src + imm)).
(** [and dst, src, #imm] *)
Definition and_imm (dst src : reg) (imm : Z) : ins :=
  set dst (fun s => Z.land (w64 (rf s src)) (w64 imm)).
Definition mov (dst src : reg) : ins := set dst (fun s => rf s src).
Definition mov_imm (dst : reg) (imm : Z) : ins := set dst (fun _ => w64 imm).
Definition adr (dst : reg) (label : Z) : ins := set dst (fun _ => w64 label).
(** [stp a, b, [base, #off]] and [ldp a, b, [base, #off]] *)
Definition stp (a b base : reg) (off : Z) : ins := run
  [ put 8 (fun s => rf s base + off) (fun s => rf s a);
    put 8 (fun s => rf s base + off + 8) (fun s => rf s b) ].
Definition ldp (a b base : reg) (off : Z) : ins := run
  [ set a (fun s => load 64 8 (rf s base + off) (mem s));
    set b (fun s => load 64 8 (rf s base + off + 8) (mem s)) ].
(** [str src, [base, #off]] and [ldr dst, [base, #off]] *)
Definition str (src base : reg) (off : Z) : ins :=
  put 8 (fun s => rf s base + off) (fun s => rf s src).
Definition ldr (dst base : reg) (off : Z) : ins :=
  set dst (fun s => load 64 8 (rf s base + off) (mem s)).
Definition ret (r : reg) : ins := set pc (fun s => rf s r).
Definition bl (prefix : string) (arg0 : st -> Z) (next : Z)
    (t : call_target) (s : st) : outcome reg :=
  libc_call prefix arg0 t (set x30 (fun _ => w64 next) s).

(** [int status] is w0, the low half of x0. *)
Definition aapcs64_arg0 (s : st) : Z := wrap 32 (rf s x0).

End ARM64.

Module linux_arm64.
Import ARM64.

(** The two tests of w3 are commented out in the source: nothing here
    reads x3. *)
Definition jump_save : list ins :=
  [ sub_imm sp sp 0xb0;
    stp d8 d9 sp 0x00;
    stp d10 d11 sp 0x10;
    stp d12 d13 sp 0x20;
    stp d14 d15 sp 0x30;
    stp x19 x20 sp 0x40;
    stp x21 x22 sp 0x50;
    stp x23 x24 sp 0x60;
    stp x25 x26 sp 0x70;
    stp x27 x28 sp 0x80;
    stp x29 x30 sp 0x90;
    str x30 sp 0xa0 ].
Definition jump_switch : list ins :=
  [ mov x4 sp;
    str x4 x0 0;
    mov sp x1 ].
Definition jump_restore : list ins :=
  [ ldp d8 d9 sp 0x00;
    ldp d10 d11 sp 0x10;
    ldp d12 d13 sp 0x20;
    ldp d14 d15 sp 0x30;
    ldp x19 x20 sp 0x40;
    ldp x21 x22 sp 0x50;
    ldp x23 x24 sp 0x60;
    ldp x25 x26 sp 0x70;
    ldp x27 x28 sp 0x80;
    ldp x29 x30 sp 0x90;
    mov x0 x2;
    ldr x4 sp 0xa0;
    add_imm sp sp 0xb0;
    ret x4 ].
Definition bthread_jump_fcontext : ins :=
  run (jump_save ++ jump_switch ++ jump_restore).

Section Code.
Variables finish_addr next_addr : Z.

Definition bthread_make_fcontext : ins := run
  [ and_imm x0 x0 (Z.lnot 0xF);
    sub_imm x0 x0 0xb0;
    str x2 x0 0xa0;
    adr x1 finish_addr;
    str x1 x0 0x98;
    ret x30 ].

Definition finish (s : st) : outcome reg :=
  bl "" aapcs64_arg0 next_addr (Symbol "_exit") (mov_imm x0 0 s).
End Code.
End linux_arm64.

(** ** brpc::SocketMessage and its owning pointers *)

Module brpc.

(** butil::IOBuf, the bytes appended so far; butil::Status; a Socket
    named by its identity. *)
Definition IOBuf := list Z.
Inductive Status :=
| OK
| Error (code : Z) (text : string).
Definition Socket := Z.
Definition size_t := N.

(** The interface [class SocketMessage]: a class [T] deriving from it
    supplies the pure virtual [AppendAndDestroySelf] and may override
    [EstimatedByteSize].  [out] is passed by pointer: the method
    returns the buffer as it leaves it.

    Both are virtual members called on [this].  The body of
    [AppendAndDestroySelf] can therefore call [EstimatedByteSize] on
    its own object, and the call is dispatched to the object's dynamic
    class: the body is handed that member as its first argument.
    [EstimatedByteSize] is not declared [const]: it returns its
    result together with the data members as it leaves them. *)
Class SocketMessage (T : Type) := {
  AppendAndDestroySelf :
    (T -> size_t * T) -> T -> IOBuf -> option Socket -> Status * IOBuf;
  EstimatedByteSize : T -> size_t * T
}.

(** [virtual size_t EstimatedByteSize() { return 0; }] *)
Definition EstimatedByteSize_default {T : Type} (self : T) : size_t * T :=
  (0%N, self).

(** An object on the heap: its dynamic class and its data members. *)
Record object := Object {
  dyn_type : Type;
  dyn_class : SocketMessage dyn_type;
  fields : dyn_type
}.

(** [SocketMessage*]: null or the address of an object. *)
Definition pointer := option nat.
Definition null : pointer := None.

(** What an instrumented run records: every virtual call made from
    outside the object (a method calling its own object's other
    member is part of that method's body). *)
Inductive event :=
| Call_AppendAndDestroySelf (msg : nat) (out : IOBuf) (sock : option Socket)
| Call_EstimatedByteSize (msg : nat).

Record world := World {
  heap : nat -> option object;
  trace : list event
}.

Definition free (p : nat) (h : nat -> option object) : nat -> option object :=
  fun q => if Nat.eqb q p then None else h q.

(** [msg->AppendAndDestroySelf(out, sock)] through the vtable.  The
    call is undefined ([None]) on a null or dangling pointer; the
    object destroys itself at the end of the method, as the header
    requires of every implementation. *)
Definition call_AppendAndDestroySelf (msg : pointer) (out : IOBuf)
    (sock : option Socket) (w : world) : option (Status * IOBuf * world) :=
  match msg with
  | None => None
  | Some p =>
      match heap w p with
      | None => None
      | Some o =>
          let (status, out') :=
            @AppendAndDestroySelf _ (dyn_class o)
              (@EstimatedByteSize _ (dyn_class o)) (fields o) out sock in
          Some (status, out',
                World (free p (heap w))
                      (trace w ++ [Call_AppendAndDestroySelf p out sock]))
      end
  end.

Definition put (p : nat) (o : object) (h : nat -> option object)
  : nat -> option object :=
  fun q => if Nat.eqb q p then Some o else h q.


Module details.
(** [SocketMessageDeleter::operator()]: a fresh [dummy_buf], one call
    with a null socket, the returned status cast to void. *)
Definition SocketMessageDeleter (msg : pointer) (w : world) : option world :=
  let dummy_buf : IOBuf := [] in
  match call_AppendAndDestroySelf msg dummy_buf None w with
  | Some (_, _, w') => Some w'
  | None => None
  end.
End details.

(** [std::unique_ptr<SocketMessage, details::SocketMessageDeleter>] as
    the C++ standard defines it: the destructor and [reset] run the
    deleter on the old pointer only when that pointer is not null,
    [release] and a move leave the source null. *)
Record unique_ptr := Owner { get : pointer }.

Definition unique_ptr_destroy (u : unique_ptr) (w : world) : option world :=
  match get u with
  | None => Some w
  | Some p => details.SocketMessageDeleter (Some p) w
  end.

Definition unique_ptr_reset (u : unique_ptr) (p : pointer) (w : world)
  : option (unique_ptr * world) :=
  match get u with
  | None => Some (Owner p, w)
  | Some old =>
      match details.SocketMessageDeleter (Some old) w with
      | Some w' => Some (Owner p, w')
      | None => None
      end
  end.

Definition unique_ptr_release (u : unique_ptr) : pointer * unique_ptr :=
  (get u, Owner null).

(** Move construction: the new owner, and what is left of the source. *)
Definition unique_ptr_move (u : unique_ptr) : unique_ptr * unique_ptr :=
  (Owner (get u), Owner null).

(** [SocketMessagePtr<void>]: the unique_ptr itself, with its two
    constructors. *)
Definition SocketMessagePtr_void := unique_ptr.
Definition SocketMessagePtr_void_default : SocketMessagePtr_void := Owner null.
Definition SocketMessagePtr_void_from (p : pointer) : SocketMessagePtr_void :=
  Owner p.

(** [T*] for a message class [T]: the same address seen at static type
    [T]; [static_cast] between [T*] and [SocketMessage*] keeps the
    address. *)
Record pointer_to (T : Type) := Typed { untyped : pointer }.
Arguments Typed {T} _.
Arguments untyped {T} _.
Definition static_cast (T : Type) (p : pointer) : pointer_to T := Typed p.

(** [SocketMessagePtr<T>]: derives from [SocketMessagePtr<>] and adds no
    member; [as_void] is the derived-to-base conversion. *)
Record SocketMessagePtr (T : Type) := Derived { as_void : SocketMessagePtr_void }.
Arguments Derived {T} _.
Arguments as_void {T} _.

Definition SocketMessagePtr_default (T : Type) : SocketMessagePtr T :=
  Derived SocketMessagePtr_void_default.
Definition SocketMessagePtr_from {T : Type} (p : pointer_to T)
  : SocketMessagePtr T :=
  Derived (SocketMessagePtr_void_from (untyped p)).
(** [operator->] and [operator*]: the stored pointer at type [T]; the
    two differ only in yielding [T*] or [T&]. *)
Definition arrow {T : Type} (u : SocketMessagePtr T) : pointer_to T :=
  static_cast T (get (as_void u)).
Definition deref {T : Type} (u : SocketMessagePtr T) : pointer_to T :=
  static_cast T (get (as_void u)).
Definition release {T : Type} (u : SocketMessagePtr T)
  : pointer_to T * SocketMessagePtr T :=
  let (p, rest) := unique_ptr_release (as_void u) in
  (static_cast T p, Derived rest).
(** Handing a [SocketMessagePtr<T>] over where a [SocketMessagePtr<>] is
    taken by move. *)
Definition move_as_void {T : Type} (u : SocketMessagePtr T)
  : SocketMessagePtr_void * SocketMessagePtr T :=
  let (q, rest) := unique_ptr_move (as_void u) in (q, Derived rest).

(** The number of [AppendAndDestroySelf] calls on [p] in a trace. *)
Definition is_call_on (p : nat) (e : event) : bool :=
  match e with
  | Call_AppendAndDestroySelf q _ _ => Nat.eqb q p
  | Call_EstimatedByteSize _ => false
  end.
Definition calls_on (p : nat) (t : list event) : nat :=
  List.length (filter (is_call_on p) t).

End brpc.

(** ** The eight platform blocks of context.cpp side by side *)

Inductive platform :=
| PLATFORM_windows_i386
| PLATFORM_windows_x86_64
| PLATFORM_linux_i386
| PLATFORM_linux_x86_64
| PLATFORM_apple_x86_64
| PLATFORM_apple_i386
| PLATFORM_linux_arm32
| PLATFORM_linux_arm64.

Definition all_platforms : list platform :=
  [ PLATFORM_windows_i386; PLATFORM_windows_x86_64; PLATFORM_linux_i386;
    PLATFORM_linux_x86_64; PLATFORM_apple_x86_64; PLATFORM_apple_i386;
    PLATFORM_linux_arm32; PLATFORM_linux_arm64 ].

(** One [bthread_jump_fcontext]: its machine, its three stretches, the
    stack pointer, the [preserve_fpu] argument as the routine receives it
    (a register, or a stack slot under cdecl), the register that holds it
    while the routine runs, and the floating-point state its instructions
    name: register, size in bytes, offset in a saved context. *)
Record switch := Switch {
  sw_reg : Type;
  sw_eqb : sw_reg -> sw_reg -> bool;
  sw_bits : Z;
  sw_save : list (@instr sw_reg);
  sw_switch : list (@instr sw_reg);
  sw_restore : list (@instr sw_reg);
  sw_sp : sw_reg;
  sw_flag : state sw_reg -> Z;
  sw_flag_reg : sw_reg;
  sw_fp : list (sw_reg * (nat * Z))
}.

Definition jump (W : switch) : @instr (sw_reg W) :=
  run (sw_save W ++ sw_switch W ++ sw_restore W).

Definition sysv_switch : switch :=
  Switch X86_64.reg X86_64.reg_eqb 64
    X86_64.jump_save_sysv X86_64.jump_switch_sysv X86_64.jump_restore_sysv
    X86_64.rsp (fun s => rf s X86_64.rcx) X86_64.rcx
    [ (X86_64.mxcsr, (4%nat, 0)); (X86_64.fcw, (2%nat, 0x4)) ].

Definition windows_x86_64_switch : switch :=
  Switch X86_64.reg X86_64.reg_eqb 64
    windows_x86_64.jump_save windows_x86_64.jump_switch
    windows_x86_64.jump_restore
    X86_64.rsp (fun s => rf s X86_64.r9) X86_64.r9
    [ (X86_64.mxcsr, (4%nat, 0xa8)); (X86_64.fcw, (2%nat, 0xac));
      (X86_64.xmm6, (16%nat, 0x8)); (X86_64.xmm7, (16%nat, 0x18));
      (X86_64.xmm8, (16%nat, 0x28)); (X86_64.xmm9, (16%nat, 0x38));
      (X86_64.xmm10, (16%nat, 0x48)); (X86_64.xmm11, (16%nat, 0x58));
      (X86_64.xmm12, (16%nat, 0x68)); (X86_64.xmm13, (16%nat, 0x78));
      (X86_64.xmm14, (16%nat, 0x88)); (X86_64.xmm15, (16%nat, 0x98)) ].

Definition cdecl_switch : switch :=
  Switch I386.reg I386.reg_eqb 32
    I386.jump_save_cdecl I386.jump_switch_cdecl I386.jump_restore_cdecl
    I386.esp (fun s => load 32 4 (rf s I386.esp + 0x10) (mem s)) I386.ecx
    [ (I386.mxcsr, (4%nat, 0)); (I386.fcw, (2%nat, 0x4)) ].

Definition windows_i386_switch : switch :=
  Switch I386.reg I386.reg_eqb 32
    windows_i386.jump_save windows_i386.jump_switch windows_i386.jump_restore
    I386.esp (fun s => load 32 4 (rf s I386.esp + 0x10) (mem s)) I386.ecx
    [ (I386.mxcsr, (4%nat, 0)); (I386.fcw, (2%nat, 0x4)) ].

Definition linux_arm32_switch : switch :=
  Switch ARM32.reg ARM32.reg_eqb 32
    linux_arm32.jump_save linux_arm32.jump_switch linux_arm32.jump_restore
    ARM32.sp (fun s => rf s ARM32.a4) ARM32.a4
    [ (ARM32.d8, (8%nat, 0)); (ARM32.d9, (8%nat, 8));
      (ARM32.d10, (8%nat, 16)); (ARM32.d11, (8%nat, 24));
      (ARM32.d12, (8%nat, 32)); (ARM32.d13, (8%nat, 40));
      (ARM32.d14, (8%nat, 48)); (ARM32.d15, (8%nat, 56)) ].

Definition linux_arm64_switch : switch :=
  Switch ARM64.reg ARM64.reg_eqb 64
    linux_arm64.jump_save linux_arm64.jump_switch linux_arm64.jump_restore
    ARM64.sp (fun s => rf s ARM64.x3) ARM64.x3
    [ (ARM64.d8, (8%nat, 0)); (ARM64.d9, (8%nat, 8));
      (ARM64.d10, (8%nat, 16)); (ARM64.d11, (8%nat, 24));
      (ARM64.d12, (8%nat, 32)); (ARM64.d13, (8%nat, 40));
      (ARM64.d14, (8%nat, 48)); (ARM64.d15, (8%nat, 56)) ].

Definition switch_of (p : platform) : switch :=
  match p with
  | PLATFORM_windows_i386 => windows_i386_switch
  | PLATFORM_windows_x86_64 => windows_x86_64_switch
  | PLATFORM_linux_i386 => cdecl_switch
  | PLATFORM_linux_x86_64 => sysv_switch
  | PLATFORM_apple_x86_64 => sysv_switch
  | PLATFORM_apple_i386 => cdecl_switch
  | PLATFORM_linux_arm32 => linux_arm32_switch
  | PLATFORM_linux_arm64 => linux_arm64_switch
  end.

Section FloatingPoint.
Variable W : switch.
Let st := state (sw_reg W).

(** [preserve_fpu] is true. *)
Definition preserve (s : st) : bool :=
  negb (wrap (sw_bits W) (sw_flag W s) =? 0).

(** The outgoing side has put the register's value into the context it
    leaves behind. *)
Definition saved_one (s : st) (f : sw_reg W * (nat * Z)) : Prop :=
  let '(r, (n, off)) := f in
  let out := run (sw_save W) s in
  load (sw_bits W) n (rf out (sw_sp W) + off) (mem out)
  = rf s r mod 256 ^ Z.of_nat n.

(** The incoming side has set the register from the context it
    enters, as memory stood at the switch of stacks. *)
Definition reloaded_one (s : st) (f : sw_reg W * (nat * Z)) : Prop :=
  let '(r, (n, off)) := f in
  let mid := run (sw_save W ++ sw_switch W) s in
  rf (jump W s) r = load (sw_bits W) n (rf mid (sw_sp W) + off) (mem mid).

(** The register crosses the switch unchanged. *)
Definition kept_one (s : st) (f : sw_reg W * (nat * Z)) : Prop :=
  rf (jump W s) (fst f) = rf s (fst f).

(** No byte of memory the outgoing side leaves behind depends on the
    register. *)
Definition unstored_one (s : st) (f : sw_reg W * (nat * Z)) : Prop :=
  forall v x,
    mem (run (sw_save W ++ sw_switch W) (setr (sw_eqb W) (fst f) v s)) x
    = mem (run (sw_save W ++ sw_switch W) s) x.

Definition fp_saved_and_restored (s : st) : Prop :=
  Forall (saved_one s) (sw_fp W) /\ Forall (reloaded_one s) (sw_fp W).

Definition fp_untouched (s : st) : Prop :=
  Forall (kept_one s) (sw_fp W) /\ Forall (unstored_one s) (sw_fp W).

(** The flag decides. *)
Definition fp_gated : Prop :=
  forall s, if preserve s then fp_saved_and_restored s else fp_untouched s.

(** The flag is ignored. *)
Definition fp_always : Prop :=
  forall s, fp_saved_and_restored s.
End FloatingPoint.

(** ** Offsets from one base *)

(** Byte ranges at offsets [c] and [c'] from one base, [n] and [k] bytes
    long, compared without wrap-around. *)
Definition apart (c n c' k : Z) : bool :=
  (0 <? n) && (0 <? k) &&
  (((c + n <=? c') && (c' + k - c <=? 2 ^ 32))
   || ((c' + k <=? c) && (c + n - c' <=? 2 ^ 32))).

(** The range at offset [c], [n] bytes long, lies inside the one at
    offset [lo], [len] bytes long. *)
Definition inside (c n lo len : Z) : bool :=
  (lo <=? c) && (c + n <=? lo + len).

(** ** The [finish] trampolines side by side *)

(** How [finish] ends, whatever the machine: the process exits, or
    control leaves for a target this file does not contain. *)
Inductive ending :=
| Exits (status : Z) (cleanup_ran : bool)
| Leaves (t : call_target).

Definition ending_of {reg : Type} (o : outcome reg) : ending :=
  match o with
  | Terminated status cleanup_ran => Exits status cleanup_ran
  | Transferred t _ => Leaves t
  end.

(** [finish] of platform [p] ends in [e] from every state, wherever the
    code is loaded. *)
Definition finish_ends (p : platform) (e : ending) : Prop :=
  match p with
  | PLATFORM_windows_i386 =>
      forall hlt s, ending_of (windows_i386.finish hlt s) = e
  | PLATFORM_windows_x86_64 =>
      forall hlt s, ending_of (windows_x86_64.finish hlt s) = e
  | PLATFORM_linux_i386 =>
      forall label2 got hlt s,
        ending_of (linux_i386.finish label2 got hlt s) = e
  | PLATFORM_linux_x86_64 =>
      forall hlt s, ending_of (linux_x86_64.finish hlt s) = e
  | PLATFORM_apple_x86_64 =>
      forall hlt s, ending_of (apple_x86_64.finish hlt s) = e
  | PLATFORM_apple_i386 =>
      forall hlt s, ending_of (apple_i386.finish hlt s) = e
  | PLATFORM_linux_arm32 =>
      forall next s, ending_of (linux_arm32.finish next s) = e
  | PLATFORM_linux_arm64 =>
      forall next s, ending_of (linux_arm64.finish next s) = e
  end.

(** What the [finish] of each block does. *)
Definition finish_ending (p : platform) : ending :=
  match p with
  | PLATFORM_windows_i386 => Exits 0 true
  | PLATFORM_windows_x86_64 => Leaves (Address 0x63)
  | _ => Exits 0 false
  end.

(** The slots of a saved context under the System V x86-64 convention:
    what [bthread_jump_fcontext] pops, and from which offset. *)
Definition sysv_saved : list (X86_64.reg * Z) :=
  [ (X86_64.r12, 0x8); (X86_64.r13, 0x10); (X86_64.r14, 0x18);
    (X86_64.r15, 0x20); (X86_64.rbx, 0x28); (X86_64.rbp, 0x30) ].
(** The return address lies above them. *)
Definition sysv_return_slot : Z := 0x38.
Definition sysv_context_size : Z := 0x40.

(** The [size] bytes at [ctx] read the same in [m'] as in [m]. *)
Definition intact (bits ctx size : Z) (m m' : memory) : Prop :=
  forall i, 0 <= i < size -> m' (wrap bits (ctx + i)) = m (wrap bits (ctx + i)).

(** ** Sample states *)

(** A context about to jump away: stack at 0x8000, [from_storage] at
    0x100, target context at 0x9000, [preserve_fpu] set. *)
Definition sysv_sample_a : X86_64.st :=
  mkState (fun r => match r with
                    | X86_64.rsp => 0x8000 | X86_64.rdi => 0x100
                    | X86_64.rsi => 0x9000 | X86_64.rdx => 7
                    | X86_64.rcx => 1
                    | X86_64.rbx => 11 | X86_64.rbp => 12
                    | X86_64.r12 => 13 | X86_64.r13 => 14
                    | X86_64.r14 => 15 | X86_64.r15 => 16
                    | X86_64.mxcsr => 0x1f80 | X86_64.fcw => 0x37f
                    | _ => 0
                    end)
          (fun x => if x =? 0x8000 then 0x42 else 0).

(** The other context, later, jumping back to what it found in
    [*from_storage], with 9 as the value it passes. *)
Definition sysv_sample_b : X86_64.st :=
  mkState (fun r => match r with
                    | X86_64.rsp => 0x9800 | X86_64.rdi => 0x200
                    | X86_64.rsi => 0x7fc8 | X86_64.rdx => 9
                    | X86_64.rcx => 1
                    | _ => 0
                    end)
          (mem (X86_64.jump_sysv sysv_sample_a)).

(** linux_arm64, [preserve_fpu] false, d8 = 1, the target context and
    all memory zero. *)
Definition arm64_sample : ARM64.st :=
  mkState (fun r => match r with
                    | ARM64.sp => 0x8000 | ARM64.x0 => 0x100
                    | ARM64.x1 => 0x9000 | ARM64.d8 => 1
                    | _ => 0
                    end)
          (fun _ => 0).

Module brpc_samples.
Import brpc.

(** A message class: its object carries the bytes it will append and
    the status it will report; it overrides [EstimatedByteSize]. *)
Record Frame := { payload : list Z; verdict : Status; hint : size_t }.

Definition Frame_append (size : Frame -> size_t * Frame) (self : Frame)
    (out : IOBuf) (sock : option Socket) : Status * IOBuf :=
  (verdict self,
   match sock with Some _ => out ++ payload self | None => out end).

#[local] Instance Frame_message : SocketMessage Frame := {
  AppendAndDestroySelf := Frame_append;
  EstimatedByteSize self := (hint self, self)
}.

(** A second class, which keeps the default [EstimatedByteSize]. *)
Record Ping := { seq : Z }.

#[local] Instance Ping_message : SocketMessage Ping := {
  AppendAndDestroySelf _ self out sock := (OK, out ++ [seq self]);
  EstimatedByteSize := EstimatedByteSize_default
}.







Definition frame_object : object :=
  Object Frame Frame_message
         {| payload := [1; 2; 3]; verdict := Error 5 "broken"; hint := 3%N |}.

(** One live message at address 4, nothing recorded yet. *)
Definition one_message : world :=
  World (fun p => if Nat.eqb p 4 then Some frame_object else None) [].

End brpc_samples.

(** A caller of [bthread_make_fcontext]: stack top 0xa000, entry function
    at 0x400200. *)
Definition sysv_sample_maker : X86_64.st :=
  mkState (fun r => match r with
                    | X86_64.rsp => 0x7000 | X86_64.rdi => 0xa000
                    | X86_64.rsi => 0x1000 | X86_64.rdx => 0x400200
                    | X86_64.mxcsr => 0x1f80 | X86_64.fcw => 0x37f
                    | _ => 0
                    end)
          (fun _ => 0).

(** A first jump into the context made there ([finish] at 0x400100),
    passing 7. *)
Definition sysv_sample_first_jump : X86_64.st :=
  mkState (fun r => match r with
                    | X86_64.rsp => 0x8000 | X86_64.rdi => 0x100
                    | X86_64.rsi => 0x9fb8 | X86_64.rdx => 7
                    | X86_64.rcx => 1
                    | _ => 0
                    end)
          (mem (linux_x86_64.bthread_make_fcontext 0x400100 sysv_sample_maker)).

(** The slots of a saved context on linux_arm64: d8-d15, x19-x30, and at
    0xa0 the address to continue at. *)
Definition arm64_saved : list (ARM64.reg * Z) :=
  [ (ARM64.d8, 0x00); (ARM64.d9, 0x08); (ARM64.d10, 0x10); (ARM64.d11, 0x18);
    (ARM64.d12, 0x20); (ARM64.d13, 0x28); (ARM64.d14, 0x30); (ARM64.d15, 0x38);
    (ARM64.x19, 0x40); (ARM64.x20, 0x48); (ARM64.x21, 0x50); (ARM64.x22, 0x58);
    (ARM64.x23, 0x60); (ARM64.x24, 0x68); (ARM64.x25, 0x70); (ARM64.x26, 0x78);
    (ARM64.x27, 0x80); (ARM64.x28, 0x88); (ARM64.x29, 0x90); (ARM64.x30, 0x98) ].
Definition arm64_pc_slot : Z := 0xa0.
Definition arm64_context_size : Z := 0xb0.

(** A linux_arm64 context about to jump away, and another one jumping
    back to it later with 9 as the value it passes. *)
Definition arm64_sample_a : ARM64.st :=
  mkState (fun r => match r with
                    | ARM64.sp => 0x8000 | ARM64.x0 => 0x100
                    | ARM64.x1 => 0x9000 | ARM64.x2 => 7
                    | ARM64.x19 => 19 | ARM64.x30 => 0x400300
                    | ARM64.d8 => 8
                    | _ => 0
                    end)
          (fun _ => 0).
Definition arm64_sample_b : ARM64.st :=
  mkState (fun r => match r with
                    | ARM64.sp => 0x9800 | ARM64.x0 => 0x200
                    | ARM64.x1 => 0x7f50 | ARM64.x2 => 9
                    | _ => 0
                    end)
          (mem (linux_arm64.bthread_jump_fcontext arm64_sample_a)).

(** A linux_arm64 caller of [bthread_make_fcontext] (stack top 0xa000,
    entry function at 0x400200) and a first jump into the context made
    there ([finish] at 0x400100). *)
Definition arm64_sample_maker : ARM64.st :=
  mkState (fun r => match r with
                    | ARM64.sp => 0x7000 | ARM64.x0 => 0xa000
                    | ARM64.x1 => 0x1000 | ARM64.x2 => 0x400200
                    | _ => 0
                    end)
          (fun _ => 0).
Definition arm64_sample_first_jump : ARM64.st :=
  mkState (fun r => match r with
                    | ARM64.sp => 0x8000 | ARM64.x0 => 0x100
                    | ARM64.x1 => 0x9f50 | ARM64.x2 => 7
                    | _ => 0
                    end)
          (mem (linux_arm64.bthread_make_fcontext 0x400100 arm64_sample_maker)).

(** The slots of a saved context under cdecl on i386: what
    [bthread_jump_fcontext] pops, and from which offset; the return
    address lies above them. *)
Definition cdecl_saved : list (I386.reg * Z) :=
  [ (I386.edi, 0x8); (I386.esi, 0xc); (I386.ebx, 0x10); (I386.ebp, 0x14) ].
Definition cdecl_return_slot : Z := 0x18.

(** A linux_i386 caller of [bthread_jump_fcontext]: return address at
    0x8000, then [from_storage] = 0x100, [to_context] = 0x9000,
    [transfer_value] = 7 and [preserve_fpu] = 1 above it. *)
Definition cdecl_sample : I386.st :=
  mkState (fun r => match r with
                    | I386.esp => 0x8000
                    | I386.ebx => 11 | I386.ebp => 12
                    | I386.esi => 13 | I386.edi => 14
                    | _ => 0
                    end)
          (fun x => if x =? 0x8000 then 0x42
                    else if x =? 0x8005 then 0x1
                    else if x =? 0x8009 then 0x90
                    else if x =? 0x800c then 0x7
                    else if x =? 0x8010 then 0x1
                    else 0).

(** A linux_i386 caller of [bthread_make_fcontext]: stack top 0xa000,
    size 0x1000 and entry function 0x400200 on its stack. *)
Definition cdecl_sample_maker : I386.st :=
  mkState (fun r => match r with
                    | I386.esp => 0x7000
                    | _ => 0
                    end)
          (fun x => if x =? 0x7005 then 0xa0
                    else if x =? 0x7009 then 0x10
                    else if x =? 0x700d then 0x02
                    else if x =? 0x700e then 0x40
                    else 0).

(** The core-register slots of a saved context on linux_arm32, above the
    64 bytes kept for d8-d15; the address to continue at is at 100. *)
Definition arm32_saved : list (ARM32.reg * Z) :=
  [ (ARM32.v1, 64); (ARM32.v2, 68); (ARM32.v3, 72); (ARM32.v4, 76);
    (ARM32.v5, 80); (ARM32.v6, 84); (ARM32.v7, 88); (ARM32.v8, 92);
    (ARM32.lr, 96) ].
Definition arm32_pc_slot : Z := 100.
Definition arm32_context_size : Z := 104.

(** A linux_arm32 caller of [bthread_make_fcontext] (stack top 0xa000,
    entry function 0x400200), and a first jump into the context made
    there ([finish] at 0x400100), passing 7. *)
Definition arm32_sample_maker : ARM32.st :=
  mkState (fun r => match r with
                    | ARM32.sp => 0x7000 | ARM32.a1 => 0xa000
                    | ARM32.a2 => 0x1000 | ARM32.a3 => 0x400200
                    | _ => 0
                    end)
          (fun _ => 0).
Definition arm32_sample_first_jump : ARM32.st :=
  mkState (fun r => match r with
                    | ARM32.sp => 0x8000 | ARM32.a1 => 0x100
                    | ARM32.a2 => 0x9f98 | ARM32.a3 => 7
                    | ARM32.a4 => 1
                    | _ => 0
                    end)
          (mem (linux_arm32.bthread_make_fcontext 0x400100 arm32_sample_maker)).

(** windows_x86_64: the stack pointer at a context made for the stack
    top 0xa000 ([finish] at 0x400100, entry function 0x400200), the
    thread information block at 0x20000. *)
Definition win64_sample_maker : X86_64.st :=
  mkState (fun r => match r with
                    | X86_64.rsp => 0x7000 | X86_64.rcx => 0xa000
                    | X86_64.rdx => 0x1000 | X86_64.r8 => 0x400200
                    | _ => 0
                    end)
          (fun x => if x =? 0x10032 then 0x2 else 0).
Definition win64_sample_entered : X86_64.st :=
  mkState (fun r => match r with
                    | X86_64.rsp => 0x9ea8 | X86_64.r8 => 7
                    | X86_64.gs_base => 0x10000
                    | _ => 0
                    end)
          (mem (windows_x86_64.bthread_make_fcontext 0x400100
                  win64_sample_maker)).

Module brpc_samples2.
Import brpc brpc_samples.

Definition ping_object : object := Object Ping Ping_message {| seq := 9 |}.

(** Two live messages of different classes, at addresses 4 and 6. *)
Definition two_messages : world :=
  World (fun p => if Nat.eqb p 4 then Some frame_object
                  else if Nat.eqb p 6 then Some ping_object
                  else None) [].
End brpc_samples2.

(** A windows_i386 caller of [bthread_make_fcontext]: stack top 0xa000,
    size 0x1000, entry function 0x400200; [%fs:0] at 0x10000 points to an
    exception record at 0x3000 whose link leads to a last record at
    0x3100 (link 0xffffffff, handler 0x400300). *)
Definition win32_sample_maker : I386.st :=
  mkState (fun r => match r with
                    | I386.esp => 0x7000 | I386.fs_base => 0x10000
                    | _ => 0
                    end)
          (fun x => if x =? 0x7005 then 0xa0
                    else if x =? 0x7009 then 0x10
                    else if x =? 0x700d then 0x02
                    else if x =? 0x700e then 0x40
                    else if x =? 0x10001 then 0x30
                    else if x =? 0x3001 then 0x31
                    else if (0x3100 <=? x) && (x <? 0x3104) then 0xff
                    else if x =? 0x3105 then 0x03
                    else if x =? 0x3106 then 0x40
                    else 0).

(** The same memory with ecx at the first record of the chain. *)
Definition win32_sample_chain : I386.st :=
  mkState (fun r => match r with
                    | I386.ecx => 0x3000 | I386.esp => 0x7000
                    | _ => 0
                    end)
          (mem win32_sample_maker).

(** A windows_i386 caller of [bthread_jump_fcontext]: return address at
    0x8000, then [from_storage] = 0x100, [to_context] = 0x9000,
    [transfer_value] = 7 and [preserve_fpu] = 1 above it; the thread
    information block at 0x20000. *)
Definition win32_sample_jump : I386.st :=
  mkState (fun r => match r with
                    | I386.esp => 0x8000 | I386.fs_base => 0x10000
                    | _ => 0
                    end)
          (fun x => if x =? 0x8000 then 0x42
                    else if x =? 0x8005 then 0x1
                    else if x =? 0x8009 then 0x90
                    else if x =? 0x800c then 0x7
                    else if x =? 0x8010 then 0x1
                    else if x =? 0x1001a then 0x2
                    else 0).

(** ** An entry function that returns *)







(** * Facts *)

(** ** Memory *)

Section MemFacts.
Variable bits : Z.
Hypothesis bits_nonneg : 0 <= bits.

Lemma modulus_pos : 0 < 2 ^ bits.
Proof. apply Z.pow_pos_nonneg; lia. Qed.

Lemma wrap_range x : 0 <= wrap bits x < 2 ^ bits.
Proof. unfold wrap. apply Z.mod_pos_bound, modulus_pos. Qed.

Lemma wrap_wrap x : wrap bits (wrap bits x) = wrap bits x.
Proof. unfold wrap. apply Z.mod_mod. pose proof modulus_pos; lia. Qed.

Lemma wrap_small x : 0 <= x < 2 ^ bits -> wrap bits x = x.
Proof. unfold wrap. apply Z.mod_small. Qed.

Lemma wrap_neg x : - 2 ^ bits <= x < 0 -> wrap bits x = x + 2 ^ bits.
Proof.
  intros Hx. unfold wrap.
  rewrite <- (Z_mod_plus_full x 1 (2 ^ bits)).
  rewrite Z.mul_1_l. apply Z.mod_small. lia.
Qed.

Lemma wrap_add_l x c : wrap bits (wrap bits x + c) = wrap bits (x + c).
Proof. unfold wrap. apply Zplus_mod_idemp_l. Qed.

Lemma wrap_sub_l x c : wrap bits (wrap bits x - c) = wrap bits (x - c).
Proof. unfold wrap. apply Zminus_mod_idemp_l. Qed.

Lemma wrap_eq_add x y c :
  wrap bits x = wrap bits y -> wrap bits (x + c) = wrap bits (y + c).
Proof.
  intros H. rewrite <- (wrap_add_l x), <- (wrap_add_l y). now rewrite H.
Qed.

Lemma store_S n a v m :
  store bits (S n) a v m =
  fun x => if x =? wrap bits a then v mod 256
           else store bits n (a + 1) (v / 256) m x.
Proof. reflexivity. Qed.

Lemma load_S n a m :
  load bits (S n) a m = m (wrap bits a) + 256 * load bits n (a + 1) m.
Proof. reflexivity. Qed.

(** Addresses count modulo the address space. *)
Lemma store_congr n : forall a a' v m,
  wrap bits a = wrap bits a' -> store bits n a v m = store bits n a' v m.
Proof.
  induction n as [|n IH]; intros a a' v m H; [reflexivity|].
  rewrite !store_S. rewrite H.
  rewrite (IH (a + 1) (a' + 1)) by now apply wrap_eq_add.
  reflexivity.
Qed.

Lemma load_congr n : forall a a' m,
  wrap bits a = wrap bits a' -> load bits n a m = load bits n a' m.
Proof.
  induction n as [|n IH]; intros a a' m H; [reflexivity|].
  rewrite !load_S. rewrite H.
  rewrite (IH (a + 1) (a' + 1)) by now apply wrap_eq_add.
  reflexivity.
Qed.

(** A store changes no byte outside its range. *)
Lemma store_outside n : forall a v m x,
  (forall i, 0 <= i < Z.of_nat n -> x <> wrap bits (a + i)) ->
  store bits n a v m x = m x.
Proof.
  induction n as [|n IH]; intros a v m x H; [reflexivity|].
  rewrite store_S.
  destruct (Z.eqb_spec x (wrap bits a)) as [E|_].
  - exfalso. apply (H 0); [lia|]. now rewrite Z.add_0_r.
  - apply IH. intros i Hi. rewrite <- Z.add_assoc. apply H. lia.
Qed.

(** A load reads only the bytes of its range. *)
Lemma load_ext n : forall a m m',
  (forall i, 0 <= i < Z.of_nat n ->
     m (wrap bits (a + i)) = m' (wrap bits (a + i))) ->
  load bits n a m = load bits n a m'.
Proof.
  induction n as [|n IH]; intros a m m' H; [reflexivity|].
  rewrite !load_S. f_equal.
  - specialize (H 0). rewrite Z.add_0_r in H. apply H. lia.
  - f_equal. apply IH. intros i Hi. rewrite <- Z.add_assoc. apply H. lia.
Qed.

Lemma disjoint_spec a n b k :
  disjoint bits a n b k = true ->
  forall i j, 0 <= i < n -> 0 <= j < k ->
    wrap bits (a + i) <> wrap bits (b + j).
Proof.
  unfold disjoint. intros H i j Hi Hj E.
  apply andb_true_iff in H. destruct H as [H1 H2].
  apply Z.leb_le in H1, H2.
  assert (D : wrap bits (b - a) = wrap bits (i - j)).
  { replace (b - a) with ((b + j) + (- a - j)) by ring.
    replace (i - j) with ((a + i) + (- a - j)) by ring.
    symmetry. now apply wrap_eq_add. }
  assert (D' : wrap bits (a - b) = wrap bits (j - i)).
  { replace (a - b) with ((a + i) + (- b - i)) by ring.
    replace (j - i) with ((b + j) + (- b - i)) by ring.
    now apply wrap_eq_add. }
  pose proof (wrap_range (b - a)). pose proof (wrap_range (a - b)).
  destruct (Z_le_gt_dec j i).
  - rewrite (wrap_small (i - j)) in D by lia. lia.
  - rewrite (wrap_small (j - i)) in D' by lia. lia.
Qed.

Lemma disjoint_sym a n b k : disjoint bits a n b k = disjoint bits b k a n.
Proof. unfold disjoint. apply andb_comm. Qed.

(** A byte away from a range is away from every store inside it. *)
Lemma store_skip n b c v m x lo len :
  disjoint bits x 1 (b + lo) len = true ->
  inside c (Z.of_nat n) lo len = true ->
  store bits n (b + c) v m (wrap bits x) = m (wrap bits x).
Proof.
  intros H Hin. apply store_outside. intros i Hi E.
  unfold inside in Hin. apply andb_true_iff in Hin. destruct Hin as [H1 H2].
  apply Z.leb_le in H1, H2.
  apply (disjoint_spec _ _ _ _ H 0 (c - lo + i)); [lia|lia|].
  rewrite Z.add_0_r, E. f_equal. ring.
Qed.

(** A load away from a range is away from every store inside it. *)
Lemma load_store_skip n k a b c v m lo len :
  disjoint bits a (Z.of_nat n) (b + lo) len = true ->
  inside c (Z.of_nat k) lo len = true ->
  load bits n a (store bits k (b + c) v m) = load bits n a m.
Proof.
  intros H Hin. apply load_ext. intros i Hi. apply store_outside.
  intros j Hj E.
  unfold inside in Hin. apply andb_true_iff in Hin. destruct Hin as [H1 H2].
  apply Z.leb_le in H1, H2.
  apply (disjoint_spec _ _ _ _ H i (c - lo + j)); [lia|lia|].
  rewrite E. f_equal. ring.
Qed.

Lemma load_store_other n k a b v m :
  disjoint bits a (Z.of_nat n) b (Z.of_nat k) = true ->
  load bits n a (store bits k b v m) = load bits n a m.
Proof.
  intros H. apply load_ext. intros i Hi. apply store_outside.
  intros j Hj. now apply (disjoint_spec _ _ _ _ H).
Qed.

Lemma load_store_same n : forall a v m,
  Z.of_nat n <= 2 ^ bits ->
  load bits n a (store bits n a v m) = v mod 256 ^ Z.of_nat n.
Proof.
  induction n as [|n IH]; intros a v m Hn.
  - change (0 = v mod 1). now rewrite Z.mod_1_r.
  - rewrite load_S, store_S. rewrite Z.eqb_refl.
    rewrite (load_ext n (a + 1) _ (store bits n (a + 1) (v / 256) m)).
    + rewrite IH by lia.
      rewrite Nat2Z.inj_succ, Z.pow_succ_r by lia.
      rewrite Z.rem_mul_r
        by (try apply Z.pow_nonzero; try apply Z.pow_pos_nonneg; lia).
      reflexivity.
    + intros i Hi.
      destruct (Z.eqb_spec (wrap bits (a + 1 + i)) (wrap bits a)) as [E|_];
        [|reflexivity].
      exfalso.
      assert (D : wrap bits (1 + i) = wrap bits 0).
      { replace (1 + i) with ((a + 1 + i) + - a) by ring.
        replace 0 with (a + - a) by ring. now apply wrap_eq_add. }
      rewrite !wrap_small in D; lia.
Qed.
End MemFacts.

Section Offsets.
Variable bits : Z.
Hypothesis bits_wide : 32 <= bits.

Lemma apart_disjoint b c n c' k :
  apart c n c' k = true -> disjoint bits (b + c) n (b + c') k = true.
Proof.
  intros H. unfold apart in H. unfold disjoint.
  assert (HM : 2 ^ 32 <= 2 ^ bits) by (apply Z.pow_le_mono_r; lia).
  assert (HP : 0 < 2 ^ 32) by lia.
  replace (b + c' - (b + c)) with (c' - c) by ring.
  replace (b + c - (b + c')) with (c - c') by ring.
  apply andb_true_iff in H. destruct H as [H0 H].
  apply andb_true_iff in H0. destruct H0 as [Hn Hk].
  apply Z.ltb_lt in Hn, Hk.
  apply orb_true_iff in H. destruct H as [H|H];
    apply andb_true_iff in H; destruct H as [H1 H2];
    apply Z.leb_le in H1, H2; apply andb_true_intro; split; apply Z.leb_le.
  - rewrite wrap_small; lia.
  - rewrite wrap_neg; lia.
  - rewrite wrap_neg; lia.
  - rewrite wrap_small; lia.
Qed.

Lemma load_store_apart n k b c c' v m :
  apart c (Z.of_nat n) c' (Z.of_nat k) = true ->
  load bits n (b + c) (store bits k (b + c') v m) = load bits n (b + c) m.
Proof.
  intros H. apply load_store_other; [lia|]. now apply apart_disjoint.
Qed.

Lemma load_store_here n b c v m :
  Z.of_nat n <= 2 ^ 32 ->
  load bits n (b + c) (store bits n (b + c) v m) = v mod 256 ^ Z.of_nat n.
Proof.
  intros H. apply load_store_same; [lia|].
  assert (HM : 2 ^ 32 <= 2 ^ bits) by (apply Z.pow_le_mono_r; lia). lia.
Qed.
End Offsets.

(** ** Running micro-operations *)

Section MachineFacts.
Context {reg : Type} (eqb : reg -> reg -> bool) (bits : Z).
Implicit Types (s : state reg) (r : reg).

Lemma run_app (p q : list (@instr reg)) s : run (p ++ q) s = run q (run p s).
Proof. unfold run. apply fold_left_app. Qed.
Lemma run_three (p q r : list (@instr reg)) s :
  run (p ++ q ++ r) s = run r (run (p ++ q) s).
Proof. now rewrite app_assoc, run_app. Qed.
Lemma branch_taken cond body s :
  cond s = true -> branch_over cond body s = s.
Proof. unfold branch_over. now intros ->. Qed.
Lemma branch_fall cond body s :
  cond s = false -> branch_over cond body s = run body s.
Proof. unfold branch_over. now intros ->. Qed.
End MachineFacts.

(** Solves equalities and inequalities between wrapped addresses. *)
Ltac wrap_lia :=
  unfold wrap in *;
  change (2 ^ 64) with 18446744073709551616 in *;
  change (2 ^ 32) with 4294967296 in *;
  Z.div_mod_to_equations; lia.

(** Address arithmetic against literal offsets: nested wrap-arounds
    collapse to one base plus one literal. *)
Section Norm.
Variable bits : Z.
Hypothesis bits_nonneg : 0 <= bits.

Lemma wrap_sub_lit x c c' :
  - c = c' -> wrap bits (x - c) = wrap bits (x + c').
Proof. intros <-. reflexivity. Qed.
Lemma wrap_add_add x c1 c2 c3 :
  c1 + c2 = c3 -> wrap bits (wrap bits (x + c1) + c2) = wrap bits (x + c3).
Proof. intros <-. rewrite wrap_add_l. now rewrite Z.add_assoc. Qed.
Lemma store_wrap n a v m :
  store bits n (wrap bits a) v m = store bits n a v m.
Proof. apply store_congr. now apply wrap_wrap. Qed.
Lemma load_wrap n a m : load bits n (wrap bits a) m = load bits n a m.
Proof. apply load_congr. now apply wrap_wrap. Qed.
Lemma store_wrap_add n x c1 c2 c3 v m :
  c1 + c2 = c3 ->
  store bits n (wrap bits (x + c1) + c2) v m = store bits n (x + c3) v m.
Proof.
  intros <-. apply store_congr. rewrite wrap_add_l. now rewrite Z.add_assoc.
Qed.
Lemma load_wrap_add n x c1 c2 c3 m :
  c1 + c2 = c3 ->
  load bits n (wrap bits (x + c1) + c2) m = load bits n (x + c3) m.
Proof.
  intros <-. apply load_congr. rewrite wrap_add_l. now rewrite Z.add_assoc.
Qed.
Lemma store_add_add n x c1 c2 c3 v m :
  c1 + c2 = c3 ->
  store bits n (x + c1 + c2) v m = store bits n (x + c3) v m.
Proof. intros <-. now rewrite Z.add_assoc. Qed.
Lemma load_add_add n x c1 c2 c3 m :
  c1 + c2 = c3 ->
  load bits n (x + c1 + c2) m = load bits n (x + c3) m.
Proof. intros <-. now rewrite Z.add_assoc. Qed.
End Norm.

Ltac norm_step :=
  match goal with
  | |- context [wrap ?b (?x - ?c)] =>
      let c' := eval vm_compute in (- c) in
      rewrite (wrap_sub_lit b x c c' eq_refl)
  | |- context [wrap ?b (wrap ?b (?x + ?c1) + ?c2)] =>
      let c3 := eval vm_compute in (c1 + c2) in
      rewrite (wrap_add_add b x c1 c2 c3 eq_refl)
  | |- context [store ?b ?n (wrap ?b (?x + ?c1) + ?c2) ?v ?m] =>
      let c3 := eval vm_compute in (c1 + c2) in
      rewrite (store_wrap_add b n x c1 c2 c3 v m eq_refl)
  | |- context [load ?b ?n (wrap ?b (?x + ?c1) + ?c2) ?m] =>
      let c3 := eval vm_compute in (c1 + c2) in
      rewrite (load_wrap_add b n x c1 c2 c3 m eq_refl)
  | |- context [store ?b ?n (wrap ?b ?a) ?v ?m] =>
      rewrite (store_wrap b ltac:(lia) n a v m)
  | |- context [load ?b ?n (wrap ?b ?a) ?m] =>
      rewrite (load_wrap b ltac:(lia) n a m)
  | |- context [store ?b ?n (?x + ?c1 + ?c2) ?v ?m] =>
      let c3 := eval vm_compute in (c1 + c2) in
      rewrite (store_add_add b n x c1 c2 c3 v m eq_refl)
  | |- context [load ?b ?n (?x + ?c1 + ?c2) ?m] =>
      let c3 := eval vm_compute in (c1 + c2) in
      rewrite (load_add_add b n x c1 c2 c3 m eq_refl)
  end.

(** Brings every address to the shape [base + literal]. *)
Ltac norm := repeat norm_step.

(** Closes a goal whose two sides are the same term. *)
Ltac same := match goal with |- ?a = ?b => constr_eq a b; reflexivity end.

(** Reads a value back through the stores made after it. *)
Ltac peel :=
  repeat first
    [ rewrite load_store_here by (first [lia | vm_compute; discriminate])
    | rewrite load_store_apart by (first [lia | reflexivity]) ].

Ltac each_fp :=
  repeat match goal with
         | |- Forall _ (_ :: _) => apply Forall_cons
         | |- Forall _ [] => apply Forall_nil
         end.

Ltac unfold_switch :=
  unfold preserve, saved_one, reloaded_one, kept_one, unstored_one;
  unfold jump;
  cbn [sw_reg sw_eqb sw_bits sw_save sw_switch sw_restore sw_sp sw_flag
       sw_flag_reg sw_fp sysv_switch windows_x86_64_switch cdecl_switch windows_i386_switch
       linux_arm32_switch linux_arm64_switch fst snd].

(** ** Symbolic execution *)

Ltac use_flags :=
  repeat match goal with
         | E : rf _ _ = _ |- _ => rewrite E
         | E : (_ =? _) = _ |- _ => rewrite E
         end.

Section Norm2.
Variable bits : Z.
Hypothesis bits_nonneg : 0 <= bits.
Lemma wrap_base x : wrap bits x = wrap bits (x + 0).
Proof. now rewrite Z.add_0_r. Qed.
End Norm2.

(** The offset of address [A] from [base], read off its syntax. *)
Ltac offset_of A base :=
  lazymatch A with
  | base => constr:(0)
  | wrap _ ?X => offset_of X base
  | ?X + ?c => let o := offset_of X base in
               let r := eval vm_compute in (o + c) in r
  | ?X - ?c => let o := offset_of X base in
               let r := eval vm_compute in (o - c) in r
  end.

Ltac norm_wrap_step :=
  match goal with
  | |- context [wrap ?b (?x - ?c)] =>
      let c' := eval vm_compute in (- c) in
      rewrite (wrap_sub_lit b x c c' eq_refl)
  | |- context [wrap ?b (wrap ?b (?x + ?c1) + ?c2)] =>
      let c3 := eval vm_compute in (c1 + c2) in
      rewrite (wrap_add_add b x c1 c2 c3 eq_refl)
  | |- context [wrap ?b (wrap ?b ?x)] =>
      rewrite (wrap_wrap b ltac:(lia) x)
  | |- context [wrap ?b (?x + ?c1 + ?c2)] =>
      let c3 := eval vm_compute in (c1 + c2) in
      replace (x + c1 + c2) with (x + c3) by (rewrite <- Z.add_assoc; reflexivity)
  end.

(** [wrap b A = wrap b (base + c)] for the offset [c] of [A]. *)
Ltac addr_fact b A base k :=
  let c := offset_of A base in
  let H := fresh "Haddr" in
  assert (H : wrap b A = wrap b (base + c))
    by (first [ same | repeat norm_wrap_step; first [ same | apply wrap_base ] ]);
  k c H; clear H.

(** Reads a value back through the stores made after it, all addresses
    being offsets from [base]. *)
Ltac peel_step base :=
  lazymatch goal with
  | |- load ?b ?n ?A (store ?b ?k ?B ?v ?m) = _ =>
      lazymatch A with
      | base + _ =>
          lazymatch B with
          | base + _ =>
              first [ rewrite load_store_here
                        by (first [lia | vm_compute; discriminate])
                    | rewrite load_store_apart by (first [lia | reflexivity]) ]
          | _ => addr_fact b B base
                   ltac:(fun c H => rewrite (store_congr b k B (base + c) v m H))
          end
      | _ => addr_fact b A base
               ltac:(fun c H =>
                       rewrite (load_congr b n A (base + c) (store b k B v m) H))
      end
  end.
Ltac peel_from base := repeat peel_step base.
Ltac stored := cbn [Z.of_nat Pos.of_succ_nat Pos.succ]; same.

(** Symbolic execution: every instruction of every machine unfolds to
    register and memory updates. *)
Ltac ev :=
  cbn [run fold_left app assign poke setr write rf mem Nat.eqb fst snd
       firstn skipn List.length Z.of_nat Pos.of_succ_nat Pos.succ Z.mul Pos.mul
       Z.add Pos.add
       X86_64.reg_eqb X86_64.reg_index
       X86_64.pushq X86_64.push_imm X86_64.popq X86_64.leaq X86_64.leaq_idx
       X86_64.leaq_label X86_64.movq X86_64.movq_imm X86_64.movq_st
       X86_64.movq_ld X86_64.movq_gs X86_64.cmpq_imm X86_64.testq X86_64.je
       X86_64.arith X86_64.andq_imm X86_64.andq X86_64.subq_imm
       X86_64.addq_imm X86_64.negq X86_64.xorq X86_64.stmxcsr X86_64.fnstcw
       X86_64.ldmxcsr X86_64.fldcw X86_64.movaps_st X86_64.movaps_ld
       X86_64.jmp_reg X86_64.ret
       X86_64.jump_save_sysv X86_64.jump_switch_sysv X86_64.jump_restore_sysv
       windows_x86_64.jump_save windows_x86_64.jump_switch
       windows_x86_64.jump_restore
       I386.reg_eqb I386.reg_index
       I386.pushl I386.push_imm I386.popl I386.leal I386.leal_idx I386.movl
       I386.movl_imm I386.movl_st I386.movl_ld I386.movl_fs I386.testl I386.je
       I386.arith I386.andl_imm I386.addl_imm I386.negl I386.incl I386.decl
       I386.xorl I386.xchgl I386.stmxcsr I386.fnstcw I386.ldmxcsr I386.fldcw
       I386.jmp_reg I386.ret I386.call_next
       I386.jump_save_cdecl I386.jump_switch_cdecl I386.jump_restore_cdecl
       windows_i386.jump_save windows_i386.jump_switch
       windows_i386.jump_restore
       ARM32.reg_eqb ARM32.reg_index
       ARM32.stores ARM32.loads ARM32.push ARM32.pop ARM32.vstmia ARM32.vldmia
       ARM32.sub_imm ARM32.add_imm ARM32.bic_imm ARM32.mov ARM32.mov_imm
       ARM32.adr ARM32.str ARM32.cmp_imm ARM32.beq ARM32.bx
       linux_arm32.jump_save linux_arm32.jump_switch linux_arm32.jump_restore
       ARM64.reg_eqb ARM64.reg_index
       ARM64.sub_imm ARM64.add_imm ARM64.and_imm ARM64.mov ARM64.mov_imm
       ARM64.adr ARM64.stp ARM64.ldp ARM64.str ARM64.ldr ARM64.ret
       linux_arm64.jump_save linux_arm64.jump_switch linux_arm64.jump_restore].

Ltac flag_value :=
  cbv beta delta [X86_64.zero_flag I386.zero_flag ARM32.zero_flag];
  ev; use_flags; reflexivity.

(** Resolves the innermost conditional branch from the hypotheses, or
    splits on it. *)
Ltac branch_step :=
  match goal with
  | |- context [branch_over ?c ?b ?x] =>
      lazymatch x with context [branch_over _ _ _] => fail | _ => idtac end;
      first [ rewrite (branch_taken c b x) by flag_value
            | rewrite (branch_fall c b x) by flag_value
            | let H := fresh "Hzf" in
              destruct (c x) eqn:H;
              [ rewrite (branch_taken c b x H)
              | rewrite (branch_fall c b x H) ] ]
  end.
Ltac ev_branch := ev; unfold X86_64.je, I386.je, ARM32.beq.
Ltac go := ev_branch; repeat (branch_step; ev_branch).

(** The forms in which the routines test the flag. *)
Ltac flag_forms E :=
  match type of E with
  | (wrap ?b ?x =? 0) = ?v =>
      let E1 := fresh "Ecmp" in
      let E2 := fresh "Etest" in
      assert (E1 : (wrap b (x - 0) =? 0) = v) by (rewrite Z.sub_0_r; exact E);
      assert (E2 : (Z.land (wrap b x) (wrap b x) =? 0) = v)
        by (rewrite Z.land_diag; exact E)
  end.

Section Stretches.
Variable W : switch.
Abbreviation clear_flag m := (wrap (sw_bits W) (rf m (sw_flag_reg W)) =? 0).

Hypothesis flag_held : forall s,
  rf (run (sw_save W ++ sw_switch W) s) (sw_flag_reg W) = sw_flag W s.
Hypothesis out_kept : forall s,
  Forall (fun f => rf (run (sw_save W ++ sw_switch W) s) (fst f)
                   = rf s (fst f)) (sw_fp W).
Hypothesis in_reload : forall m, clear_flag m = false ->
  Forall (fun f => rf (run (sw_restore W) m) (fst f)
                   = load (sw_bits W) (fst (snd f))
                       (rf m (sw_sp W) + snd (snd f)) (mem m)) (sw_fp W).
Hypothesis in_kept : forall m, clear_flag m = true ->
  Forall (fun f => rf (run (sw_restore W) m) (fst f) = rf m (fst f))
         (sw_fp W).
Hypothesis out_saved : forall s, preserve W s = true ->
  Forall (saved_one W s) (sw_fp W).
Hypothesis out_unstored : forall s, preserve W s = false ->
  Forall (unstored_one W s) (sw_fp W).

Lemma gated_by_stretches : fp_gated W.
Proof.
  intros s. destruct (preserve W s) eqn:E.
  - split; [now apply out_saved|].
    apply Forall_forall. intros [r [n off]] Hin.
    unfold reloaded_one, jump. rewrite run_three.
    assert (F : clear_flag (run (sw_save W ++ sw_switch W) s) = false).
    { rewrite flag_held.
      unfold preserve in E. now apply negb_true_iff in E. }
    pose proof (in_reload _ F) as H. rewrite Forall_forall in H.
    exact (H _ Hin).
  - split; [|now apply out_unstored].
    apply Forall_forall. intros f Hin.
    unfold kept_one, jump. rewrite run_three.
    assert (F : clear_flag (run (sw_save W ++ sw_switch W) s) = true).
    { rewrite flag_held.
      unfold preserve in E. now apply negb_false_iff in E. }
    pose proof (in_kept _ F) as H. rewrite Forall_forall in H.
    rewrite (H _ Hin).
    pose proof (out_kept s) as K. rewrite Forall_forall in K.
    exact (K _ Hin).
Qed.
End Stretches.

Ltac enter W :=
  cbn [sw_reg sw_eqb sw_bits sw_save sw_switch sw_restore sw_sp sw_flag
       sw_flag_reg sw_fp W fst snd].

Ltac flag_hyp E :=
  try unfold preserve in E;
  cbn [sw_reg sw_bits sw_flag sw_flag_reg sysv_switch windows_x86_64_switch
       cdecl_switch windows_i386_switch linux_arm32_switch
       linux_arm64_switch] in E;
  lazymatch type of E with
  | negb _ = true => apply negb_true_iff in E
  | negb _ = false => apply negb_false_iff in E
  | _ => idtac
  end;
  flag_forms E.

Lemma fp_gated_sysv : fp_gated sysv_switch.
Proof.
  apply gated_by_stretches.
  - intros s. enter sysv_switch. go. all: same.
  - intros s. enter sysv_switch. each_fp. all: go. all: same.
  - intros m E. flag_hyp E. enter sysv_switch. each_fp. all: go. all: same.
  - intros m E. flag_hyp E. enter sysv_switch. each_fp. all: go. all: same.
  - intros s E. flag_hyp E. unfold saved_one. enter sysv_switch. each_fp.
    all: go. all: peel_from (rf s X86_64.rsp). all: stored.
  - intros s E. flag_hyp E. unfold unstored_one. enter sysv_switch. each_fp.
    all: intros v x; go. all: same.
Qed.

Ltac stretch_facts W base :=
  apply gated_by_stretches;
  [ intros s; enter W; go; same
  | intros s; enter W; each_fp; go; same
  | intros m E; flag_hyp E; enter W; each_fp; go; first [same | norm; same]
  | intros m E; flag_hyp E; enter W; each_fp; go; same
  | intros s E; flag_hyp E; unfold saved_one; enter W; each_fp;
    go; peel_from (rf s base); stored
  | intros s E; flag_hyp E; unfold unstored_one; enter W; each_fp;
    intros v x; go; same ].

Section Win64.
Import X86_64.
Abbreviation W := windows_x86_64_switch.

Lemma win64_head_kept s r :
  In r (r9 :: map fst (sw_fp W)) ->
  rf (run (firstn 17 windows_x86_64.jump_save) s) r = rf s r.
Proof.
  intros H. cbn [sw_fp W map fst In] in H.
  repeat (destruct H as [<-|H]; [go; same|]). destruct H.
Qed.

Lemma win64_tail_saved m :
  (wrap 64 (rf m r9) =? 0) = false ->
  Forall (fun f =>
            let out := run (skipn 17 windows_x86_64.jump_save) m in
            load 64 (fst (snd f)) (rf out rsp + snd (snd f)) (mem out)
            = rf m (fst f) mod 256 ^ Z.of_nat (fst (snd f))) (sw_fp W).
Proof.
  intros E. flag_forms E. enter W. each_fp.
  all: go; peel_from (rf m rsp); stored.
Qed.

Lemma win64_saved s :
  preserve W s = true -> Forall (saved_one W s) (sw_fp W).
Proof.
  intros E. flag_hyp E.
  apply Forall_forall. intros [r [n off]] Hin. unfold saved_one.
  cbn [sw_save sw_bits sw_sp W].
  rewrite <- (firstn_skipn 17 windows_x86_64.jump_save).
  rewrite run_app. cbv zeta.
  assert (K : (wrap 64 (rf (run (firstn 17 windows_x86_64.jump_save) s) r9)
               =? 0) = false).
  { rewrite win64_head_kept by (left; reflexivity). exact E. }
  pose proof (win64_tail_saved _ K) as T. rewrite Forall_forall in T.
  specialize (T _ Hin). cbn [fst snd] in T. cbv zeta in T.
  etransitivity; [exact T|]. f_equal. apply win64_head_kept.
  right. apply (in_map fst) in Hin. exact Hin.
Qed.
End Win64.

Lemma fp_gated_windows_x86_64 : fp_gated windows_x86_64_switch.
Proof.
  apply gated_by_stretches.
  - intros s; enter windows_x86_64_switch; go; same.
  - intros s; enter windows_x86_64_switch; each_fp; go; same.
  - intros m E; flag_hyp E; enter windows_x86_64_switch; each_fp; go; first [same | norm; same].
  - intros m E; flag_hyp E; enter windows_x86_64_switch; each_fp; go; same.
  - exact win64_saved.
  - intros s E; flag_hyp E; unfold unstored_one; enter windows_x86_64_switch; each_fp;
    intros v x; go; same.
Qed.

Section Always.
Variable W : switch.
Hypothesis in_reload : forall m,
  Forall (fun f => rf (run (sw_restore W) m) (fst f)
                   = load (sw_bits W) (fst (snd f))
                       (rf m (sw_sp W) + snd (snd f)) (mem m)) (sw_fp W).
Hypothesis out_saved : forall s, Forall (saved_one W s) (sw_fp W).

Lemma always_by_stretches : fp_always W.
Proof.
  intros s. split; [apply out_saved|].
  apply Forall_forall. intros [r [n off]] Hin.
  unfold reloaded_one, jump. rewrite run_three.
  pose proof (in_reload (run (sw_save W ++ sw_switch W) s)) as H.
  rewrite Forall_forall in H. exact (H _ Hin).
Qed.
End Always.

Lemma fp_gated_cdecl : fp_gated cdecl_switch.
Proof. stretch_facts cdecl_switch I386.esp. Qed.

Lemma fp_gated_windows_i386 : fp_gated windows_i386_switch.
Proof. stretch_facts windows_i386_switch I386.esp. Qed.

Lemma fp_gated_linux_arm32 : fp_gated linux_arm32_switch.
Proof. stretch_facts linux_arm32_switch ARM32.sp. Qed.

Lemma fp_always_linux_arm64 : fp_always linux_arm64_switch.
Proof.
  apply always_by_stretches.
  - intros m; enter linux_arm64_switch; each_fp; go; first [same | norm; same].
  - intros s; unfold saved_one; enter linux_arm64_switch; each_fp;
      go; peel_from (rf s ARM64.sp); stored.
Qed.

Lemma wrap_zero bits : wrap bits 0 = 0.
Proof. unfold wrap. apply Zmod_0_l. Qed.

Lemma libc_symbol_ending {reg} prefix name f (arg0 : state reg -> Z) s :
  c_function prefix name = Some f ->
  ending_of (libc_call prefix arg0 (Symbol name) s)
  = if String.eqb f "_exit" then Exits (arg0 s) false
    else if String.eqb f "exit" then Exits (arg0 s) true
    else Leaves (Symbol name).
Proof.
  intros H. unfold libc_call. rewrite H.
  destruct (String.eqb f "_exit"); [reflexivity|].
  destruct (String.eqb f "exit"); reflexivity.
Qed.

Lemma lxor_self_wrapped bits x : wrap bits (Z.lxor x x) = 0.
Proof. rewrite Z.lxor_nilpotent. apply wrap_zero. Qed.

Ltac symbol_ending f :=
  rewrite (libc_symbol_ending _ _ f) by (vm_compute; reflexivity);
  match goal with
  | |- context [String.eqb ?a ?b] =>
      let v := eval vm_compute in (String.eqb a b) in
      change (String.eqb a b) with v
  end;
  repeat match goal with
  | |- context [String.eqb ?a ?b] =>
      let v := eval vm_compute in (String.eqb a b) in
      change (String.eqb a b) with v
  end;
  cbv iota;
  match goal with
  | |- Exits _ ?c = Exits _ ?c => apply (f_equal (fun status => Exits status c))
  end.

Ltac zeroed := rewrite ?lxor_self_wrapped, ?wrap_zero; reflexivity.

Lemma finish_ends_all p : finish_ends p (finish_ending p).
Proof.
  destruct p; cbn [finish_ends finish_ending]; intros.
  - unfold windows_i386.finish, I386.call. symbol_ending "exit"%string.
    unfold I386.cdecl_arg0. go. peel_from (rf s I386.esp). zeroed.
  - reflexivity.
  - unfold linux_i386.finish, I386.call. symbol_ending "_exit"%string.
    unfold I386.cdecl_arg0. go. peel_from (rf s I386.esp). zeroed.
  - unfold linux_x86_64.finish, X86_64.call. symbol_ending "_exit"%string.
    unfold X86_64.sysv_arg0. go. zeroed.
  - unfold apple_x86_64.finish, X86_64.call. symbol_ending "_exit"%string.
    unfold X86_64.sysv_arg0. go. zeroed.
  - unfold apple_i386.finish, I386.call. symbol_ending "_exit"%string.
    unfold I386.cdecl_arg0. go. peel_from (rf s I386.esp). zeroed.
  - unfold linux_arm32.finish, ARM32.bl. symbol_ending "_exit"%string.
    unfold ARM32.aapcs_arg0. go. zeroed.
  - unfold linux_arm64.finish, ARM64.bl. symbol_ending "_exit"%string.
    unfold ARM64.aapcs64_arg0. go. zeroed.
Qed.

Section Frames.
Variable bits : Z.

Lemma store_or_within n a v m x :
  store bits n a v m x = m x \/ within bits a (Z.of_nat n) x.
Proof.
  revert a v. induction n as [|n IH]; intros a v.
  - left. reflexivity.
  - rewrite store_S. destruct (x =? wrap bits a) eqn:E.
    + right. apply Z.eqb_eq in E. exists 0. split; [lia|].
      now rewrite Z.add_0_r.
    + destruct (IH (a + 1) (v / 256)) as [H|[i [Hi Hx]]].
      * left. exact H.
      * right. exists (1 + i). split; [lia|].
        rewrite Hx. f_equal. ring.
Qed.

Lemma within_widen b c n lo len x :
  within bits (b + c) n x -> inside c n lo len = true ->
  within bits (b + lo) len x.
Proof.
  intros [i [Hi Hx]] H. unfold inside in H.
  apply andb_true_iff in H. destruct H as [H1 H2].
  apply Z.leb_le in H1, H2.
  exists (c - lo + i). split; [lia|]. rewrite Hx. f_equal. ring.
Qed.

Lemma store_in_frame n b c v m x lo len :
  inside c (Z.of_nat n) lo len = true ->
  store bits n (b + c) v m x = m x \/ within bits (b + lo) len x.
Proof.
  intros H. destruct (store_or_within n (b + c) v m x) as [E|W].
  - left. exact E.
  - right. now apply (within_widen b c (Z.of_nat n)).
Qed.
End Frames.

(** The 16-byte boundary at or below an address. *)
Lemma land_minus16 x :
  0 <= x < 2 ^ 64 -> Z.land x (wrap 64 (-16)) = 16 * (x / 16).
Proof.
  intros H. unfold wrap. rewrite <- Z.land_ones by lia.
  rewrite Z.land_assoc. rewrite (Z.land_comm x (-16)).
  rewrite <- Z.land_assoc. rewrite (Z.land_ones x 64) by lia.
  rewrite (Z.mod_small x) by lia.
  rewrite Z.land_comm.
  change (-16) with (Z.lnot (Z.ones 4)).
  rewrite <- Z.ldiff_land. rewrite Z.ldiff_ones_r by lia.
  rewrite Z.shiftl_mul_pow2, Z.shiftr_div_pow2 by lia.
  change (2 ^ 4) with 16. ring.
Qed.

Lemma land_minus16_32 x :
  0 <= x < 2 ^ 32 -> Z.land x (wrap 32 (-16)) = 16 * (x / 16).
Proof.
  intros H. unfold wrap. rewrite <- Z.land_ones by lia.
  rewrite Z.land_assoc. rewrite (Z.land_comm x (-16)).
  rewrite <- Z.land_assoc. rewrite (Z.land_ones x 32) by lia.
  rewrite (Z.mod_small x) by lia.
  rewrite Z.land_comm.
  change (-16) with (Z.lnot (Z.ones 4)).
  rewrite <- Z.ldiff_land. rewrite Z.ldiff_ones_r by lia.
  rewrite Z.shiftl_mul_pow2, Z.shiftr_div_pow2 by lia.
  change (2 ^ 4) with 16. ring.
Qed.

(** Runs the left-hand side only. *)
Ltac go_lhs :=
  match goal with
  | |- _ = ?R => let r := fresh "rhs" in set (r := R); go; subst r
  end.

Lemma make_linux_x86_64_pointer finish_addr s :
  rf (linux_x86_64.bthread_make_fcontext finish_addr s) X86_64.rax
  = wrap 64 (16 * (wrap 64 (rf s X86_64.rdi) / 16) - 0x48).
Proof.
  unfold linux_x86_64.bthread_make_fcontext. go_lhs.
  rewrite land_minus16 by (apply wrap_range; lia).
  rewrite wrap_add_l. reflexivity.
Qed.

Lemma make_apple_x86_64_pointer finish_addr s :
  rf (apple_x86_64.bthread_make_fcontext finish_addr s) X86_64.rax
  = wrap 64 (16 * (wrap 64 (rf s X86_64.rdi) / 16) - 0x48).
Proof.
  unfold apple_x86_64.bthread_make_fcontext. go_lhs.
  rewrite land_minus16 by (apply wrap_range; lia).
  rewrite wrap_add_l. reflexivity.
Qed.

Lemma make_linux_arm64_pointer finish_addr s :
  rf (linux_arm64.bthread_make_fcontext finish_addr s) ARM64.x0
  = wrap 64 (16 * (wrap 64 (rf s ARM64.x0) / 16) - 0xb0).
Proof.
  unfold linux_arm64.bthread_make_fcontext. go_lhs.
  change (Z.lnot 15) with (-16).
  rewrite land_minus16 by (apply wrap_range; lia).
  reflexivity.
Qed.

(** Every store of the goal's memory falls inside one frame. *)
Ltac frame_step :=
  lazymatch goal with
  | |- store ?b ?n (?A + ?c) ?v ?m ?x = _ \/ within ?b ?A ?len ?x =>
      let E := fresh "E" in
      let W := fresh "W" in
      destruct (store_in_frame b n A c v m x 0 len eq_refl)
        as [E|W];
      [ rewrite E; clear E | right; rewrite Z.add_0_r in W; exact W ]
  end.
Ltac in_frame := repeat frame_step; left; same.

Lemma make_linux_x86_64_frame finish_addr s x :
  let s' := linux_x86_64.bthread_make_fcontext finish_addr s in
  mem s' x = mem s x \/ within 64 (rf s' X86_64.rax) 0x48 x.
Proof.
  cbv zeta. unfold linux_x86_64.bthread_make_fcontext. go. in_frame.
Qed.

Lemma make_linux_arm64_frame finish_addr s x :
  let s' := linux_arm64.bthread_make_fcontext finish_addr s in
  mem s' x = mem s x \/ within 64 (rf s' ARM64.x0) 0xb0 x.
Proof.
  cbv zeta. unfold linux_arm64.bthread_make_fcontext. go. in_frame.
Qed.

(** [n] bytes hold a value modulo [2 ^ (8 n)]. *)
Ltac bytes :=
  unfold wrap;
  try (rewrite Z.mod_mod by (vm_compute; discriminate));
  match goal with
  | |- ?x mod ?a = ?x mod ?b =>
      let a' := eval vm_compute in a in
      let b' := eval vm_compute in b in
      change (x mod a' = x mod b'); reflexivity
  end.

Lemma make_linux_x86_64_slots finish_addr s :
  let s' := linux_x86_64.bthread_make_fcontext finish_addr s in
  let ctx := rf s' X86_64.rax in
  load 64 8 (ctx + 0x38) (mem s') = wrap 64 (rf s X86_64.rdx)
  /\ load 64 8 (ctx + 0x40) (mem s') = wrap 64 finish_addr
  /\ load 64 4 ctx (mem s') = wrap 32 (rf s X86_64.mxcsr)
  /\ load 64 2 (ctx + 0x4) (mem s') = wrap 16 (rf s X86_64.fcw).
Proof.
  cbv zeta. unfold linux_x86_64.bthread_make_fcontext. go.
  match goal with
  | |- context [X86_64.w64 (?A + -72)] => set (ctx := X86_64.w64 (A + -72))
  end.
  repeat split; peel_from ctx; bytes.
Qed.

Lemma make_linux_arm64_slots finish_addr s :
  let s' := linux_arm64.bthread_make_fcontext finish_addr s in
  let ctx := rf s' ARM64.x0 in
  load 64 8 (ctx + 0xa0) (mem s') = wrap 64 (rf s ARM64.x2)
  /\ load 64 8 (ctx + 0x98) (mem s') = wrap 64 finish_addr.
Proof.
  cbv zeta. unfold linux_arm64.bthread_make_fcontext. go.
  match goal with
  | |- context [ARM64.w64 (?A - 176)] => set (ctx := ARM64.w64 (A - 176))
  end.
  repeat split; peel_from ctx; bytes.
Qed.

Section Sub.
Variable bits : Z.
Hypothesis bits_wide : 32 <= bits.

Lemma disjoint_sub a N b K off n :
  disjoint bits a N b K = true ->
  0 <= off -> 0 < n -> off + n <= N ->
  disjoint bits (a + off) n b K = true.
Proof.
  intros H Hoff Hn Hle. unfold disjoint in *.
  apply andb_true_iff in H. destruct H as [H1 H2].
  apply Z.leb_le in H1, H2.
  assert (HP : 0 < 2 ^ bits) by (apply Z.pow_pos_nonneg; lia).
  pose proof (wrap_range bits ltac:(lia) (b - a)) as R1.
  pose proof (wrap_range bits ltac:(lia) (a - b)) as R2.
  assert (S : wrap bits (b - a) + wrap bits (a - b) = 2 ^ bits).
  { unfold wrap in *.
    pose proof (Z.div_mod (b - a) (2 ^ bits) ltac:(lia)) as D1.
    pose proof (Z.div_mod (a - b) (2 ^ bits) ltac:(lia)) as D2.
    assert (E : (b - a) mod 2 ^ bits + (a - b) mod 2 ^ bits
                = 2 ^ bits * (- ((b - a) / 2 ^ bits) - (a - b) / 2 ^ bits))
      by lia.
    remember (- ((b - a) / 2 ^ bits) - (a - b) / 2 ^ bits) as q.
    assert (q = 1) by nia. subst q. lia. }
  apply andb_true_intro. split; apply Z.leb_le.
  - replace (b - (a + off)) with ((b - a) + - off) by ring.
    rewrite <- wrap_add_l. rewrite wrap_small; lia.
  - replace (a + off - b) with ((a - b) + off) by ring.
    rewrite <- wrap_add_l. rewrite wrap_small; lia.
Qed.
End Sub.

(** A load at [a] passes the stores the goal's memory was built from:
    those below [base] by [H], the one at [other] by [H']. *)
Ltac skip_step base lo len H other H' :=
  lazymatch goal with
  | |- load ?b ?n ?a (store ?b ?k ?B ?v ?m) = _ =>
      lazymatch B with
      | other + 0 =>
          rewrite (store_congr b k B other v m
                     ltac:(rewrite Z.add_0_r; reflexivity));
          rewrite (load_store_other b ltac:(lia) n k a other v m H')
      | base + ?c =>
          rewrite (load_store_skip b ltac:(lia) n k a base c v m lo len H
                     eq_refl)
      | _ => addr_fact b B base
               ltac:(fun c E => rewrite (store_congr b k B (base + c) v m E))
      end
  end.
Ltac skip_from base lo len H other H' :=
  repeat skip_step base lo len H other H'.

Section SysV.
Import X86_64.

Lemma sysv_restore_frame m :
  Forall (fun f => rf (run jump_restore_sysv m) (fst f)
                   = load 64 8 (rf m rsp + snd f) (mem m)) sysv_saved.
Proof.
  unfold sysv_saved. each_fp.
  all: cbn [fst snd]; go; first [same | norm; same].
Qed.

Lemma sysv_restore_control m :
  let m' := run jump_restore_sysv m in
  rf m' rip = load 64 8 (rf m rsp + sysv_return_slot) (mem m)
  /\ rf m' rsp = wrap 64 (rf m rsp + sysv_context_size)
  /\ rf m' rax = rf m rdx
  /\ rf m' rdi = rf m rdx
  /\ mem m' = mem m.
Proof.
  cbv zeta. unfold sysv_return_slot, sysv_context_size.
  repeat split; go; first [same | norm; same | repeat norm_wrap_step; same].
Qed.

Lemma sysv_outgoing_regs s :
  let mid := run (jump_save_sysv ++ jump_switch_sysv) s in
  rf mid rsp = rf s rsi /\ rf mid rdx = rf s rdx /\ rf mid rcx = rf s rcx.
Proof. cbv zeta. repeat split; go; same. Qed.

Lemma sysv_save_pointer s :
  rf (run jump_save_sysv s) rsp = wrap 64 (rf s rsp + - 56).
Proof. go; repeat norm_wrap_step; same. Qed.

Lemma sysv_published s :
  load 64 8 (rf s rdi) (mem (run (jump_save_sysv ++ jump_switch_sysv) s))
  = rf (run jump_save_sysv s) rsp.
Proof.
  rewrite sysv_save_pointer. go.
  all: rewrite (load_congr 64 8 (rf s rdi) (rf s rdi + 0))
    by (rewrite Z.add_0_r; reflexivity).
  all: rewrite load_store_same by (first [lia | vm_compute; discriminate]).
  all: repeat norm_wrap_step; bytes.
Qed.

Lemma sysv_save_frame s :
  let out := run jump_save_sysv s in
  Forall (fun f => load 64 8 (rf out rsp + snd f) (mem out)
                   = wrap 64 (rf s (fst f))) sysv_saved.
Proof.
  cbv zeta. unfold sysv_saved. each_fp.
  all: cbn [fst snd]; go; peel_from (rf s rsp); bytes.
Qed.

Lemma sysv_save_return s :
  let out := run jump_save_sysv s in
  load 64 8 (rf out rsp + sysv_return_slot) (mem out)
  = load 64 8 (rf s rsp) (mem s).
Proof.
  cbv zeta. unfold sysv_return_slot. go; peel_from (rf s rsp).
  all: rewrite Z.add_0_r; same.
Qed.

Lemma sysv_save_fp s :
  preserve sysv_switch s = true ->
  let out := run jump_save_sysv s in
  load 64 4 (rf out rsp) (mem out) = wrap 32 (rf s mxcsr)
  /\ load 64 2 (rf out rsp + 4) (mem out) = wrap 16 (rf s fcw).
Proof.
  intros E. flag_hyp E. cbv zeta. split; go; peel_from (rf s rsp); bytes.
Qed.

Lemma sysv_restore_fp m :
  (wrap 64 (rf m rcx) =? 0) = false ->
  let m' := run jump_restore_sysv m in
  rf m' mxcsr = load 64 4 (rf m rsp) (mem m)
  /\ rf m' fcw = load 64 2 (rf m rsp + 4) (mem m).
Proof.
  intros E. flag_forms E. cbv zeta. split; go.
  - apply load_congr. now rewrite Z.add_0_r.
  - same.
Qed.

(** What the outgoing side writes lies in the 56 bytes below its stack
    pointer and in [*from_storage]. *)
Lemma sysv_outgoing_skips s a n :
  (0 < n)%nat ->
  disjoint 64 a (Z.of_nat n) (rf s rsp + -56) 56 = true ->
  disjoint 64 a (Z.of_nat n) (rf s rdi) 8 = true ->
  load 64 n a (mem (run (jump_save_sysv ++ jump_switch_sysv) s))
  = load 64 n a (mem s).
Proof.
  intros Hn H H'. go.
  all: skip_from (rf s rsp) (-56) 56 H (rf s rdi) H'; same.
Qed.
End SysV.

Lemma load_intact bits ctx size m m' off n :
  intact bits ctx size m m' ->
  0 <= off -> off + Z.of_nat n <= size ->
  load bits n (ctx + off) m' = load bits n (ctx + off) m.
Proof.
  intros H Hoff Hle. apply load_ext. intros i Hi.
  rewrite <- Z.add_assoc. apply H. lia.
Qed.

Section SysVRoundTrip.
Import X86_64.

Lemma sysv_switch_mem out :
  mem (run jump_switch_sysv out)
  = store 64 8 (rf out rdi) (rf out rsp) (mem out).
Proof.
  go. apply store_congr. now rewrite Z.add_0_r.
Qed.

Lemma sysv_save_keeps_rdi s : rf (run jump_save_sysv s) rdi = rf s rdi.
Proof. go; same. Qed.

Lemma sysv_jump_mem s :
  mem (jump_sysv s)
  = store 64 8 (rf s rdi) (rf (run jump_save_sysv s) rsp)
      (mem (run jump_save_sysv s)).
Proof.
  unfold jump_sysv. rewrite run_three.
  destruct (sysv_restore_control
              (run (jump_save_sysv ++ jump_switch_sysv) s))
    as (_ & _ & _ & _ & ->).
  rewrite run_app, sysv_switch_mem. now rewrite sysv_save_keeps_rdi.
Qed.

Variables a b : st.
Let ctx := rf (run jump_save_sysv a) rsp.
Hypothesis to_published : rf b rsi = load 64 8 (rf a rdi) (mem (jump_sysv a)).
Hypothesis frame_intact :
  intact 64 ctx sysv_context_size (mem (jump_sysv a)) (mem b).
Hypothesis storage_outside :
  disjoint 64 ctx sysv_context_size (rf a rdi) 8 = true.
Hypothesis stack_outside :
  disjoint 64 ctx sysv_context_size (rf b rsp + -56) 56 = true.
Hypothesis storage_outside' :
  disjoint 64 ctx sysv_context_size (rf b rdi) 8 = true.

Lemma sysv_back_pointer : rf b rsi = ctx.
Proof.
  rewrite to_published, sysv_jump_mem.
  rewrite load_store_same by (first [lia | vm_compute; discriminate]).
  unfold ctx. rewrite sysv_save_pointer. bytes.
Qed.

Lemma sysv_slot_back off n :
  0 <= off -> (0 < n)%nat -> off + Z.of_nat n <= sysv_context_size ->
  let mid := run (jump_save_sysv ++ jump_switch_sysv) b in
  load 64 n (rf mid rsp + off) (mem mid)
  = load 64 n (ctx + off) (mem (run jump_save_sysv a)).
Proof.
  intros Hoff Hn Hle. cbv zeta.
  destruct (sysv_outgoing_regs b) as (-> & _ & _).
  rewrite sysv_back_pointer.
  rewrite sysv_outgoing_skips;
    [ | exact Hn
      | apply (disjoint_sub 64 ltac:(lia) ctx sysv_context_size); [assumption|lia..]
      | apply (disjoint_sub 64 ltac:(lia) ctx sysv_context_size); [assumption|lia..] ].
  rewrite (load_intact 64 ctx sysv_context_size (mem (jump_sysv a)))
    by (first [assumption | lia]).
  rewrite sysv_jump_mem.
  apply load_store_other; [lia|].
  apply (disjoint_sub 64 ltac:(lia) ctx sysv_context_size); [assumption|lia..].
Qed.

Lemma sysv_round_trip_regs :
  Forall (fun f => rf (jump_sysv b) (fst f) = wrap 64 (rf a (fst f)))
         sysv_saved.
Proof.
  apply Forall_forall. intros [r off] Hin.
  unfold jump_sysv. rewrite run_three.
  pose proof (sysv_restore_frame
                (run (jump_save_sysv ++ jump_switch_sysv) b)) as R.
  rewrite Forall_forall in R. rewrite (R _ Hin). cbn [fst snd].
  pose proof (sysv_save_frame a) as S. cbv zeta in S.
  rewrite Forall_forall in S. specialize (S _ Hin). cbn [fst snd] in S.
  rewrite <- S.
  apply sysv_slot_back.
  all: unfold sysv_saved in Hin; cbn [In] in Hin.
  all: repeat (destruct Hin as [Hin|Hin]; [inversion Hin; subst|]);
    try (destruct Hin); unfold sysv_context_size; cbn; lia.
Qed.

Lemma sysv_round_trip_control :
  rf (jump_sysv b) rip = load 64 8 (rf a rsp) (mem a)
  /\ rf (jump_sysv b) rsp = wrap 64 (rf a rsp + 8)
  /\ rf (jump_sysv b) rax = rf b rdx.
Proof.
  unfold jump_sysv. rewrite run_three.
  destruct (sysv_restore_control
              (run (jump_save_sysv ++ jump_switch_sysv) b))
    as (-> & -> & -> & _ & _).
  repeat split.
  - rewrite sysv_slot_back
      by (unfold sysv_return_slot, sysv_context_size; cbn; lia).
    apply sysv_save_return.
  - destruct (sysv_outgoing_regs b) as (-> & _ & _).
    rewrite sysv_back_pointer. unfold ctx. rewrite sysv_save_pointer.
    unfold sysv_context_size. repeat norm_wrap_step. same.
  - now destruct (sysv_outgoing_regs b) as (_ & -> & _).
Qed.

Lemma sysv_round_trip_fp :
  preserve sysv_switch a = true -> preserve sysv_switch b = true ->
  rf (jump_sysv b) mxcsr = wrap 32 (rf a mxcsr)
  /\ rf (jump_sysv b) fcw = wrap 16 (rf a fcw).
Proof.
  intros Ea Eb. unfold jump_sysv. rewrite run_three.
  assert (F : (wrap 64 (rf (run (jump_save_sysv ++ jump_switch_sysv) b) rcx)
               =? 0) = false).
  { destruct (sysv_outgoing_regs b) as (_ & _ & ->).
    unfold preserve in Eb. now apply negb_true_iff in Eb. }
  destruct (sysv_restore_fp _ F) as [-> ->].
  destruct (sysv_save_fp a Ea) as [M C]. fold ctx in M, C.
  rewrite <- M, <- C. split.
  - rewrite <- (Z.add_0_r (rf _ rsp)).
    rewrite sysv_slot_back by (unfold sysv_context_size; cbn; lia).
    now rewrite Z.add_0_r.
  - apply sysv_slot_back; unfold sysv_context_size; cbn; lia.
Qed.
End SysVRoundTrip.

Section SysVEntry.
Import X86_64.

Lemma sysv_jump_keeps s a n :
  (0 < n)%nat ->
  disjoint 64 a (Z.of_nat n) (rf s rsp + -56) 56 = true ->
  disjoint 64 a (Z.of_nat n) (rf s rdi) 8 = true ->
  load 64 n a (mem (jump_sysv s)) = load 64 n a (mem s).
Proof.
  intros Hn H H'. unfold jump_sysv. rewrite run_three.
  destruct (sysv_restore_control
              (run (jump_save_sysv ++ jump_switch_sysv) s))
    as (_ & _ & _ & _ & ->).
  now apply sysv_outgoing_skips.
Qed.

Lemma sysv_jump_delivers s :
  rf (jump_sysv s) rax = rf s rdx /\ rf (jump_sysv s) rdi = rf s rdx.
Proof.
  unfold jump_sysv. rewrite run_three.
  destruct (sysv_restore_control
              (run (jump_save_sysv ++ jump_switch_sysv) s))
    as (_ & _ & -> & -> & _).
  destruct (sysv_outgoing_regs s) as (_ & -> & _). now split.
Qed.

Lemma sysv_jump_enters s :
  disjoint 64 (rf s rsi + sysv_return_slot) 8 (rf s rsp + -56) 56 = true ->
  disjoint 64 (rf s rsi + sysv_return_slot) 8 (rf s rdi) 8 = true ->
  rf (jump_sysv s) rip = load 64 8 (rf s rsi + sysv_return_slot) (mem s)
  /\ rf (jump_sysv s) rsp = wrap 64 (rf s rsi + sysv_context_size).
Proof.
  intros H H'. unfold jump_sysv. rewrite run_three.
  destruct (sysv_restore_control
              (run (jump_save_sysv ++ jump_switch_sysv) s))
    as (-> & -> & _).
  destruct (sysv_outgoing_regs s) as (-> & _ & _).
  split; [|reflexivity].
  now apply (sysv_outgoing_skips s _ 8%nat); [lia| |].
Qed.
End SysVEntry.

Section ContextClaims.
Import X86_64.

(** C2. Round trip on x86-64 System V (linux_x86_64, apple_x86_64):
  context [a] jumps away, and some context [b] later jumps to the
  pointer that jump published in [*from_storage].  If the 0x40 bytes of
  the saved context still read as [a]'s jump left them, and [a]'s
  [from_storage], [b]'s save area and [b]'s [from_storage] lie outside
  them, then [b]'s jump reloads every register [a]'s jump saved with
  the value it had: rbx, rbp, r12-r15, the stack pointer as after the
  return of [a]'s call, the return address of that call as program
  counter, and, when both jumps pass a true [preserve_fpu], MXCSR and
  the x87 control word. *)
Theorem C2_round_trip (a b : st) :
let ctx := rf (run jump_save_sysv a) rsp in
rf b rsi = load 64 8 (rf a rdi) (mem (linux_x86_64.bthread_jump_fcontext a)) ->
intact 64 ctx sysv_context_size
       (mem (linux_x86_64.bthread_jump_fcontext a)) (mem b) ->
disjoint 64 ctx sysv_context_size (rf a rdi) 8 = true ->
disjoint 64 ctx sysv_context_size (rf b rsp + -56) 56 = true ->
disjoint 64 ctx sysv_context_size (rf b rdi) 8 = true ->
let a' := linux_x86_64.bthread_jump_fcontext b in
Forall (fun f => rf a' (fst f) = wrap 64 (rf a (fst f))) sysv_saved
/\ rf a' rsp = wrap 64 (rf a rsp + 8)
/\ rf a' rip = load 64 8 (rf a rsp) (mem a)
/\ (if preserve sysv_switch a && preserve sysv_switch b
    then rf a' mxcsr = wrap 32 (rf a mxcsr)
         /\ rf a' fcw = wrap 16 (rf a fcw)
    else True).
Proof.
intros ctx H1 H2 H3 H4 H5 a'. subst a'.
unfold linux_x86_64.bthread_jump_fcontext in *.
split; [now apply sysv_round_trip_regs|].
destruct (sysv_round_trip_control a b H1 H2 H3 H4 H5) as (R1 & R2 & _).
split; [exact R2|]. split; [exact R1|].
destruct (preserve sysv_switch a) eqn:Ea;
  destruct (preserve sysv_switch b) eqn:Eb; cbn [andb]; try exact I.
now apply sysv_round_trip_fp.
Qed.

Lemma C2_round_trip_witness :
disjoint 64 (rf (run jump_save_sysv sysv_sample_a) rsp) sysv_context_size
         (rf sysv_sample_b rsp + -56) 56 = true
/\ (let a' := linux_x86_64.bthread_jump_fcontext sysv_sample_b in
    Forall (fun f => rf a' (fst f) = wrap 64 (rf sysv_sample_a (fst f)))
           sysv_saved
    /\ rf a' rsp = wrap 64 (rf sysv_sample_a rsp + 8)
    /\ rf a' rip = load 64 8 (rf sysv_sample_a rsp) (mem sysv_sample_a)
    /\ (if preserve sysv_switch sysv_sample_a
            && preserve sysv_switch sysv_sample_b
        then rf a' mxcsr = wrap 32 (rf sysv_sample_a mxcsr)
             /\ rf a' fcw = wrap 16 (rf sysv_sample_a fcw)
        else True)).
Proof.
split; [vm_compute; reflexivity|].
apply (C2_round_trip sysv_sample_a sysv_sample_b).
- vm_compute; reflexivity.
- intros i Hi. reflexivity.
- vm_compute; reflexivity.
- vm_compute; reflexivity.
- vm_compute; reflexivity.
Defined.

(** C5. On x86-64 System V a jump hands [transfer_value] (rdx) to the
  target in rax, where a suspended [bthread_jump_fcontext] call finds
  its return value, and in rdi, where an entry function finds its first
  parameter.  When the slot at offset 0x38 of the target context lies
  outside what the jump itself writes, control continues at the
  address in that slot: [bthread_make_fcontext] puts the entry function
  there, a suspended jump left the return address of its call there. *)
Theorem C5_transfer_value (s : st) :
let to := rf s rsi in
disjoint 64 (to + sysv_return_slot) 8 (rf s rsp + -56) 56 = true ->
disjoint 64 (to + sysv_return_slot) 8 (rf s rdi) 8 = true ->
let s' := linux_x86_64.bthread_jump_fcontext s in
rf s' rax = rf s rdx
/\ rf s' rdi = rf s rdx
/\ rf s' rip = load 64 8 (to + sysv_return_slot) (mem s)
/\ (forall finish_addr m,
      let fresh := linux_x86_64.bthread_make_fcontext finish_addr m in
      load 64 8 (rf fresh rax + sysv_return_slot) (mem fresh)
      = wrap 64 (rf m rdx))
/\ (forall a,
      let out := run jump_save_sysv a in
      load 64 8 (rf out rsp + sysv_return_slot) (mem out)
      = load 64 8 (rf a rsp) (mem a)).
Proof.
intros to H H' s'. subst s' to.
unfold linux_x86_64.bthread_jump_fcontext.
destruct (sysv_jump_delivers s) as [-> ->].
destruct (sysv_jump_enters s H H') as [-> _].
repeat split.
- intros f m. cbv zeta.
  now destruct (make_linux_x86_64_slots f m) as (E & _).
- intros a. apply sysv_save_return.
Qed.

Lemma C5_transfer_value_witness :
disjoint 64 (rf sysv_sample_b rsi + sysv_return_slot) 8
         (rf sysv_sample_b rsp + -56) 56 = true
/\ rf (linux_x86_64.bthread_jump_fcontext sysv_sample_b) rax = 9
/\ rf (linux_x86_64.bthread_jump_fcontext sysv_sample_b) rip
   = load 64 8 (rf sysv_sample_b rsi + sysv_return_slot)
       (mem sysv_sample_b).
Proof.
split; [vm_compute; reflexivity|].
destruct (C5_transfer_value sysv_sample_b) as (A & _ & P & _).
- vm_compute; reflexivity.
- vm_compute; reflexivity.
- split; [exact A | exact P].
Defined.

(** C10. [bthread_make_fcontext] of linux_x86_64 and of linux_arm64, for
  every stack top: the pointer it returns is the 16-byte boundary at or
  below the top, less 0x48 (x86_64) or 0xb0 (arm64), in 64-bit
  arithmetic; every byte of memory it changes lies in the 0x48 (0xb0)
  bytes starting at that pointer; the entry function and the address
  of [finish] are at offsets 0x38 and 0x40 (0xa0 and 0x98). *)
Theorem C10_make_context :
(forall finish_addr s,
   let s' := linux_x86_64.bthread_make_fcontext finish_addr s in
   let ctx := rf s' rax in
   ctx = wrap 64 (16 * (wrap 64 (rf s rdi) / 16) - 0x48)
   /\ (forall x, mem s' x = mem s x \/ within 64 ctx 0x48 x)
   /\ load 64 8 (ctx + 0x38) (mem s') = wrap 64 (rf s rdx)
   /\ load 64 8 (ctx + 0x40) (mem s') = wrap 64 finish_addr)
/\ (forall finish_addr s,
      let s' := linux_arm64.bthread_make_fcontext finish_addr s in
      let ctx := rf s' ARM64.x0 in
      ctx = wrap 64 (16 * (wrap 64 (rf s ARM64.x0) / 16) - 0xb0)
      /\ (forall x, mem s' x = mem s x \/ within 64 ctx 0xb0 x)
      /\ load 64 8 (ctx + 0xa0) (mem s') = wrap 64 (rf s ARM64.x2)
      /\ load 64 8 (ctx + 0x98) (mem s') = wrap 64 finish_addr).
Proof.
split; intros f s; cbv zeta.
- split; [apply make_linux_x86_64_pointer|].
  split; [intros x; apply make_linux_x86_64_frame|].
  destruct (make_linux_x86_64_slots f s) as (A & B & _). now split.
- split; [apply make_linux_arm64_pointer|].
  split; [intros x; apply make_linux_arm64_frame|].
  apply make_linux_arm64_slots.
Qed.

(** C9. What each [finish] does, from every state: on linux_i386,
  linux_x86_64, apple_x86_64, apple_i386, linux_arm32 and linux_arm64
  it calls the C function [_exit] with status 0; on windows_i386 the
  symbol it calls is the C function [exit], which runs the cleanup
  handlers; on windows_x86_64 it calls the literal address 0x63 and no
  function of the C library. *)
Theorem C9_finish_exit :
forall p, finish_ends p (finish_ending p).
Proof. exact finish_ends_all. Qed.

(** C4. The flag decides on seven of the eight variants: with a true
  [preserve_fpu] the outgoing side stores, and the incoming side
  reloads, the floating-point state the routine names (MXCSR and the
  x87 control word on x86, also xmm6-xmm15 on windows_x86_64, d8-d15 on
  linux_arm32); with a false one these registers cross the switch
  unchanged and no byte the outgoing side leaves in memory depends on
  them.  linux_arm64 ignores the flag: d8-d15 are stored and reloaded
  on every call. *)
Theorem C4_fp_flag :
forall p,
  match p with
  | PLATFORM_linux_arm64 => fp_always (switch_of p)
  | _ => fp_gated (switch_of p)
  end.
Proof.
destruct p; cbn [switch_of].
- exact fp_gated_windows_i386.
- exact fp_gated_windows_x86_64.
- exact fp_gated_cdecl.
- exact fp_gated_sysv.
- exact fp_gated_sysv.
- exact fp_gated_cdecl.
- exact fp_gated_linux_arm32.
- exact fp_always_linux_arm64.
Qed.

(** C4, counterexample: a linux_arm64 jump whose [preserve_fpu] is
  false, with 1 in d8 and zeros in the target context, stores the 1 and
  comes out with 0 in d8; so the flag does not decide on every
  variant. *)
Lemma C4_counterexample_linux_arm64 :
preserve linux_arm64_switch arm64_sample = false
/\ mem (run linux_arm64.jump_save arm64_sample) (0x8000 - 0xb0) = 1
/\ rf arm64_sample ARM64.d8 = 1
/\ rf (linux_arm64.bthread_jump_fcontext arm64_sample) ARM64.d8 = 0
/\ ((forall p, fp_gated (switch_of p)) -> False).
Proof.
split; [reflexivity|]. split; [vm_compute; reflexivity|].
split; [reflexivity|]. split; [vm_compute; reflexivity|].
intros H. specialize (H PLATFORM_linux_arm64 arm64_sample).
cbn [switch_of] in H.
change (preserve linux_arm64_switch arm64_sample) with false in H.
destruct H as [K _]. inversion K as [|f l K8 _]. subst.
unfold kept_one in K8. vm_compute in K8. discriminate K8.
Qed.
End ContextClaims.

Module brpc_facts.
Import brpc.

Lemma calls_on_app p t u :
  calls_on p (t ++ u) = (calls_on p t + calls_on p u)%nat.
Proof. unfold calls_on. now rewrite filter_app, length_app. Qed.

Lemma deleter_live p o w :
  heap w p = Some o ->
  details.SocketMessageDeleter (Some p) w
  = Some (World (free p (heap w))
                (trace w ++ [Call_AppendAndDestroySelf p [] None])).
Proof.
  intros H. unfold details.SocketMessageDeleter, call_AppendAndDestroySelf.
  rewrite H. now destruct (AppendAndDestroySelf EstimatedByteSize (fields o) [] None).
Qed.

Lemma free_gone p h : free p h p = None.
Proof. unfold free. now rewrite Nat.eqb_refl. Qed.
End brpc_facts.

Section BrpcClaims.
Import brpc brpc_facts.

(** C1. A [SocketMessagePtr] that owns a live message and is destroyed,
  or reset, makes exactly one more [AppendAndDestroySelf] call on that
  message, into an empty buffer and with a null socket; the world it
  leaves is the same whatever status the call returned, and the
  message is gone from the heap, so no second call can follow. *)
Theorem C1_abandoned_message (p : nat) (o : object) (w : world)
  (q : pointer) :
heap w p = Some o ->
let after := World (free p (heap w))
                   (trace w ++ [Call_AppendAndDestroySelf p [] None]) in
unique_ptr_destroy (SocketMessagePtr_void_from (Some p)) w = Some after
/\ unique_ptr_reset (SocketMessagePtr_void_from (Some p)) q w
   = Some (Owner q, after)
/\ calls_on p (trace after) = S (calls_on p (trace w))
/\ heap after p = None
/\ call_AppendAndDestroySelf (Some p) [] None after = None.
Proof.
intros H after.
assert (D : details.SocketMessageDeleter (Some p) w = Some after)
  by now apply deleter_live with (o := o).
repeat split.
- exact D.
- unfold unique_ptr_reset. cbn [get SocketMessagePtr_void_from].
  now rewrite D.
- subst after. cbn [trace]. rewrite calls_on_app.
  unfold calls_on at 2. cbn [filter is_call_on].
  rewrite Nat.eqb_refl. cbn [List.length]. lia.
- apply free_gone.
- unfold call_AppendAndDestroySelf. subst after. cbn [heap].
  now rewrite free_gone.
Qed.

Lemma C1_abandoned_message_witness :
heap brpc_samples.one_message 4 = Some brpc_samples.frame_object
/\ unique_ptr_destroy (SocketMessagePtr_void_from (Some 4%nat))
                      brpc_samples.one_message
   = Some (World (free 4 (heap brpc_samples.one_message))
                 [Call_AppendAndDestroySelf 4 [] None]).
Proof.
split; [reflexivity|].
destruct (C1_abandoned_message 4 brpc_samples.frame_object
            brpc_samples.one_message null) as (D & _).
- reflexivity.
- exact D.
Defined.

(** C6. For every message class [T], handing a [SocketMessagePtr<T>]
  over as a [SocketMessagePtr<>] gives a wrapper that owns the same
  message and leaves the typed one empty, so wrappers of different
  classes fit one list; [operator*], [operator->] and [release] give
  the stored pointer at static type [T], and [release] leaves the
  wrapper empty. *)
Theorem C6_type_erasure :
forall (T : Type) (u : SocketMessagePtr T),
  get (fst (move_as_void u)) = get (as_void u)
  /\ get (as_void (snd (move_as_void u))) = null
  /\ untyped (deref u) = get (as_void u)
  /\ untyped (arrow u) = get (as_void u)
  /\ untyped (fst (release u)) = get (as_void u)
  /\ get (as_void (snd (release u))) = null
  /\ forall (T' : Type) (u' : SocketMessagePtr T'),
       map get [fst (move_as_void u); fst (move_as_void u')]
       = [get (as_void u); get (as_void u')].
Proof.
intros T u. repeat split.
Qed.




(** C8. Destroying or resetting an empty wrapper leaves the world as it
  is: no call is recorded.  Releasing or moving from one gives null
  and leaves it empty.  The deleter itself is undefined on null, and
  neither the destructor nor [reset] ever hands it one: after a
  default construction, a release or a move the wrapper is destroyed
  without a call. *)
Theorem C8_empty_wrapper :
forall (w : world) (p : pointer) (u : unique_ptr),
  unique_ptr_destroy SocketMessagePtr_void_default w = Some w
  /\ unique_ptr_reset SocketMessagePtr_void_default p w = Some (Owner p, w)
  /\ unique_ptr_release SocketMessagePtr_void_default = (null, Owner null)
  /\ unique_ptr_move SocketMessagePtr_void_default = (Owner null, Owner null)
  /\ details.SocketMessageDeleter null w = None
  /\ unique_ptr_destroy (snd (unique_ptr_release u)) w = Some w
  /\ unique_ptr_destroy (snd (unique_ptr_move u)) w = Some w
  /\ (forall T : Type,
        unique_ptr_destroy (as_void (SocketMessagePtr_default T)) w = Some w).
Proof.
intros w p u. repeat split.
Qed.
End BrpcClaims.

(** Every store of the goal's memory falls inside one of two frames, the
    first at [base + lo]. *)
Ltac frames_step base lo len :=
  lazymatch goal with
  | |- store ?b ?n ?B ?v ?m ?x = _ \/ _ =>
      lazymatch B with
      | base + ?c =>
          let E := fresh "E" in
          let W := fresh "W" in
          destruct (store_in_frame b n base c v m x lo len eq_refl) as [E|W];
          [ rewrite E; clear E | right; left; exact W ]
      | _ => addr_fact b B base
               ltac:(fun c E => rewrite (store_congr b n B (base + c) v m E))
      end
  end.
Ltac in_frames base lo len := repeat frames_step base lo len; left; same.

Section SysVExtras.
Import X86_64.

Lemma sysv_save_footprint s x :
mem (run jump_save_sysv s) x = mem s x
\/ within 64 (rf s rsp + -56) 56 x \/ within 64 (rf s rdi) 8 x.
Proof. go; in_frames (rf s rsp) (-56) 56. Qed.

(** X1. [bthread_jump_fcontext] of linux_x86_64 and apple_x86_64 changes
  no byte of memory outside the 56 bytes below the caller's stack
  pointer and the 8 bytes of [*from_storage]. *)
Theorem X_sysv_jump_footprint (s : st) (x : Z) :
mem (linux_x86_64.bthread_jump_fcontext s) x = mem s x
\/ within 64 (rf s rsp + -56) 56 x
\/ within 64 (rf s rdi) 8 x.
Proof.
unfold linux_x86_64.bthread_jump_fcontext. rewrite sysv_jump_mem.
destruct (store_or_within 64 8 (rf s rdi)
            (rf (run jump_save_sysv s) rsp)
            (mem (run jump_save_sysv s)) x) as [E|W].
- rewrite E. apply sysv_save_footprint.
- right. right. exact W.
Qed.

(** X2. After the jump [*from_storage] holds the caller's stack pointer
  less 56, and, when [*from_storage] lies outside the 0x40 bytes from
  there, those bytes hold r12, r13, r14, r15, rbx and rbp at offsets
  0x8 to 0x30 and the return address of the call at 0x38. *)
Theorem X_sysv_saved_context (s : st) :
let ctx := wrap 64 (rf s rsp - 56) in
let m' := mem (linux_x86_64.bthread_jump_fcontext s) in
disjoint 64 ctx sysv_context_size (rf s rdi) 8 = true ->
load 64 8 (rf s rdi) m' = ctx
/\ Forall (fun f => load 64 8 (ctx + snd f) m' = wrap 64 (rf s (fst f)))
          sysv_saved
/\ load 64 8 (ctx + sysv_return_slot) m' = load 64 8 (rf s rsp) (mem s).
Proof.
intros ctx m' H. subst m'. unfold linux_x86_64.bthread_jump_fcontext.
assert (C : rf (run jump_save_sysv s) rsp = ctx)
  by (rewrite sysv_save_pointer; reflexivity).
split; [|split].
- rewrite sysv_jump_mem.
  rewrite load_store_same by (first [lia | vm_compute; discriminate]).
  rewrite C. unfold ctx. bytes.
- apply Forall_forall. intros [r off] Hin. cbn [fst snd].
  rewrite sysv_jump_mem.
  rewrite load_store_other;
    [ | lia
      | apply (disjoint_sub 64 ltac:(lia) ctx sysv_context_size);
        [ exact H | .. ];
        unfold sysv_saved in Hin; cbn [In] in Hin;
        repeat (destruct Hin as [Hin|Hin]; [inversion Hin; subst|]);
        try (destruct Hin); unfold sysv_context_size; cbn; lia ].
  pose proof (sysv_save_frame s) as S. cbv zeta in S.
  rewrite Forall_forall in S. specialize (S _ Hin). cbn [fst snd] in S.
  rewrite C in S. exact S.
- rewrite sysv_jump_mem.
  rewrite load_store_other;
    [ | lia
      | apply (disjoint_sub 64 ltac:(lia) ctx sysv_context_size);
        [ exact H | unfold sysv_return_slot, sysv_context_size; cbn; lia .. ] ].
  rewrite <- C. apply sysv_save_return.
Qed.

Lemma X_sysv_saved_context_witness :
disjoint 64 (wrap 64 (rf sysv_sample_a rsp - 56)) sysv_context_size
         (rf sysv_sample_a rdi) 8 = true
/\ load 64 8 (rf sysv_sample_a rdi)
        (mem (linux_x86_64.bthread_jump_fcontext sysv_sample_a))
   = wrap 64 (rf sysv_sample_a rsp - 56).
Proof.
split; [vm_compute; reflexivity|].
destruct (X_sysv_saved_context sysv_sample_a) as (P & _).
- vm_compute; reflexivity.
- exact P.
Defined.
End SysVExtras.

Section SysVFresh.
Import X86_64.

(** X3. A first jump into a context made by [bthread_make_fcontext]
  (linux_x86_64): if the 0x48 bytes of the context still read as
  [bthread_make_fcontext] left them and lie outside what the jump
  writes, the entry function starts with [transfer_value] as its first
  parameter, its return address is [finish], and with a true
  [preserve_fpu] MXCSR and the x87 control word are those captured
  when the context was made. *)
Theorem X_sysv_fresh_entry (finish_addr : Z) (m s : st) :
let made := linux_x86_64.bthread_make_fcontext finish_addr m in
let ctx := rf made rax in
rf s rsi = ctx ->
intact 64 ctx 0x48 (mem made) (mem s) ->
disjoint 64 ctx 0x48 (rf s rsp + -56) 56 = true ->
disjoint 64 ctx 0x48 (rf s rdi) 8 = true ->
let e := linux_x86_64.bthread_jump_fcontext s in
rf e rip = wrap 64 (rf m rdx)
/\ rf e rdi = rf s rdx
/\ rf (ret e) rip = wrap 64 finish_addr
/\ (if preserve sysv_switch s
    then rf e mxcsr = wrap 32 (rf m mxcsr) /\ rf e fcw = wrap 16 (rf m fcw)
    else rf e mxcsr = rf s mxcsr /\ rf e fcw = rf s fcw).
Proof.
intros made ctx Hto Hint Hst Hfs e. subst e.
unfold linux_x86_64.bthread_jump_fcontext.
destruct (make_linux_x86_64_slots finish_addr m) as (S1 & S2 & S3 & S4).
fold made in S1, S2, S3, S4. fold ctx in S1, S2, S3, S4.
assert (K : forall off n, 0 <= off -> (0 < n)%nat ->
              off + Z.of_nat n <= 0x48 ->
              load 64 n (ctx + off)
                   (mem (run (jump_save_sysv ++ jump_switch_sysv) s))
              = load 64 n (ctx + off) (mem made)).
{ intros off n Hoff Hn Hle.
  rewrite sysv_outgoing_skips;
    [ | exact Hn
      | apply (disjoint_sub 64 ltac:(lia) ctx 0x48); [assumption|lia..]
      | apply (disjoint_sub 64 ltac:(lia) ctx 0x48); [assumption|lia..] ].
  apply (load_intact 64 ctx 0x48); [assumption|lia..]. }
destruct (sysv_jump_delivers s) as [_ D].
split; [|split; [exact D|split]].
- unfold jump_sysv. rewrite run_three.
  destruct (sysv_restore_control
              (run (jump_save_sysv ++ jump_switch_sysv) s)) as (-> & _).
  destruct (sysv_outgoing_regs s) as (-> & _ & _).
  rewrite Hto. unfold sysv_return_slot.
  rewrite K by (cbn; lia). exact S1.
- unfold ret. cbn [run fold_left assign setr rf mem reg_eqb reg_index Nat.eqb].
  unfold jump_sysv. rewrite run_three.
  destruct (sysv_restore_control
              (run (jump_save_sysv ++ jump_switch_sysv) s))
    as (_ & -> & _ & _ & ->).
  destruct (sysv_outgoing_regs s) as (-> & _ & _).
  rewrite Hto. unfold sysv_context_size. rewrite load_wrap by lia.
  rewrite K by (cbn; lia). exact S2.
- destruct (preserve sysv_switch s) eqn:E.
  + unfold jump_sysv. rewrite run_three.
    assert (F : (wrap 64 (rf (run (jump_save_sysv ++ jump_switch_sysv) s)
                             rcx) =? 0) = false).
    { destruct (sysv_outgoing_regs s) as (_ & _ & ->).
      unfold preserve in E. now apply negb_true_iff in E. }
    destruct (sysv_restore_fp _ F) as [-> ->].
    destruct (sysv_outgoing_regs s) as (-> & _ & _).
    rewrite Hto. split.
    * rewrite <- (Z.add_0_r ctx). rewrite K by (cbn; lia).
      rewrite Z.add_0_r. exact S3.
    * rewrite K by (cbn; lia). exact S4.
  + pose proof (fp_gated_sysv s) as G. rewrite E in G.
    destruct G as [G _]. inversion G as [|? ? G1 G']. subst.
    inversion G' as [|? ? G2 _]. subst.
    unfold kept_one, jump in G1, G2. cbn [fst sw_save sw_switch sw_restore
                                          sysv_switch] in G1, G2.
    split; [exact G1 | exact G2].
Qed.

Lemma X_sysv_fresh_entry_witness :
rf sysv_sample_first_jump rsi
= rf (linux_x86_64.bthread_make_fcontext 0x400100 sysv_sample_maker) rax
/\ rf (linux_x86_64.bthread_jump_fcontext sysv_sample_first_jump) rip
   = wrap 64 (rf sysv_sample_maker rdx)
/\ rf (ret (linux_x86_64.bthread_jump_fcontext sysv_sample_first_jump)) rip
   = wrap 64 0x400100.
Proof.
split; [vm_compute; reflexivity|].
destruct (X_sysv_fresh_entry 0x400100 sysv_sample_maker
            sysv_sample_first_jump) as (P & _ & R & _).
- vm_compute; reflexivity.
- intros i Hi. reflexivity.
- vm_compute; reflexivity.
- vm_compute; reflexivity.
- split; [exact P | exact R].
Defined.
End SysVFresh.

Section Arm64Stretches.
Import ARM64.
Import linux_arm64.

Lemma arm64_restore_frame m :
Forall (fun f => rf (run jump_restore m) (fst f)
                 = load 64 8 (rf m sp + snd f) (mem m)) arm64_saved.
Proof.
unfold arm64_saved. each_fp.
all: cbn [fst snd]; go; first [same | norm; same].
Qed.

Lemma arm64_restore_control m :
let m' := run jump_restore m in
rf m' pc = load 64 8 (rf m sp + arm64_pc_slot) (mem m)
/\ rf m' sp = wrap 64 (rf m sp + arm64_context_size)
/\ rf m' x0 = rf m x2
/\ mem m' = mem m.
Proof.
cbv zeta. unfold arm64_pc_slot, arm64_context_size.
repeat split; go; first [same | norm; same | repeat norm_wrap_step; same].
Qed.

Lemma arm64_outgoing_regs s :
let mid := run (jump_save ++ jump_switch) s in
rf mid sp = rf s x1 /\ rf mid x2 = rf s x2.
Proof. cbv zeta. repeat split; go; same. Qed.

Lemma arm64_save_pointer s :
rf (run jump_save s) sp = wrap 64 (rf s sp + - 176).
Proof. go; repeat norm_wrap_step; same. Qed.

Lemma arm64_save_keeps_x0 s : rf (run jump_save s) x0 = rf s x0.
Proof. go; same. Qed.

Lemma arm64_save_frame s :
let out := run jump_save s in
Forall (fun f => load 64 8 (rf out sp + snd f) (mem out)
                 = wrap 64 (rf s (fst f))) arm64_saved.
Proof.
cbv zeta. unfold arm64_saved. each_fp.
all: cbn [fst snd]; go; peel_from (rf s sp); bytes.
Qed.

Lemma arm64_save_pc s :
let out := run jump_save s in
load 64 8 (rf out sp + arm64_pc_slot) (mem out) = wrap 64 (rf s x30).
Proof.
cbv zeta. unfold arm64_pc_slot. go; peel_from (rf s sp); bytes.
Qed.

Lemma arm64_switch_mem out :
mem (run jump_switch out) = store 64 8 (rf out x0) (rf out sp) (mem out).
Proof. go. apply store_congr. now rewrite Z.add_0_r. Qed.

Lemma arm64_jump_mem s :
mem (bthread_jump_fcontext s)
= store 64 8 (rf s x0) (rf (run jump_save s) sp) (mem (run jump_save s)).
Proof.
unfold bthread_jump_fcontext. rewrite run_three.
destruct (arm64_restore_control (run (jump_save ++ jump_switch) s))
  as (_ & _ & _ & ->).
rewrite run_app, arm64_switch_mem. now rewrite arm64_save_keeps_x0.
Qed.

Lemma arm64_outgoing_skips s a n :
(0 < n)%nat ->
disjoint 64 a (Z.of_nat n) (rf s sp + -176) 176 = true ->
disjoint 64 a (Z.of_nat n) (rf s x0) 8 = true ->
load 64 n a (mem (run (jump_save ++ jump_switch) s)) = load 64 n a (mem s).
Proof.
intros Hn H H'. go.
all: skip_from (rf s sp) (-176) 176 H (rf s x0) H'; same.
Qed.

Lemma arm64_save_footprint s x :
mem (run jump_save s) x = mem s x
\/ within 64 (rf s sp + -176) 176 x \/ within 64 (rf s x0) 8 x.
Proof. go; in_frames (rf s sp) (-176) 176. Qed.
End Arm64Stretches.

Section Arm64Extras.
Import ARM64.
Import linux_arm64.

(** X4. [bthread_jump_fcontext] of linux_arm64 changes no byte of memory
  outside the 0xb0 bytes below the caller's stack pointer and the 8
  bytes of [*from_storage]. *)
Theorem X_arm64_jump_footprint (s : st) (x : Z) :
mem (bthread_jump_fcontext s) x = mem s x
\/ within 64 (rf s sp + -176) 176 x
\/ within 64 (rf s x0) 8 x.
Proof.
rewrite arm64_jump_mem.
destruct (store_or_within 64 8 (rf s x0) (rf (run jump_save s) sp)
            (mem (run jump_save s)) x) as [E|W].
- rewrite E. apply arm64_save_footprint.
- right. right. exact W.
Qed.

Lemma arm64_jump_enters (s : st) :
let to := rf s x1 in
disjoint 64 to arm64_context_size (rf s sp + -176) 176 = true ->
disjoint 64 to arm64_context_size (rf s x0) 8 = true ->
let s' := bthread_jump_fcontext s in
rf s' x0 = rf s x2
/\ rf s' pc = load 64 8 (to + arm64_pc_slot) (mem s)
/\ rf s' x30 = load 64 8 (to + 0x98) (mem s)
/\ rf s' sp = wrap 64 (to + arm64_context_size).
Proof.
intros to H H' s'. subst s' to. unfold bthread_jump_fcontext.
rewrite run_three.
destruct (arm64_restore_control (run (jump_save ++ jump_switch) s))
  as (-> & -> & -> & _).
pose proof (arm64_restore_frame (run (jump_save ++ jump_switch) s)) as R.
rewrite Forall_forall in R.
assert (R30 := R (x30, 0x98)). cbn [fst snd] in R30.
rewrite R30 by (unfold arm64_saved; cbn [In]; tauto). clear R R30.
destruct (arm64_outgoing_regs s) as (-> & ->).
split; [reflexivity|]. split; [|split; [|reflexivity]].
- apply arm64_outgoing_skips; [lia|..];
    apply (disjoint_sub 64 ltac:(lia) (rf s x1) arm64_context_size);
    first [assumption | unfold arm64_pc_slot, arm64_context_size; cbn; lia].
- apply arm64_outgoing_skips; [lia|..];
    apply (disjoint_sub 64 ltac:(lia) (rf s x1) arm64_context_size);
    first [assumption | unfold arm64_context_size; cbn; lia].
Qed.

(** X5. A linux_arm64 jump hands [transfer_value] (x2) to the target in
  x0.  When the 0xb0 bytes of the target context lie outside what the
  jump itself writes, control continues at the address in slot 0xa0,
  the link register holds slot 0x98, and the stack pointer ends 0xb0
  above the context. *)
Theorem X_arm64_jump_enters (s : st) :
let to := rf s x1 in
disjoint 64 to arm64_context_size (rf s sp + -176) 176 = true ->
disjoint 64 to arm64_context_size (rf s x0) 8 = true ->
let s' := bthread_jump_fcontext s in
rf s' x0 = rf s x2
/\ rf s' pc = load 64 8 (to + arm64_pc_slot) (mem s)
/\ rf s' x30 = load 64 8 (to + 0x98) (mem s)
/\ rf s' sp = wrap 64 (to + arm64_context_size).
Proof. exact (arm64_jump_enters s). Qed.

Lemma X_arm64_jump_enters_witness :
disjoint 64 (rf arm64_sample_b x1) arm64_context_size
         (rf arm64_sample_b sp + -176) 176 = true
/\ rf (bthread_jump_fcontext arm64_sample_b) x0 = 9
/\ rf (bthread_jump_fcontext arm64_sample_b) pc
   = load 64 8 (rf arm64_sample_b x1 + arm64_pc_slot) (mem arm64_sample_b).
Proof.
split; [vm_compute; reflexivity|].
destruct (X_arm64_jump_enters arm64_sample_b) as (A & P & _).
- vm_compute; reflexivity.
- vm_compute; reflexivity.
- split; [exact A | exact P].
Defined.

(** X6. Round trip on linux_arm64: [a] jumps away and [b] later jumps to
  the pointer [a]'s jump published.  If the 0xb0 bytes of the saved
  context are unchanged in between and lie outside [a]'s
  [*from_storage] and outside what [b]'s jump writes, then [b]'s jump
  reloads d8-d15 and x19-x30 with the values [a] had, continues at
  [a]'s link register and leaves the stack pointer where [a] had it,
  whatever [preserve_fpu] is. *)
Theorem X_arm64_round_trip (a b : st) :
let ctx := wrap 64 (rf a sp - 176) in
rf b x1 = load 64 8 (rf a x0) (mem (bthread_jump_fcontext a)) ->
intact 64 ctx arm64_context_size (mem (bthread_jump_fcontext a)) (mem b) ->
disjoint 64 ctx arm64_context_size (rf a x0) 8 = true ->
disjoint 64 ctx arm64_context_size (rf b sp + -176) 176 = true ->
disjoint 64 ctx arm64_context_size (rf b x0) 8 = true ->
let a' := bthread_jump_fcontext b in
Forall (fun f => rf a' (fst f) = wrap 64 (rf a (fst f))) arm64_saved
/\ rf a' pc = wrap 64 (rf a x30)
/\ rf a' sp = wrap 64 (rf a sp)
/\ rf a' x0 = rf b x2.
Proof.
intros ctx Hto Hint Hst Hsp Hst' a'. subst a'.
assert (C : rf (run jump_save a) sp = ctx)
  by (rewrite arm64_save_pointer; reflexivity).
assert (B : rf b x1 = ctx).
{ rewrite Hto, arm64_jump_mem.
  rewrite load_store_same by (first [lia | vm_compute; discriminate]).
  rewrite C. unfold ctx. bytes. }
assert (K : forall off, 0 <= off -> off + 8 <= arm64_context_size ->
              load 64 8 (ctx + off)
                   (mem (run (jump_save ++ jump_switch) b))
              = load 64 8 (ctx + off) (mem (run jump_save a))).
{ intros off Hoff Hle.
  rewrite arm64_outgoing_skips;
    [ | lia
      | apply (disjoint_sub 64 ltac:(lia) ctx arm64_context_size);
        [assumption|lia..]
      | apply (disjoint_sub 64 ltac:(lia) ctx arm64_context_size);
        [assumption|lia..] ].
  rewrite (load_intact 64 ctx arm64_context_size
             (mem (bthread_jump_fcontext a))) by (first [assumption | lia]).
  rewrite arm64_jump_mem.
  apply load_store_other; [lia|].
  apply (disjoint_sub 64 ltac:(lia) ctx arm64_context_size);
    [assumption|lia..]. }
unfold bthread_jump_fcontext. rewrite run_three.
destruct (arm64_restore_control (run (jump_save ++ jump_switch) b))
  as (-> & -> & -> & _).
destruct (arm64_outgoing_regs b) as (-> & ->). rewrite B.
split; [|split; [|split; [|reflexivity]]].
- apply Forall_forall. intros [r off] Hin.
  pose proof (arm64_restore_frame (run (jump_save ++ jump_switch) b)) as R.
  rewrite Forall_forall in R. rewrite (R _ Hin). cbn [fst snd].
  destruct (arm64_outgoing_regs b) as (-> & _). rewrite B.
  pose proof (arm64_save_frame a) as S. cbv zeta in S.
  rewrite Forall_forall in S. specialize (S _ Hin). cbn [fst snd] in S.
  rewrite C in S. rewrite <- S.
  apply K.
  all: unfold arm64_saved in Hin; cbn [In] in Hin.
  all: repeat (destruct Hin as [Hin|Hin]; [inversion Hin; subst|]);
    try (destruct Hin); unfold arm64_context_size; cbn; lia.
- rewrite K by (unfold arm64_pc_slot, arm64_context_size; cbn; lia).
  rewrite <- C. apply arm64_save_pc.
- unfold ctx, arm64_context_size.
  rewrite wrap_add_l. f_equal. ring.
Qed.

Lemma X_arm64_round_trip_witness :
rf arm64_sample_b x1
= load 64 8 (rf arm64_sample_a x0)
    (mem (bthread_jump_fcontext arm64_sample_a))
/\ (let a' := bthread_jump_fcontext arm64_sample_b in
    Forall (fun f => rf a' (fst f) = wrap 64 (rf arm64_sample_a (fst f)))
           arm64_saved
    /\ rf a' pc = wrap 64 (rf arm64_sample_a x30)
    /\ rf a' sp = wrap 64 (rf arm64_sample_a sp)
    /\ rf a' x0 = rf arm64_sample_b x2).
Proof.
split; [vm_compute; reflexivity|].
apply (X_arm64_round_trip arm64_sample_a arm64_sample_b).
- vm_compute; reflexivity.
- intros i Hi. reflexivity.
- vm_compute; reflexivity.
- vm_compute; reflexivity.
- vm_compute; reflexivity.
Defined.
End Arm64Extras.

Section Arm64Fresh.
Import ARM64.
Import linux_arm64.

(** X7. A first jump into a context made by [bthread_make_fcontext]
  (linux_arm64): if the 0xb0 bytes of the context still read as
  [bthread_make_fcontext] left them and lie outside what the jump
  writes, the entry function starts with [transfer_value] in x0 and
  with [finish] in the link register, so that its return goes to
  [finish]. *)
Theorem X_arm64_fresh_entry (finish_addr : Z) (m s : st) :
let made := bthread_make_fcontext finish_addr m in
let ctx := rf made x0 in
rf s x1 = ctx ->
intact 64 ctx arm64_context_size (mem made) (mem s) ->
disjoint 64 ctx arm64_context_size (rf s sp + -176) 176 = true ->
disjoint 64 ctx arm64_context_size (rf s x0) 8 = true ->
let e := bthread_jump_fcontext s in
rf e pc = wrap 64 (rf m x2)
/\ rf e x0 = rf s x2
/\ rf (ret x30 e) pc = wrap 64 finish_addr.
Proof.
intros made ctx Hto Hint Hsp Hst e. subst e.
destruct (make_linux_arm64_slots finish_addr m) as (S1 & S2).
fold made in S1, S2. fold ctx in S1, S2.
rewrite <- Hto in Hsp, Hst.
destruct (arm64_jump_enters s Hsp Hst) as (A & P & L & _).
rewrite A, P. unfold ret. cbn [assign setr rf reg_eqb reg_index Nat.eqb].
rewrite L. rewrite Hto.
rewrite (load_intact 64 ctx arm64_context_size (mem made) (mem s)
           arm64_pc_slot 8 Hint)
  by (unfold arm64_pc_slot, arm64_context_size; cbn; lia).
rewrite (load_intact 64 ctx arm64_context_size (mem made) (mem s)
           0x98 8 Hint)
  by (unfold arm64_context_size; cbn; lia).
unfold arm64_pc_slot. now rewrite S1, S2.
Qed.

Lemma X_arm64_fresh_entry_witness :
rf arm64_sample_first_jump x1
= rf (bthread_make_fcontext 0x400100 arm64_sample_maker) x0
/\ rf (bthread_jump_fcontext arm64_sample_first_jump) pc
   = wrap 64 (rf arm64_sample_maker x2)
/\ rf (ret x30 (bthread_jump_fcontext arm64_sample_first_jump)) pc
   = wrap 64 0x400100.
Proof.
split; [vm_compute; reflexivity|].
destruct (X_arm64_fresh_entry 0x400100 arm64_sample_maker
            arm64_sample_first_jump) as (P & _ & R).
- vm_compute; reflexivity.
- intros i Hi. reflexivity.
- vm_compute; reflexivity.
- vm_compute; reflexivity.
- split; [exact P | exact R].
Defined.
End Arm64Fresh.

Section CdeclStretches.
Import I386.

Lemma cdecl_save_pointer s :
rf (run jump_save_cdecl s) esp = wrap 32 (rf s esp + - 24).
Proof. go; repeat norm_wrap_step; same. Qed.

(** The pushes leave the caller's frame as it was. *)
Lemma cdecl_save_args s c :
In c [0; 4; 8; 12; 16] ->
load 32 4 (rf (run jump_save_cdecl s) esp + (24 + c))
     (mem (run jump_save_cdecl s))
= load 32 4 (rf s esp + c) (mem s).
Proof.
intros H. cbn [In] in H.
repeat (destruct H as [<-|H];
        [go; peel_from (rf s esp); first [same | rewrite Z.add_0_r; same]|]).
destruct H.
Qed.

Lemma cdecl_switch_regs out :
let from := load 32 4 (rf out esp + 0x1c) (mem out) in
let m' := store 32 4 from (rf out esp) (mem out) in
mem (run jump_switch_cdecl out) = m'
/\ rf (run jump_switch_cdecl out) esp = load 32 4 (rf out esp + 0x20) m'
/\ rf (run jump_switch_cdecl out) eax = load 32 4 (rf out esp + 0x24) m'
/\ rf (run jump_switch_cdecl out) ecx = rf out ecx.
Proof.
cbv zeta.
assert (E : store 32 4 (load 32 4 (rf out esp + 28) (mem out) + 0)
                  (rf out esp) (mem out)
            = store 32 4 (load 32 4 (rf out esp + 28) (mem out))
                    (rf out esp) (mem out))
  by (apply store_congr; now rewrite Z.add_0_r).
repeat split; go; rewrite ?E; same.
Qed.

Lemma cdecl_restore_frame m :
Forall (fun f => rf (run jump_restore_cdecl m) (fst f)
                 = load 32 4 (rf m esp + snd f) (mem m)) cdecl_saved.
Proof.
unfold cdecl_saved. each_fp.
all: cbn [fst snd]; go; first [same | norm; same].
Qed.

Lemma cdecl_restore_control m :
let m' := run jump_restore_cdecl m in
rf m' eip = load 32 4 (rf m esp + cdecl_return_slot) (mem m)
/\ rf m' esp = wrap 32 (rf m esp + 0x1c)
/\ rf m' eax = rf m eax
/\ mem m' = store 32 4 (rf m esp + 0x20) (rf m eax) (mem m).
Proof.
cbv zeta. unfold cdecl_return_slot.
repeat split; go;
  first [ same | norm; same | repeat norm_wrap_step; same
        | apply store_congr; repeat norm_wrap_step; same ].
Qed.
End CdeclStretches.

Section Narrow.
Variable bits : Z.
Hypothesis bits_wide : 32 <= bits.

Lemma load_store_narrow a N b k off n a' v m :
  disjoint bits a N b (Z.of_nat k) = true ->
  0 <= off -> (0 < n)%nat -> off + Z.of_nat n <= N ->
  wrap bits a' = wrap bits (a + off) ->
  load bits n a' (store bits k b v m) = load bits n a' m.
Proof.
  intros H Hoff Hn Hle E.
  rewrite (load_congr bits n a' (a + off) _ E).
  rewrite (load_congr bits n a' (a + off) m E).
  apply load_store_other; [lia|].
  apply (disjoint_sub bits bits_wide a N); [assumption|lia..].
Qed.
End Narrow.

Section CdeclJump.
Import I386.

Lemma cdecl_save_skips s a n :
(0 < n)%nat ->
disjoint 32 a (Z.of_nat n) (rf s esp + -24) 24 = true ->
load 32 n a (mem (run jump_save_cdecl s)) = load 32 n a (mem s).
Proof.
intros Hn H. go.
all: skip_from (rf s esp) (-24) 24 H (rf s esp) H; same.
Qed.

Lemma cdecl_save_keeps_ecx s :
rf (run jump_save_cdecl s) ecx = load 32 4 (rf s esp + 0x10) (mem s).
Proof. go; same. Qed.

Variable s : st.
Let from := load 32 4 (rf s esp + 0x4) (mem s).
Let to := load 32 4 (rf s esp + 0x8) (mem s).
Let vp := load 32 4 (rf s esp + 0xc) (mem s).
Hypothesis storage_off_args : disjoint 32 (rf s esp + 0x8) 8 from 4 = true.

Lemma cdecl_outgoing :
let mid := run (jump_save_cdecl ++ jump_switch_cdecl) s in
rf mid esp = to /\ rf mid eax = vp
/\ rf mid ecx = load 32 4 (rf s esp + 0x10) (mem s)
/\ mem mid = store 32 4 from (rf (run jump_save_cdecl s) esp)
                   (mem (run jump_save_cdecl s)).
Proof.
cbv zeta. rewrite run_app.
destruct (cdecl_switch_regs (run jump_save_cdecl s)) as (M & E & A & C).
cbv zeta in M, E, A.
assert (A4 := cdecl_save_args s 4 ltac:(cbn; tauto)).
assert (A8 := cdecl_save_args s 8 ltac:(cbn; tauto)).
assert (A12 := cdecl_save_args s 12 ltac:(cbn; tauto)).
change (24 + 4) with 28 in A4. change (24 + 8) with 32 in A8.
change (24 + 12) with 36 in A12.
rewrite A4 in M, E, A. fold from in M, E, A.
rewrite M, E, A, C. clear M E A C.
assert (P := cdecl_save_pointer s).
repeat split.
- rewrite (load_store_narrow 32 ltac:(lia) (rf s esp + 8) 8 from 4 0 4);
    [ exact A8 | exact storage_off_args | lia | lia | cbn; lia | ].
  rewrite P. repeat norm_wrap_step. rewrite ?Z.add_0_r. same.
- rewrite (load_store_narrow 32 ltac:(lia) (rf s esp + 8) 8 from 4 4 4);
    [ exact A12 | exact storage_off_args | lia | lia | cbn; lia | ].
  rewrite P. repeat norm_wrap_step. same.
- apply cdecl_save_keeps_ecx.
Qed.

(** X8. [bthread_jump_fcontext] of linux_i386 and apple_i386 reads its
  arguments from the stack after its pushes and after the store to
  [*from_storage]; when [*from_storage] does not overlap the slots of
  [to_context] and [transfer_value], the target receives the transfer
  value twice: in eax, the return value of a suspended call, and in
  the stack slot an entry function reads as its first parameter; the
  stack pointer ends 0x1c above the target context. *)
Theorem X_cdecl_jump_delivers :
let s' := linux_i386.bthread_jump_fcontext s in
rf s' eax = vp
/\ load 32 4 (rf s' esp + 4) (mem s') = wrap 32 vp
/\ rf s' esp = wrap 32 (to + 0x1c).
Proof.
cbv zeta. unfold linux_i386.bthread_jump_fcontext, jump_cdecl.
rewrite run_three.
destruct (cdecl_restore_control
            (run (jump_save_cdecl ++ jump_switch_cdecl) s))
  as (_ & -> & -> & ->).
destruct cdecl_outgoing as (-> & -> & _ & _).
split; [reflexivity|]. split; [|reflexivity].
rewrite (load_congr 32 4 (wrap 32 (to + 28) + 4) (to + 32))
  by (repeat norm_wrap_step; same).
rewrite load_store_same by (first [lia | vm_compute; discriminate]).
bytes.
Qed.

Hypothesis context_off_stack :
disjoint 32 to 0x1c (rf s esp + -24) 24 = true.
Hypothesis context_off_storage : disjoint 32 to 0x1c from 4 = true.

Lemma cdecl_outgoing_skips off n :
0 <= off -> (0 < n)%nat -> off + Z.of_nat n <= 0x1c ->
load 32 n (to + off)
     (mem (run (jump_save_cdecl ++ jump_switch_cdecl) s))
= load 32 n (to + off) (mem s).
Proof.
intros Hoff Hn Hle.
destruct cdecl_outgoing as (_ & _ & _ & ->).
rewrite (load_store_narrow 32 ltac:(lia) to 0x1c from 4 off n);
  [ | exact context_off_storage | lia | lia | lia | reflexivity ].
apply cdecl_save_skips; [exact Hn|].
apply (disjoint_sub 32 ltac:(lia) to 0x1c); [assumption|lia..].
Qed.

(** X9. When, besides, the 0x1c bytes of the target context lie outside
  the 24 bytes the jump pushes and outside [*from_storage], the jump
  of linux_i386 and apple_i386 reloads edi, esi, ebx and ebp from
  offsets 0x8 to 0x14 of the target context and continues at the
  address in its slot 0x18, as memory stood before the jump. *)
Theorem X_cdecl_jump_enters :
let s' := linux_i386.bthread_jump_fcontext s in
Forall (fun f => rf s' (fst f) = load 32 4 (to + snd f) (mem s)) cdecl_saved
/\ rf s' eip = load 32 4 (to + cdecl_return_slot) (mem s).
Proof.
cbv zeta. unfold linux_i386.bthread_jump_fcontext, jump_cdecl.
rewrite run_three. split.
- apply Forall_forall. intros [r off] Hin.
  pose proof (cdecl_restore_frame
                (run (jump_save_cdecl ++ jump_switch_cdecl) s)) as R.
  rewrite Forall_forall in R. rewrite (R _ Hin). cbn [fst snd].
  destruct cdecl_outgoing as (-> & _).
  apply cdecl_outgoing_skips.
  all: unfold cdecl_saved in Hin; cbn [In] in Hin.
  all: repeat (destruct Hin as [Hin|Hin]; [inversion Hin; subst|]);
    try (destruct Hin); cbn; lia.
- destruct (cdecl_restore_control
              (run (jump_save_cdecl ++ jump_switch_cdecl) s)) as (-> & _).
  destruct cdecl_outgoing as (-> & _).
  apply cdecl_outgoing_skips; unfold cdecl_return_slot; cbn; lia.
Qed.
End CdeclJump.

Lemma X_cdecl_jump_delivers_witness :
  disjoint 32 (rf cdecl_sample I386.esp + 0x8) 8
           (load 32 4 (rf cdecl_sample I386.esp + 0x4) (mem cdecl_sample)) 4
  = true
  /\ rf (linux_i386.bthread_jump_fcontext cdecl_sample) I386.eax
     = load 32 4 (rf cdecl_sample I386.esp + 0xc) (mem cdecl_sample).
Proof.
  split; [vm_compute; reflexivity|].
  destruct (X_cdecl_jump_delivers cdecl_sample) as (A & _).
  - vm_compute; reflexivity.
  - exact A.
Defined.

Lemma X_cdecl_jump_enters_witness :
  disjoint 32 (load 32 4 (rf cdecl_sample I386.esp + 0x8) (mem cdecl_sample))
           0x1c (rf cdecl_sample I386.esp + -24) 24 = true
  /\ rf (linux_i386.bthread_jump_fcontext cdecl_sample) I386.eip
     = load 32 4 (load 32 4 (rf cdecl_sample I386.esp + 0x8)
                             (mem cdecl_sample) + cdecl_return_slot)
            (mem cdecl_sample).
Proof.
  split; [vm_compute; reflexivity|].
  destruct (X_cdecl_jump_enters cdecl_sample) as (_ & P).
  - vm_compute; reflexivity.
  - vm_compute; reflexivity.
  - vm_compute; reflexivity.
  - exact P.
Defined.

Section CdeclMake.
Import I386.

Lemma make_cdecl_pointer label1 finish_addr s :
rf (make_cdecl label1 finish_addr s) eax
= wrap 32 (16 * (wrap 32 (load 32 4 (rf s esp + 0x4) (mem s) - 8) / 16)
           - 0x20).
Proof.
unfold make_cdecl. go_lhs.
rewrite (wrap_wrap 32) by lia.
rewrite land_minus16_32 by (apply wrap_range; lia).
rewrite wrap_add_l. reflexivity.
Qed.

(** Every store of the goal's memory falls in the frame at [ctx] or
  in the one at [other]. *)
Ltac two_frames_step ctx other :=
lazymatch goal with
| |- store ?b ?n (ctx + ?c) ?v ?m ?x = _ \/ within ?b ctx ?len ?x \/ _ =>
    let E := fresh "E" in
    let W := fresh "W" in
    destruct (store_in_frame b n ctx c v m x 0 len eq_refl) as [E|W];
    [ rewrite E; clear E
    | right; left; rewrite Z.add_0_r in W; exact W ]
| |- store ?b ?n ?B ?v ?m ?x = _ \/ _ \/ within ?b other _ ?x =>
    let E := fresh "E" in
    let W := fresh "W" in
    rewrite (store_congr b n B other v m)
      by (rewrite ?wrap_wrap by lia; reflexivity);
    destruct (store_or_within b n other v m x) as [E|W];
    [ rewrite E; clear E | right; right; exact W ]
end.
Ltac in_two_frames ctx other := repeat two_frames_step ctx other; left; same.

Lemma make_cdecl_frame label1 finish_addr s x :
let s' := make_cdecl label1 finish_addr s in
mem s' x = mem s x
\/ within 32 (rf s' eax) 0x20 x
\/ within 32 (rf s esp + -4) 4 x.
Proof.
cbv zeta. unfold make_cdecl. go.
match goal with
| |- context [within 32 ?A 32 x] => set (ctx := A)
end.
in_two_frames ctx (rf s esp + -4).
Qed.

Lemma make_cdecl_finish_slot label1 finish_addr s :
let s' := make_cdecl label1 finish_addr s in
load 32 4 (rf s' eax + 0x1c) (mem s') = wrap 32 finish_addr.
Proof.
cbv zeta. unfold make_cdecl. go.
rewrite load_store_same by (first [lia | vm_compute; discriminate]).
rewrite load_store_same by (first [lia | vm_compute; discriminate]).
unfold wrap. change (256 ^ Z.of_nat 4) with 4294967296.
change (2 ^ 32) with 4294967296. Z.div_mod_to_equations. lia.
Qed.

Lemma make_cdecl_entry_slot label1 finish_addr s :
let s' := make_cdecl label1 finish_addr s in
disjoint 32 (rf s' eax) 0x20 (rf s esp + -4) 4 = true ->
load 32 4 (rf s' eax + 0x18) (mem s')
= wrap 32 (load 32 4 (rf s esp + 0xc) (mem s)).
Proof.
cbv zeta. unfold make_cdecl. go.
match goal with
| |- disjoint 32 ?A 32 _ _ = true -> _ => set (ctx := A)
end.
intros H.
rewrite load_store_apart by (first [lia | reflexivity]).
rewrite (store_congr 32 4 (w32 (rf s esp - 4)) (rf s esp + -4))
  by (rewrite wrap_wrap by lia; reflexivity).
rewrite (load_store_narrow 32 ltac:(lia) ctx 32 (rf s esp + -4) 4 24 4);
  [ | exact H | lia | lia | cbn; lia | reflexivity ].
peel_from ctx. bytes.
Qed.
End CdeclMake.

Section CdeclMakeExtras.
Import I386.

(** X10. [bthread_make_fcontext] of linux_i386 and apple_i386: the
  pointer it returns is 0x20 below the 16-byte boundary at or below
  (stack top - 8), in 32-bit arithmetic; the address it stores at
  offset 0x1c is that of [finish], wherever the code is loaded (it is
  computed from the address a [call] to the next instruction pushes);
  and every byte it changes lies in the 0x20 bytes of the context or
  in the 4 bytes below the caller's stack pointer, which that [call]
  overwrites. *)
Theorem X_cdecl_make_context (label1 finish_addr : Z) (s : st) :
let s' := linux_i386.bthread_make_fcontext label1 finish_addr s in
let ctx := rf s' eax in
ctx = wrap 32 (16 * (wrap 32 (load 32 4 (rf s esp + 0x4) (mem s) - 8) / 16)
               - 0x20)
/\ load 32 4 (ctx + 0x1c) (mem s') = wrap 32 finish_addr
/\ (forall x, mem s' x = mem s x
              \/ within 32 ctx 0x20 x
              \/ within 32 (rf s esp + -4) 4 x)
/\ apple_i386.bthread_make_fcontext label1 finish_addr s = s'.
Proof.
cbv zeta. unfold linux_i386.bthread_make_fcontext.
split; [apply make_cdecl_pointer|].
split; [apply make_cdecl_finish_slot|].
split; [intros x; apply make_cdecl_frame|reflexivity].
Qed.

(** X11. When the new context lies off the 4 bytes below the caller's
  stack pointer, offset 0x18 of the context made by linux_i386 and
  apple_i386 holds the entry function, the third argument. *)
Theorem X_cdecl_make_entry (label1 finish_addr : Z) (s : st) :
let s' := linux_i386.bthread_make_fcontext label1 finish_addr s in
disjoint 32 (rf s' eax) 0x20 (rf s esp + -4) 4 = true ->
load 32 4 (rf s' eax + cdecl_return_slot) (mem s')
= wrap 32 (load 32 4 (rf s esp + 0xc) (mem s)).
Proof. exact (make_cdecl_entry_slot label1 finish_addr s). Qed.

Lemma X_cdecl_make_entry_witness :
rf (linux_i386.bthread_make_fcontext 0x400000 0x400100 cdecl_sample_maker)
   eax = 0x9fd0
/\ load 32 4 (0x9fd0 + cdecl_return_slot)
        (mem (linux_i386.bthread_make_fcontext 0x400000 0x400100
                cdecl_sample_maker))
   = 0x400200.
Proof.
assert (E : rf (linux_i386.bthread_make_fcontext 0x400000 0x400100
                  cdecl_sample_maker) eax = 0x9fd0)
  by (vm_compute; reflexivity).
split; [exact E|].
rewrite <- E.
rewrite (X_cdecl_make_entry 0x400000 0x400100 cdecl_sample_maker).
- vm_compute; reflexivity.
- vm_compute; reflexivity.
Defined.
End CdeclMakeExtras.

Section Arm32Stretches.
Import ARM32.
Import linux_arm32.

Lemma arm32_restore_frame m :
Forall (fun f => rf (run jump_restore m) (fst f)
                 = load 32 4 (rf m sp + snd f) (mem m)) arm32_saved.
Proof.
unfold arm32_saved. each_fp.
all: cbn [fst snd]; go; first [same | norm; same].
Qed.

Lemma arm32_restore_control m :
let m' := run jump_restore m in
rf m' pc = load 32 4 (rf m sp + arm32_pc_slot) (mem m)
/\ rf m' sp = wrap 32 (rf m sp + arm32_context_size)
/\ rf m' a1 = rf m a3
/\ mem m' = mem m.
Proof.
cbv zeta. unfold arm32_pc_slot, arm32_context_size.
repeat split; go; first [same | norm; same | repeat norm_wrap_step; same].
Qed.

Lemma arm32_outgoing_regs s :
let mid := run (jump_save ++ jump_switch) s in
rf mid sp = rf s a2 /\ rf mid a3 = rf s a3 /\ rf mid a4 = rf s a4.
Proof. cbv zeta. repeat split; go; same. Qed.

Lemma arm32_outgoing_skips s a n :
(0 < n)%nat ->
disjoint 32 a (Z.of_nat n) (rf s sp + -104) 104 = true ->
disjoint 32 a (Z.of_nat n) (rf s a1) 4 = true ->
load 32 n a (mem (run (jump_save ++ jump_switch) s)) = load 32 n a (mem s).
Proof.
intros Hn H H'. go.
all: skip_from (rf s sp) (-104) 104 H (rf s a1) H'; same.
Qed.

Lemma arm32_jump_enters s :
let to := rf s a2 in
disjoint 32 to arm32_context_size (rf s sp + -104) 104 = true ->
disjoint 32 to arm32_context_size (rf s a1) 4 = true ->
let s' := bthread_jump_fcontext s in
rf s' a1 = rf s a3
/\ rf s' pc = load 32 4 (to + arm32_pc_slot) (mem s)
/\ rf s' lr = load 32 4 (to + 96) (mem s)
/\ rf s' sp = wrap 32 (to + arm32_context_size).
Proof.
intros to H H' s'. subst s' to. unfold bthread_jump_fcontext.
rewrite run_three.
destruct (arm32_restore_control (run (jump_save ++ jump_switch) s))
  as (-> & -> & -> & _).
pose proof (arm32_restore_frame (run (jump_save ++ jump_switch) s)) as R.
rewrite Forall_forall in R.
assert (RL := R (lr, 96)). cbn [fst snd] in RL.
rewrite RL by (unfold arm32_saved; cbn [In]; tauto). clear R RL.
destruct (arm32_outgoing_regs s) as (-> & -> & _).
split; [reflexivity|]. split; [|split; [|reflexivity]].
- apply arm32_outgoing_skips; [lia|..];
    apply (disjoint_sub 32 ltac:(lia) (rf s a2) arm32_context_size);
    first [assumption | unfold arm32_pc_slot, arm32_context_size; cbn; lia].
- apply arm32_outgoing_skips; [lia|..];
    apply (disjoint_sub 32 ltac:(lia) (rf s a2) arm32_context_size);
    first [assumption | unfold arm32_context_size; cbn; lia].
Qed.

Lemma make_arm32_pointer finish_addr s :
rf (bthread_make_fcontext finish_addr s) a1
= wrap 32 (16 * (wrap 32 (rf s a1) / 16) - 104).
Proof.
unfold bthread_make_fcontext. go_lhs.
change (Z.lnot 15) with (-16).
rewrite land_minus16_32 by (apply wrap_range; lia).
reflexivity.
Qed.

Lemma make_arm32_frame finish_addr s x :
let s' := bthread_make_fcontext finish_addr s in
mem s' x = mem s x \/ within 32 (rf s' a1 + 96) 8 x.
Proof.
cbv zeta. unfold bthread_make_fcontext. go.
match goal with
| |- context [within 32 (?A + 96) 8 x] => set (ctx := A)
end.
repeat match goal with
| |- store ?b ?n (ctx + ?c) ?v ?m x = _ \/ _ =>
    let E := fresh "E" in
    let W := fresh "W" in
    destruct (store_in_frame b n ctx c v m x 96 8 eq_refl) as [E|W];
    [ rewrite E; clear E | right; exact W ]
end.
left; same.
Qed.

Lemma make_arm32_slots finish_addr s :
let s' := bthread_make_fcontext finish_addr s in
let ctx := rf s' a1 in
load 32 4 (ctx + arm32_pc_slot) (mem s') = wrap 32 (rf s a3)
/\ load 32 4 (ctx + 96) (mem s') = wrap 32 finish_addr.
Proof.
cbv zeta. unfold bthread_make_fcontext, arm32_pc_slot. go.
match goal with
| |- context [load 32 4 (?A + 100) _] => set (ctx := A)
end.
repeat split; peel_from ctx; bytes.
Qed.
End Arm32Stretches.

Section Arm32Extras.
Import ARM32.
Import linux_arm32.

(** X12. [bthread_make_fcontext] of linux_arm32: the pointer it returns
  is 104 below the 16-byte boundary at or below the stack top, in
  32-bit arithmetic; offset 100 holds the entry function and offset 96
  the address of [finish]; the 8 bytes of these two slots are the only
  memory it changes (the 64 bytes for d8-d15 and the slots of v1-v8
  stay as they were). *)
Theorem X_arm32_make_context (finish_addr : Z) (s : st) :
let s' := bthread_make_fcontext finish_addr s in
let ctx := rf s' a1 in
ctx = wrap 32 (16 * (wrap 32 (rf s a1) / 16) - 104)
/\ load 32 4 (ctx + arm32_pc_slot) (mem s') = wrap 32 (rf s a3)
/\ load 32 4 (ctx + 96) (mem s') = wrap 32 finish_addr
/\ (forall x, mem s' x = mem s x \/ within 32 (ctx + 96) 8 x).
Proof.
cbv zeta. split; [apply make_arm32_pointer|].
destruct (make_arm32_slots finish_addr s) as (A & B).
split; [exact A|]. split; [exact B|].
intros x. apply make_arm32_frame.
Qed.

(** X13. A first jump into a context made by [bthread_make_fcontext]
  (linux_arm32): if the 104 bytes of the context still read as
  [bthread_make_fcontext] left them and lie outside what the jump
  writes, the entry function starts with [transfer_value] in a1 and
  with [finish] in the link register, so that its return goes to
  [finish]. *)
Theorem X_arm32_fresh_entry (finish_addr : Z) (m s : st) :
let made := bthread_make_fcontext finish_addr m in
let ctx := rf made a1 in
rf s a2 = ctx ->
intact 32 ctx arm32_context_size (mem made) (mem s) ->
disjoint 32 ctx arm32_context_size (rf s sp + -104) 104 = true ->
disjoint 32 ctx arm32_context_size (rf s a1) 4 = true ->
let e := bthread_jump_fcontext s in
rf e pc = wrap 32 (rf m a3)
/\ rf e a1 = rf s a3
/\ rf (bx lr e) pc = wrap 32 finish_addr.
Proof.
intros made ctx Hto Hint Hsp Hst e. subst e.
destruct (make_arm32_slots finish_addr m) as (S1 & S2).
fold made in S1, S2. fold ctx in S1, S2.
rewrite <- Hto in Hsp, Hst.
destruct (arm32_jump_enters s Hsp Hst) as (A & P & L & _).
rewrite A, P. unfold bx. cbn [assign setr rf reg_eqb reg_index Nat.eqb].
rewrite L. rewrite Hto.
rewrite (load_intact 32 ctx arm32_context_size (mem made) (mem s)
           arm32_pc_slot 4 Hint)
  by (unfold arm32_pc_slot, arm32_context_size; cbn; lia).
rewrite (load_intact 32 ctx arm32_context_size (mem made) (mem s)
           96 4 Hint)
  by (unfold arm32_context_size; cbn; lia).
now rewrite S1, S2.
Qed.

Lemma X_arm32_fresh_entry_witness :
rf arm32_sample_first_jump a2
= rf (bthread_make_fcontext 0x400100 arm32_sample_maker) a1
/\ rf (bthread_jump_fcontext arm32_sample_first_jump) pc
   = wrap 32 (rf arm32_sample_maker a3)
/\ rf (bx lr (bthread_jump_fcontext arm32_sample_first_jump)) pc
   = wrap 32 0x400100.
Proof.
split; [vm_compute; reflexivity|].
destruct (X_arm32_fresh_entry 0x400100 arm32_sample_maker
            arm32_sample_first_jump) as (P & _ & R).
- vm_compute; reflexivity.
- intros i Hi. reflexivity.
- vm_compute; reflexivity.
- vm_compute; reflexivity.
- split; [exact P | exact R].
Defined.
End Arm32Extras.

Section Win64Make.
Import X86_64.
Import windows_x86_64.

Lemma make_win64_pointer finish_addr s :
rf (bthread_make_fcontext finish_addr s) rax
= wrap 64 (16 * (wrap 64 (rf s rcx - 0x28) / 16) - 0x128).
Proof.
unfold bthread_make_fcontext. go_lhs.
rewrite (wrap_wrap 64) by lia.
rewrite land_minus16 by (apply wrap_range; lia).
rewrite (wrap_sub_l 64). reflexivity.
Qed.

Lemma make_win64_frame finish_addr s x :
let s' := bthread_make_fcontext finish_addr s in
mem s' x = mem s x \/ within 64 (rf s' rax) 0x128 x.
Proof.
cbv zeta. unfold bthread_make_fcontext. go. in_frame.
Qed.

Lemma make_win64_slots finish_addr s :
let s' := bthread_make_fcontext finish_addr s in
let ctx := rf s' rax in
load 64 8 ctx (mem s') = 1
/\ load 64 4 (ctx + 0xa8) (mem s') = wrap 32 (rf s mxcsr)
/\ load 64 2 (ctx + 0xac) (mem s') = wrap 16 (rf s fcw)
/\ load 64 8 (ctx + 0xc0) (mem s') = wrap 64 (rf s rcx - rf s rdx)
/\ load 64 8 (ctx + 0xc8) (mem s') = wrap 64 (rf s rcx - rf s rdx)
/\ load 64 8 (ctx + 0xd0) (mem s') = wrap 64 (rf s rcx)
/\ load 64 8 (ctx + 0x118) (mem s') = wrap 64 (rf s r8)
/\ load 64 8 (ctx + 0x120) (mem s') = wrap 64 finish_addr.
Proof.
cbv zeta. unfold bthread_make_fcontext. go.
match goal with
| |- context [load 64 8 (?A + 288) _] => set (ctx := A)
end.
repeat split; peel_from ctx;
  first [ bytes
        | unfold wrap; change (256 ^ Z.of_nat 8) with 18446744073709551616;
          change (2 ^ 64) with 18446744073709551616;
          Z.div_mod_to_equations; lia ].
Qed.

(** X14. [bthread_make_fcontext] of windows_x86_64: the pointer it
  returns is 0x128 below the 16-byte boundary at or below
  (stack top - 0x28), in 64-bit arithmetic; every byte it changes lies
  in the 0x128 bytes from there; it stores the marker 1 at offset 0,
  MXCSR and the x87 control word at 0xa8 and 0xac, the stack limit
  (top - size) at 0xc0 and 0xc8, the stack base (top) at 0xd0, the
  entry function at 0x118 and the address of [finish] at 0x120. *)
Theorem X_win64_make_context (finish_addr : Z) (s : st) :
let s' := bthread_make_fcontext finish_addr s in
let ctx := rf s' rax in
ctx = wrap 64 (16 * (wrap 64 (rf s rcx - 0x28) / 16) - 0x128)
/\ (forall x, mem s' x = mem s x \/ within 64 ctx 0x128 x)
/\ load 64 8 ctx (mem s') = 1
/\ load 64 4 (ctx + 0xa8) (mem s') = wrap 32 (rf s mxcsr)
/\ load 64 2 (ctx + 0xac) (mem s') = wrap 16 (rf s fcw)
/\ load 64 8 (ctx + 0xc0) (mem s') = wrap 64 (rf s rcx - rf s rdx)
/\ load 64 8 (ctx + 0xc8) (mem s') = wrap 64 (rf s rcx - rf s rdx)
/\ load 64 8 (ctx + 0xd0) (mem s') = wrap 64 (rf s rcx)
/\ load 64 8 (ctx + 0x118) (mem s') = wrap 64 (rf s r8)
/\ load 64 8 (ctx + 0x120) (mem s') = wrap 64 finish_addr.
Proof.
cbv zeta. split; [apply make_win64_pointer|].
split; [intros x; apply make_win64_frame|].
apply make_win64_slots.
Qed.
End Win64Make.

Section Win64Restore.
Import X86_64.
Import windows_x86_64.

Variable m : st.
Variable fresh : bool.
Let tib := load 64 8 (rf m gs_base + 0x30) (mem m).
Let shift := if fresh then 8 else 0.
Hypothesis marker : load 64 8 (rf m rsp) (mem m) = if fresh then 1 else 0.
Hypothesis tib_off : disjoint 64 (rf m rsp) 0x128 (tib + 0) 0x1480 = true.

Lemma win64_restore_marker :
(Z.land (w64 (load 64 8 (rf m rsp) (mem m)))
        (w64 (load 64 8 (rf m rsp) (mem m))) =? 0) = negb fresh.
Proof. rewrite marker. now destruct fresh. Qed.

(** Reads at an offset of the context pass the stores to the TIB. *)
Ltac past_tib :=
lazymatch goal with
| |- load ?b ?n ?A ?M = _ =>
    addr_fact b A (rf m rsp)
      ltac:(fun c E =>
        rewrite (load_congr b n A (rf m rsp + c) M E);
        let Hc := fresh "Hc" in
        assert (Hc : disjoint b (rf m rsp + c) (Z.of_nat n) (tib + 0) 0x1480
                     = true)
          by (apply (disjoint_sub 64 ltac:(lia) (rf m rsp) 0x128);
              [exact tib_off | cbn; lia ..]);
        skip_from tib 0 0x1480 Hc tib Hc)
end.

Lemma win64_restore_enters :
let m' := run jump_restore m in
rf m' rip = load 64 8 (rf m rsp + (0x110 + shift)) (mem m)
/\ rf m' rsp = wrap 64 (rf m rsp + (0x118 + shift))
/\ rf m' rax = rf m r8
/\ rf m' rcx = rf m r8.
Proof.
cbv zeta. pose proof win64_restore_marker as Etest.
subst shift. fold tib.
destruct fresh; cbn [negb] in Etest; cbn [Z.add Pos.add Pos.succ].
all: repeat split; go.
all: fold tib.
all: first [ same | solve [repeat norm_wrap_step; same] | past_tib; same ].
Qed.

Lemma win64_restore_tib :
let m' := run jump_restore m in
load 64 8 (tib + 0x8) (mem m')
= wrap 64 (load 64 8 (rf m rsp + (0xc8 + shift)) (mem m))
/\ load 64 8 (tib + 0x10) (mem m')
   = wrap 64 (load 64 8 (rf m rsp + (0xc0 + shift)) (mem m))
/\ load 64 8 (tib + 0x1478) (mem m')
   = wrap 64 (load 64 8 (rf m rsp + (0xb8 + shift)) (mem m))
/\ load 64 8 (tib + 0x18) (mem m')
   = wrap 64 (load 64 8 (rf m rsp + (0xb0 + shift)) (mem m)).
Proof.
cbv zeta. pose proof win64_restore_marker as Etest.
subst shift. fold tib.
destruct fresh; cbn [negb] in Etest; cbn [Z.add Pos.add Pos.succ].
all: repeat split; go.
all: fold tib.
all: peel_from tib.
all: match goal with
     | |- ?L mod _ = wrap 64 ?R =>
         transitivity (wrap 64 L); [bytes|]; apply f_equal
     end.
all: past_tib; same.
Qed.
End Win64Restore.

Section Win64Extras.
Import X86_64.
Import windows_x86_64.

(** X15. The incoming half of [bthread_jump_fcontext] on windows_x86_64
  (from [pop %r10] on), entered with the stack pointer at a context
  whose first quadword is the marker: 1 as [bthread_make_fcontext]
  stores it, 0 as a jump pushes it.  When the 0x128 bytes of the
  context lie off the thread information block, a context with marker
  1 is read 8 bytes higher than one with marker 0: control continues
  at the address in slot 0x118 (marker 1) or 0x110 (marker 0), the
  stack pointer ends just above that slot, rax and rcx hold
  [transfer_value] (r8), and the stack base, stack limit,
  deallocation stack and fiber data of the block are set from the
  four slots that start at 0xb8 (marker 1) or 0xb0 (marker 0). *)
Theorem X_win64_marker (m : st) (fresh : bool) :
let tib := load 64 8 (rf m gs_base + 0x30) (mem m) in
let shift := if fresh then 8 else 0 in
load 64 8 (rf m rsp) (mem m) = (if fresh then 1 else 0) ->
disjoint 64 (rf m rsp) 0x128 (tib + 0) 0x1480 = true ->
let m' := run jump_restore m in
rf m' rip = load 64 8 (rf m rsp + (0x110 + shift)) (mem m)
/\ rf m' rsp = wrap 64 (rf m rsp + (0x118 + shift))
/\ rf m' rax = rf m r8
/\ rf m' rcx = rf m r8
/\ load 64 8 (tib + 0x8) (mem m')
   = wrap 64 (load 64 8 (rf m rsp + (0xc8 + shift)) (mem m))
/\ load 64 8 (tib + 0x10) (mem m')
   = wrap 64 (load 64 8 (rf m rsp + (0xc0 + shift)) (mem m))
/\ load 64 8 (tib + 0x1478) (mem m')
   = wrap 64 (load 64 8 (rf m rsp + (0xb8 + shift)) (mem m))
/\ load 64 8 (tib + 0x18) (mem m')
   = wrap 64 (load 64 8 (rf m rsp + (0xb0 + shift)) (mem m)).
Proof.
intros tib shift Hm Ht m'. subst m' tib shift.
destruct (win64_restore_enters m fresh Hm Ht) as (A & B & C & D).
destruct (win64_restore_tib m fresh Hm Ht) as (E & F & G & H).
repeat split; assumption.
Qed.
End Win64Extras.

Lemma X_win64_marker_witness :
  load 64 8 (rf win64_sample_entered X86_64.rsp) (mem win64_sample_entered) = 1
  /\ rf (run windows_x86_64.jump_restore win64_sample_entered) X86_64.rip
     = 0x400200
  /\ rf (run windows_x86_64.jump_restore win64_sample_entered) X86_64.rax = 7.
Proof.
  assert (M : load 64 8 (rf win64_sample_entered X86_64.rsp)
                   (mem win64_sample_entered) = 1)
    by (vm_compute; reflexivity).
  split; [exact M|].
  destruct (X_win64_marker win64_sample_entered true) as (P & _ & A & _).
  - exact M.
  - vm_compute; reflexivity.
  - split; [rewrite P; vm_compute; reflexivity | exact A].
Defined.

Section BrpcExtras.
Import brpc brpc_facts.

(** X16. Resetting a wrapper that owns the live message [p] to another
  live message [q], and destroying it afterwards, makes one abandoning
  call on [p] and then one on [q], in that order, and frees both. *)
Theorem X_reset_then_destroy (p q : nat) (o o' : object) (w : world) :
p <> q -> heap w p = Some o -> heap w q = Some o' ->
exists u w1 w2,
  unique_ptr_reset (SocketMessagePtr_void_from (Some p)) (Some q) w
  = Some (u, w1)
  /\ unique_ptr_destroy u w1 = Some w2
  /\ trace w2 = trace w ++ [ Call_AppendAndDestroySelf p [] None;
                             Call_AppendAndDestroySelf q [] None ]
  /\ heap w2 p = None /\ heap w2 q = None
  /\ forall r, r <> p -> r <> q -> heap w2 r = heap w r.
Proof.
intros Hpq Hp Hq.
set (w1 := World (free p (heap w))
                 (trace w ++ [Call_AppendAndDestroySelf p [] None])).
assert (Hq1 : heap w1 q = Some o').
{ cbn [w1 heap]. unfold free.
  destruct (Nat.eqb q p) eqn:E; [|exact Hq].
  apply Nat.eqb_eq in E. congruence. }
exists (Owner (Some q)), w1,
  (World (free q (heap w1))
         (trace w1 ++ [Call_AppendAndDestroySelf q [] None])).
split.
{ unfold unique_ptr_reset. cbn [get SocketMessagePtr_void_from].
  now rewrite (deleter_live p o w Hp). }
split.
{ unfold unique_ptr_destroy. cbn [get]. now apply deleter_live with (o := o'). }
split.
{ cbn [trace w1]. now rewrite <- app_assoc. }
split.
{ cbn [heap w1]. unfold free. rewrite Nat.eqb_refl.
  now destruct (Nat.eqb p q). }
split.
{ cbn [heap]. apply free_gone. }
intros r Hrp Hrq. cbn [heap w1]. unfold free.
destruct (Nat.eqb r q) eqn:E1; [apply Nat.eqb_eq in E1; congruence|].
destruct (Nat.eqb r p) eqn:E2; [apply Nat.eqb_eq in E2; congruence|].
reflexivity.
Qed.

Lemma X_reset_then_destroy_witness :
heap brpc_samples2.two_messages 4 = Some brpc_samples.frame_object
/\ exists u w1 w2,
     unique_ptr_reset (SocketMessagePtr_void_from (Some 4%nat))
                      (Some 6%nat) brpc_samples2.two_messages
     = Some (u, w1)
     /\ unique_ptr_destroy u w1 = Some w2
     /\ trace w2 = [ Call_AppendAndDestroySelf 4 [] None;
                     Call_AppendAndDestroySelf 6 [] None ].
Proof.
split; [reflexivity|].
destruct (X_reset_then_destroy 4 6 brpc_samples.frame_object
            brpc_samples2.ping_object brpc_samples2.two_messages)
  as (u & w1 & w2 & R & D & T & _).
- discriminate.
- reflexivity.
- reflexivity.
- exists u, w1, w2. split; [exact R|]. split; [exact D|exact T].
Defined.

(** X17. Ownership moves, it is never shared: after a
  [SocketMessagePtr<T>] owning a live message is handed over as a
  [SocketMessagePtr<>], destroying both wrappers, in either order,
  makes exactly one abandoning call on the message; and after
  [release], destroying the wrapper makes none, while a wrapper built
  again from the released pointer makes exactly one. *)
Theorem X_single_owner (T : Type) (p : nat) (o : object) (w : world) :
heap w p = Some o ->
let u : SocketMessagePtr T := SocketMessagePtr_from (static_cast T (Some p)) in
let after := World (free p (heap w))
                   (trace w ++ [Call_AppendAndDestroySelf p [] None]) in
(* moved-from first, then the new owner *)
(match unique_ptr_destroy (as_void (snd (move_as_void u))) w with
 | Some w' => unique_ptr_destroy (fst (move_as_void u)) w'
 | None => None
 end = Some after)
(* the new owner first, then the moved-from *)
/\ (match unique_ptr_destroy (fst (move_as_void u)) w with
    | Some w' => unique_ptr_destroy (as_void (snd (move_as_void u))) w'
    | None => None
    end = Some after)
/\ unique_ptr_destroy (as_void (snd (release u))) w = Some w
/\ unique_ptr_destroy
     (as_void (SocketMessagePtr_from (fst (release u)))) w = Some after
/\ calls_on p (trace after) = S (calls_on p (trace w)).
Proof.
intros H u after.
assert (D : details.SocketMessageDeleter (Some p) w = Some after)
  by now apply deleter_live with (o := o).
split; [exact D|]. split.
{ change (match details.SocketMessageDeleter (Some p) w with
          | Some w' => Some w'
          | None => None
          end = Some after).
  now rewrite D. }
split; [reflexivity|]. split; [exact D|].
- subst after. cbn [trace]. rewrite calls_on_app.
  unfold calls_on at 2. cbn [filter is_call_on].
  rewrite Nat.eqb_refl. cbn [List.length]. lia.
Qed.

Lemma X_single_owner_witness :
heap brpc_samples.one_message 4 = Some brpc_samples.frame_object
/\ unique_ptr_destroy
     (as_void (snd (release (SocketMessagePtr_from
                               (static_cast brpc_samples.Frame (Some 4%nat))))))
     brpc_samples.one_message
   = Some brpc_samples.one_message.
Proof.
split; [reflexivity|].
destruct (X_single_owner brpc_samples.Frame 4 brpc_samples.frame_object
            brpc_samples.one_message) as (_ & _ & R & _).
- reflexivity.
- exact R.
Defined.

(** X18. The deleter has no null or liveness check of its own: two
  wrappers built from the same raw pointer both run it, and the second
  destruction calls [AppendAndDestroySelf] on a message that has
  already destroyed itself, which is undefined; so is destroying a
  wrapper whose pointer was never a live message. *)
Theorem X_double_ownership (p : nat) (o : object) (w : world) :
heap w p = Some o ->
exists w',
  unique_ptr_destroy (SocketMessagePtr_void_from (Some p)) w = Some w'
  /\ unique_ptr_destroy (SocketMessagePtr_void_from (Some p)) w' = None
  /\ forall q, heap w q = None ->
        unique_ptr_destroy (SocketMessagePtr_void_from (Some q)) w = None.
Proof.
intros H.
exists (World (free p (heap w))
              (trace w ++ [Call_AppendAndDestroySelf p [] None])).
unfold unique_ptr_destroy. cbn [get SocketMessagePtr_void_from].
split; [now apply deleter_live with (o := o)|].
split.
- unfold details.SocketMessageDeleter, call_AppendAndDestroySelf.
  cbn [heap]. now rewrite free_gone.
- intros q Hq.
  unfold details.SocketMessageDeleter, call_AppendAndDestroySelf.
  now rewrite Hq.
Qed.

Lemma X_double_ownership_witness :
heap brpc_samples.one_message 4 = Some brpc_samples.frame_object
/\ exists w',
     unique_ptr_destroy (SocketMessagePtr_void_from (Some 4%nat))
                        brpc_samples.one_message = Some w'
     /\ unique_ptr_destroy (SocketMessagePtr_void_from (Some 4%nat)) w'
        = None.
Proof.
split; [reflexivity|].
destruct (X_double_ownership 4 brpc_samples.frame_object
            brpc_samples.one_message) as (w' & A & B & _).
- reflexivity.
- exists w'. split; [exact A | exact B].
Defined.
End BrpcExtras.

Section Win32Walk.
Import I386.
Import windows_i386.

(** One round of the loop at [walk:]. *)
Lemma walk_round fuel s :
walk (S fuel) s
= if wrap 32 (load 32 4 (rf s ecx) (mem s) + 1) =? 0
  then Some (run [ movl_ld 0 ecx edx; incl edx ] s)
  else walk fuel (run [ decl edx; xchgl edx ecx ]
                      (run [ movl_ld 0 ecx edx; incl edx ] s)).
Proof.
cbn [walk].
assert (Z : zero_flag (run [ movl_ld 0 ecx edx; incl edx ] s)
            = (wrap 32 (load 32 4 (rf s ecx) (mem s) + 1) =? 0)).
{ unfold zero_flag. go.
  rewrite (load_congr 32 4 (rf s ecx + 0) (rf s ecx))
    by (now rewrite Z.add_0_r).
  now destruct (w32 (load 32 4 (rf s ecx) (mem s) + 1) =? 0). }
now rewrite Z.
Qed.

Lemma walk_found_keeps s :
mem (run [ movl_ld 0 ecx edx; incl edx ] s) = mem s
/\ rf (run [ movl_ld 0 ecx edx; incl edx ] s) eax = rf s eax
/\ rf (run [ movl_ld 0 ecx edx; incl edx ] s) esp = rf s esp
/\ rf (run [ movl_ld 0 ecx edx; incl edx ] s) ecx = rf s ecx.
Proof. repeat split; go; same. Qed.

Lemma walk_next_keeps s :
mem (run [ decl edx; xchgl edx ecx ]
         (run [ movl_ld 0 ecx edx; incl edx ] s)) = mem s
/\ rf (run [ decl edx; xchgl edx ecx ]
           (run [ movl_ld 0 ecx edx; incl edx ] s)) eax = rf s eax
/\ rf (run [ decl edx; xchgl edx ecx ]
           (run [ movl_ld 0 ecx edx; incl edx ] s)) esp = rf s esp.
Proof. repeat split; go; same. Qed.

Lemma walk_invariant fuel : forall s r,
walk fuel s = Some r ->
mem r = mem s /\ rf r eax = rf s eax /\ rf r esp = rf s esp
/\ wrap 32 (load 32 4 (rf r ecx) (mem r) + 1) = 0.
Proof.
induction fuel as [|fuel IH]; intros s r H; [discriminate|].
rewrite walk_round in H.
destruct (walk_found_keeps s) as (M1 & A1 & S1 & C1).
destruct (walk_next_keeps s) as (M2 & A2 & S2).
destruct (wrap 32 (load 32 4 (rf s ecx) (mem s) + 1) =? 0) eqn:E.
- replace r with (run [ movl_ld 0 ecx edx; incl edx ] s) by congruence.
  rewrite M1, C1.
  apply Z.eqb_eq in E. now repeat split.
- destruct (IH _ _ H) as (M & A & S & L).
  rewrite M2 in M. rewrite A2 in A. rewrite S2 in S.
  repeat split; assumption.
Qed.

Lemma walk_more_fuel fuel : forall s r k,
walk fuel s = Some r -> walk (fuel + k) s = Some r.
Proof.
induction fuel as [|fuel IH]; intros s r k H; [discriminate|].
change (S fuel + k)%nat with (S (fuel + k)).
rewrite walk_round in *.
destruct (wrap 32 (load 32 4 (rf s ecx) (mem s) + 1) =? 0).
- exact H.
- now apply IH.
Qed.
End Win32Walk.

Section Win32Make.
Import I386.
Import windows_i386.

Ltac win32_made H found M A :=
unfold bthread_make_fcontext in H;
destruct (walk _ _) as [found|] eqn:W; [|discriminate];
apply walk_invariant in W; destruct W as (M & A & _ & _);
injection H as <-; cbv zeta.

Lemma make_win32_pointer finish_addr fuel s r :
bthread_make_fcontext finish_addr fuel s = Some r ->
rf r eax
= wrap 32 (16 * (wrap 32 (load 32 4 (rf s esp + 0x4) (mem s) - 8) / 16)
           - 0x3c).
Proof.
intros H. win32_made H found M A.
match goal with |- _ = ?R => set (rhs := R) end.
revert A. go. intros ->. subst rhs.
rewrite (wrap_wrap 32) by lia.
change (w32 4294967280) with (wrap 32 (-16)).
rewrite land_minus16_32 by (apply wrap_range; lia).
rewrite wrap_add_l. reflexivity.
Qed.

Lemma make_win32_slots finish_addr fuel s r :
bthread_make_fcontext finish_addr fuel s = Some r ->
let ctx := rf r eax in
load 32 4 (ctx + 0x30) (mem r) = wrap 32 finish_addr
/\ load 32 4 (ctx + 0x38) (mem r) = 0xffffffff
/\ load 32 4 (ctx + 0x18) (mem r) = wrap 32 (ctx + 0x38)
/\ load 32 4 (ctx + 0x14) (mem r)
   = wrap 32 (load 32 4 (rf s esp + 0x4) (mem s)).
Proof.
intros H. win32_made H found M A.
revert M A. go.
match goal with
| |- context [w32 (?A + -60)] => set (ctx := w32 (A + -60))
end.
intros M A. rewrite A, M. clear M A.
repeat split; peel_from ctx;
  first [ bytes
        | unfold wrap; change (256 ^ Z.of_nat 4) with 4294967296;
          change (2 ^ 32) with 4294967296;
          Z.div_mod_to_equations; lia ].
Qed.

Lemma make_win32_frame finish_addr fuel s r x :
bthread_make_fcontext finish_addr fuel s = Some r ->
mem r x = mem s x \/ within 32 (rf r eax) 0x40 x.
Proof.
intros H. win32_made H found M A.
revert M A. go.
match goal with
| |- context [w32 (?A + -60)] => set (ctx := w32 (A + -60))
end.
intros M A. rewrite A, M. clear M A.
in_frame.
Qed.
End Win32Make.

Section Win32Extras.
Import I386.
Import windows_i386.

(** X19. The loop at [walk:] in [bthread_make_fcontext] of windows_i386
  follows the exception-handler chain and changes no memory; when it
  leaves, ecx points to a record whose link is 0xffffffff, and eax and
  esp are as before.  A run that ends within [fuel] rounds ends the
  same way within more. *)
Theorem X_win32_walk (fuel : nat) (s r : st) :
walk fuel s = Some r ->
mem r = mem s /\ rf r eax = rf s eax /\ rf r esp = rf s esp
/\ wrap 32 (load 32 4 (rf r ecx) (mem r) + 1) = 0
/\ forall k, walk (fuel + k) s = Some r.
Proof.
intros H. destruct (walk_invariant fuel s r H) as (M & A & S & L).
repeat split; try assumption.
intros k. now apply walk_more_fuel.
Qed.

(** X20. When [bthread_make_fcontext] of windows_i386 returns (the walk
  of the exception-handler chain ends), the pointer it returns is 0x3c
  below the 16-byte boundary at or below (stack top - 8), in 32-bit
  arithmetic; every byte it changes lies in the 0x40 bytes from
  there; offset 0x14 holds the stack top, 0x30 the address of
  [finish], 0x38 the end-of-chain link 0xffffffff, and 0x18 the
  address of offset 0x38, the context's own exception record. *)
Theorem X_win32_make_context (finish_addr : Z) (fuel : nat) (s r : st) :
bthread_make_fcontext finish_addr fuel s = Some r ->
let ctx := rf r eax in
ctx = wrap 32 (16 * (wrap 32 (load 32 4 (rf s esp + 0x4) (mem s) - 8) / 16)
               - 0x3c)
/\ (forall x, mem r x = mem s x \/ within 32 ctx 0x40 x)
/\ load 32 4 (ctx + 0x14) (mem r)
   = wrap 32 (load 32 4 (rf s esp + 0x4) (mem s))
/\ load 32 4 (ctx + 0x30) (mem r) = wrap 32 finish_addr
/\ load 32 4 (ctx + 0x38) (mem r) = 0xffffffff
/\ load 32 4 (ctx + 0x18) (mem r) = wrap 32 (ctx + 0x38).
Proof.
intros H ctx. subst ctx.
destruct (make_win32_slots finish_addr fuel s r H) as (A & B & C & D).
split; [now apply make_win32_pointer with (fuel := fuel) (finish_addr := finish_addr)|].
split; [intros x; now apply make_win32_frame with (fuel := fuel) (finish_addr := finish_addr)|].
repeat split; assumption.
Qed.
End Win32Extras.

Lemma X_win32_walk_witness :
  exists r, windows_i386.walk 2 win32_sample_chain = Some r
            /\ mem r = mem win32_sample_chain
            /\ rf r I386.ecx = 0x3100.
Proof.
  destruct (windows_i386.walk 2 win32_sample_chain) as [r|] eqn:W.
  - exists r. split; [reflexivity|].
    destruct (X_win32_walk 2 win32_sample_chain r W) as (M & _).
    split; [exact M|].
    vm_compute in W. injection W as <-. reflexivity.
  - vm_compute in W. discriminate W.
Defined.

Lemma X_win32_make_context_witness :
  exists r, windows_i386.bthread_make_fcontext 0x400100 3 win32_sample_maker
            = Some r
            /\ rf r I386.eax = 0x9fb4
            /\ load 32 4 (0x9fb4 + 0x30) (mem r) = wrap 32 0x400100.
Proof.
  destruct (windows_i386.bthread_make_fcontext 0x400100 3 win32_sample_maker)
    as [r|] eqn:W.
  - exists r. split; [reflexivity|].
    destruct (X_win32_make_context 0x400100 3 win32_sample_maker r W)
      as (P & _ & _ & F & _).
    assert (E : rf r I386.eax = 0x9fb4) by (rewrite P; vm_compute; reflexivity).
    split; [exact E|]. rewrite <- E. exact F.
  - vm_compute in W. discriminate W.
Defined.

Section ArmControl.

Lemma arm32_fpscr_jump s v :
rf (linux_arm32.bthread_jump_fcontext s) ARM32.fpscr = rf s ARM32.fpscr
/\ mem (linux_arm32.bthread_jump_fcontext
          (setr ARM32.reg_eqb ARM32.fpscr v s))
   = mem (linux_arm32.bthread_jump_fcontext s).
Proof.
unfold linux_arm32.bthread_jump_fcontext.
destruct (wrap 32 (rf s ARM32.a4 - 0) =? 0) eqn:E.
all: split; go; same.
Qed.

Lemma arm64_fpcr_jump s v :
rf (linux_arm64.bthread_jump_fcontext s) ARM64.fpcr = rf s ARM64.fpcr
/\ mem (linux_arm64.bthread_jump_fcontext
          (setr ARM64.reg_eqb ARM64.fpcr v s))
   = mem (linux_arm64.bthread_jump_fcontext s).
Proof.
unfold linux_arm64.bthread_jump_fcontext. split; go; same.
Qed.

Lemma arm32_make_control f s v :
rf (linux_arm32.bthread_make_fcontext f s) ARM32.fpscr = rf s ARM32.fpscr
/\ mem (linux_arm32.bthread_make_fcontext f
          (setr ARM32.reg_eqb ARM32.fpscr v s))
   = mem (linux_arm32.bthread_make_fcontext f s).
Proof. unfold linux_arm32.bthread_make_fcontext. split; go; same. Qed.

Lemma arm64_make_control f s v :
rf (linux_arm64.bthread_make_fcontext f s) ARM64.fpcr = rf s ARM64.fpcr
/\ mem (linux_arm64.bthread_make_fcontext f
          (setr ARM64.reg_eqb ARM64.fpcr v s))
   = mem (linux_arm64.bthread_make_fcontext f s).
Proof. unfold linux_arm64.bthread_make_fcontext. split; go; same. Qed.

(** X21. On linux_arm32 and linux_arm64 neither [bthread_jump_fcontext]
  nor [bthread_make_fcontext] reads or writes the floating-point
  control register (FPSCR, FPCR), whatever [preserve_fpu] is: the
  register crosses the call unchanged and the memory the call leaves
  does not depend on it. *)
Theorem X_arm_control_register :
(forall s v,
   rf (linux_arm32.bthread_jump_fcontext s) ARM32.fpscr = rf s ARM32.fpscr
   /\ mem (linux_arm32.bthread_jump_fcontext
             (setr ARM32.reg_eqb ARM32.fpscr v s))
      = mem (linux_arm32.bthread_jump_fcontext s))
/\ (forall s v,
      rf (linux_arm64.bthread_jump_fcontext s) ARM64.fpcr = rf s ARM64.fpcr
      /\ mem (linux_arm64.bthread_jump_fcontext
                (setr ARM64.reg_eqb ARM64.fpcr v s))
         = mem (linux_arm64.bthread_jump_fcontext s))
/\ (forall f s v,
      rf (linux_arm32.bthread_make_fcontext f s) ARM32.fpscr
      = rf s ARM32.fpscr
      /\ mem (linux_arm32.bthread_make_fcontext f
                (setr ARM32.reg_eqb ARM32.fpscr v s))
         = mem (linux_arm32.bthread_make_fcontext f s))
/\ (forall f s v,
      rf (linux_arm64.bthread_make_fcontext f s) ARM64.fpcr
      = rf s ARM64.fpcr
      /\ mem (linux_arm64.bthread_make_fcontext f
                (setr ARM64.reg_eqb ARM64.fpcr v s))
         = mem (linux_arm64.bthread_make_fcontext f s)).
Proof.
split; [exact arm32_fpscr_jump|]. split; [exact arm64_fpcr_jump|].
split; [exact arm32_make_control | exact arm64_make_control].
Qed.
End ArmControl.

Section AppleMake.
Import X86_64.

(** X22. [bthread_make_fcontext] of apple_x86_64 builds the context that
  the one of linux_x86_64 builds: the same pointer, the same memory,
  the same return to the caller; it differs in leaving -16 in r8. *)
Theorem X_apple_make_context (finish_addr : Z) (s : st) :
let a := apple_x86_64.bthread_make_fcontext finish_addr s in
let l := linux_x86_64.bthread_make_fcontext finish_addr s in
rf a rax = rf l rax
/\ mem a = mem l
/\ rf a rip = rf l rip
/\ rf a rsp = rf l rsp
/\ rf a r8 = wrap 64 (-16).
Proof.
cbv zeta.
unfold apple_x86_64.bthread_make_fcontext,
  linux_x86_64.bthread_make_fcontext.
repeat split; go; rewrite ?(wrap_wrap 64) by lia; same.
Qed.
End AppleMake.

Section Win64Outgoing.
Import X86_64.
Import windows_x86_64.

(** X23. The outgoing half of [bthread_jump_fcontext] on windows_x86_64
  (up to the switch of stacks) ends 0x110 bytes below the caller's
  stack pointer, pushes the marker 0 as the first quadword of the
  context it saves, and leaves the pointer to that context in
  [*from_storage]. *)
Theorem X_win64_outgoing (s : st) :
let out := run jump_save s in
let mid := run (jump_save ++ jump_switch) s in
rf out rsp = wrap 64 (rf s rsp - 0x110)
/\ load 64 8 (rf out rsp) (mem out) = 0
/\ load 64 8 (rf s rcx) (mem mid) = rf out rsp
/\ rf mid rsp = rf s rdx.
Proof.
cbv zeta. repeat split.
- match goal with |- _ = ?R => set (rhs := R) end.
  go; subst rhs; repeat norm_wrap_step; same.
- go.
  all: rewrite load_store_same by (first [lia | vm_compute; discriminate]).
  all: rewrite lxor_self_wrapped; reflexivity.
- go.
  all: rewrite (load_congr 64 8 (rf s rcx) (rf s rcx + 0))
    by (rewrite Z.add_0_r; reflexivity).
  all: rewrite load_store_same by (first [lia | vm_compute; discriminate]).
  all: bytes.
- go; same.
Qed.
End Win64Outgoing.

Section Win32Jump.
Import I386.
Import windows_i386.

Lemma win32_save_pointer s :
rf (run jump_save s) esp = wrap 32 (rf s esp + - 44).
Proof. go; repeat norm_wrap_step; same. Qed.

Lemma win32_save_args s c :
In c [4; 8; 12] ->
load 32 4 (rf (run jump_save s) esp + (44 + c)) (mem (run jump_save s))
= load 32 4 (rf s esp + c) (mem s).
Proof.
intros H. cbn [In] in H.
repeat (destruct H as [<-|H];
        [go; peel_from (rf s esp); same|]).
destruct H.
Qed.

Lemma win32_switch_regs out :
let from := load 32 4 (rf out esp + 0x30) (mem out) in
let m' := store 32 4 from (rf out esp) (mem out) in
mem (run jump_switch out) = m'
/\ rf (run jump_switch out) esp = load 32 4 (rf out esp + 0x34) m'
/\ rf (run jump_switch out) eax = load 32 4 (rf out esp + 0x38) m'.
Proof.
cbv zeta.
assert (E : store 32 4 (load 32 4 (rf out esp + 48) (mem out) + 0)
                  (rf out esp) (mem out)
            = store 32 4 (load 32 4 (rf out esp + 48) (mem out))
                    (rf out esp) (mem out))
  by (apply store_congr; now rewrite Z.add_0_r).
repeat split; go; rewrite ?E; same.
Qed.

Lemma win32_restore_delivers m :
let m' := run jump_restore m in
rf m' esp = wrap 32 (rf m esp + 0x30)
/\ rf m' eax = rf m eax
/\ load 32 4 (rf m' esp + 4) (mem m') = wrap 32 (rf m eax).
Proof.
cbv zeta. repeat split; go.
all: first [ same | solve [repeat norm_wrap_step; same] | idtac ].
all: rewrite load_store_same by (first [lia | vm_compute; discriminate]).
all: bytes.
Qed.

Variable s : st.
Let from := load 32 4 (rf s esp + 0x4) (mem s).
Let to := load 32 4 (rf s esp + 0x8) (mem s).
Let vp := load 32 4 (rf s esp + 0xc) (mem s).
Hypothesis storage_off_args : disjoint 32 (rf s esp + 0x8) 8 from 4 = true.

Lemma win32_outgoing :
let mid := run (jump_save ++ jump_switch) s in
rf mid esp = to /\ rf mid eax = vp.
Proof.
cbv zeta. rewrite run_app.
destruct (win32_switch_regs (run jump_save s)) as (M & E & A).
cbv zeta in M, E, A.
assert (A4 := win32_save_args s 4 ltac:(cbn; tauto)).
assert (A8 := win32_save_args s 8 ltac:(cbn; tauto)).
assert (A12 := win32_save_args s 12 ltac:(cbn; tauto)).
change (44 + 4) with 48 in A4. change (44 + 8) with 52 in A8.
change (44 + 12) with 56 in A12.
rewrite A4 in E, A. fold from in E, A.
rewrite E, A. clear M E A.
assert (P := win32_save_pointer s).
split.
- rewrite (load_store_narrow 32 ltac:(lia) (rf s esp + 8) 8 from 4 0 4);
    [ exact A8 | exact storage_off_args | lia | lia | cbn; lia | ].
  rewrite P. repeat norm_wrap_step. rewrite ?Z.add_0_r. same.
- rewrite (load_store_narrow 32 ltac:(lia) (rf s esp + 8) 8 from 4 4 4);
    [ exact A12 | exact storage_off_args | lia | lia | cbn; lia | ].
  rewrite P. repeat norm_wrap_step. same.
Qed.

(** X24. [bthread_jump_fcontext] of windows_i386, like the cdecl
  routines of linux_i386 and apple_i386, reads its arguments from the
  stack after its pushes and after the store to [*from_storage]; when
  [*from_storage] does not overlap the slots of [to_context] and
  [transfer_value], the target receives the transfer value in eax and
  in the stack slot an entry function reads as its first parameter,
  and the stack pointer ends 0x30 above the target context. *)
Theorem X_win32_jump_delivers :
let s' := bthread_jump_fcontext s in
rf s' eax = vp
/\ load 32 4 (rf s' esp + 4) (mem s') = wrap 32 vp
/\ rf s' esp = wrap 32 (to + 0x30).
Proof.
cbv zeta. unfold bthread_jump_fcontext. rewrite run_three.
destruct (win32_restore_delivers (run (jump_save ++ jump_switch) s))
  as (-> & -> & ->).
destruct win32_outgoing as (-> & ->).
repeat split.
Qed.
End Win32Jump.

Lemma X_win32_jump_delivers_witness :
  disjoint 32 (rf win32_sample_jump I386.esp + 0x8) 8
           (load 32 4 (rf win32_sample_jump I386.esp + 0x4)
                 (mem win32_sample_jump)) 4 = true
  /\ rf (windows_i386.bthread_jump_fcontext win32_sample_jump) I386.eax
     = load 32 4 (rf win32_sample_jump I386.esp + 0xc) (mem win32_sample_jump).
Proof.
  split; [vm_compute; reflexivity|].
  destruct (X_win32_jump_delivers win32_sample_jump) as (A & _).
  - vm_compute; reflexivity.
  - exact A.
Defined.

Section EntryReturnWin64.
Import X86_64.
Import windows_x86_64.

Variable m : st.
Let tib := load 64 8 (rf m gs_base + 0x30) (mem m).
Hypothesis marker : load 64 8 (rf m rsp) (mem m) = 1.
Hypothesis tib_off : disjoint 64 (rf m rsp) 0x128 (tib + 0) 0x1480 = true.

End EntryReturnWin64.

Section EntryReturnWin32.
Import I386.
Import windows_i386.

Variable m : st.
Let tib := load 32 4 (rf m fs_base + 0x18) (mem m).
Hypothesis tib_off : disjoint 32 (rf m esp) 0x40 (tib + 0) 0xe10 = true.

End EntryReturnWin32.








